(** * Majik Subscription: capacity planner and finance engine

    A shallow embedding of [enums.ts], [utils.ts], [types.ts] and of the
    class [MajikSubscription], followed by the theorems that settle the
    specification's claims about them and by further properties of the
    code: laws of the month helpers, invariants of the object, round trips
    and the behaviour of the getters.

    Conventions of the embedding.
    - A JavaScript string is a [string]; comparisons are by code unit.
      White space and letter case are those of ASCII: a statement that
      depends on [trim] or on [toLowerCase] is about a text of ASCII
      characters and says so ([asciiText]).
    - Numbers stored in a capacity plan (capacity, adjustment) and cost
      quantities are integers ([Z]), so a statement about a plan is about a
      plan of whole numbers; a missing optional field is [None].
      Numeric arguments whose integrality the code tests are rationals
      ([Q]) and their products are exact; a statement that depends on a
      product says on which inputs the products of the code, which are
      doubles, are exact as well ([exactGrowth]).
    - An object is the value of its fields. The class keeps the rate, the
      COS items and the plan entries it is handed without copying them, so
      one entry object can sit in two slots of a plan, and a caller can
      change a rate or an entry behind the object. A statement about a call
      is about the values the object has when the call is made; where it
      needs the entries of the plan to be distinct objects, or the cache to
      be in step with the fields, that is a hypothesis ([uniqueMonths], two
      slots that hold one object having one month, and [cacheCoherent]).
    - A [Date] is observed only through its UTC (or local) year and month,
      so it is modelled by those two numbers; [None] is the Invalid Date.
    - An operation that can throw returns the message it throws together
      with the object as it is at that point, so that a write made before
      the [throw] stays visible.
    - What the environment supplies (the clock, the time zone, [Date]'s
      string parser, the random identifiers) is an explicit argument. *)

From Stdlib Require Import ZArith QArith Qround Qpower List String Ascii Bool Lia.
From Stdlib Require Import DecimalString DecimalPos DecimalZ Permutation Sorted.
Import ListNotations.

Local Open Scope string_scope.
Local Open Scope Z_scope.

(* ================================================================== *)
(** ** JavaScript built-ins used by the source *)
(* ================================================================== *)

(** Result of an expression that may throw [new Error(msg)]. *)
Inductive res (A : Type) : Type :=
| Val (a : A)
| Err (msg : string).
Arguments Val {A} a.
Arguments Err {A} msg.

Definition bind {A B : Type} (r : res A) (k : A -> res B) : res B :=
  match r with
  | Val a => k a
  | Err m => Err m
  end.

Notation "x <- r ;; k" := (bind r (fun x => k))
  (at level 61, r at next level, right associativity).

(** Regular expressions, as far as the two literals of [utils.ts] need
    them: no flag is set, so [^] and [$] are the ends of the input. *)
Module Regex.

Inductive t : Type :=
  | Eps
  | Chr (c : ascii)
  | Range (lo hi : ascii)
  | Bol
  | Eol
  | Seq (r1 r2 : t)
  | Alt (r1 r2 : t).

Definition in_range (lo hi c : ascii) : bool :=
    ((N_of_ascii lo <=? N_of_ascii c) && (N_of_ascii c <=? N_of_ascii hi))%N.

  (** [\d] *)
Definition digit : t := Range "0" "9".

  (** [r{n}] *)
Fixpoint rep (n : nat) (r : t) : t :=
    match n with
    | O => Eps
    | S n' => Seq r (rep n' r)
    end.

  (** Backtracking matcher. [bol] tells whether the position is the start
      of the input, [s] is the rest of the input, [k] the continuation. *)
Fixpoint run (r : t) (bol : bool) (s : string)
           (k : bool -> string -> bool) : bool :=
    match r with
    | Eps => k bol s
    | Chr c =>
        match s with
        | String a s' => Ascii.eqb a c && k false s'
        | EmptyString => false
        end
    | Range lo hi =>
        match s with
        | String a s' => in_range lo hi a && k false s'
        | EmptyString => false
        end
    | Bol => bol && k bol s
    | Eol =>
        match s with
        | EmptyString => k bol s
        | String _ _ => false
        end
    | Seq r1 r2 => run r1 bol s (fun b s' => run r2 b s' k)
    | Alt r1 r2 => run r1 bol s k || run r2 bol s k
    end.

  (** A match may start at any position. *)
Fixpoint search (r : t) (bol : bool) (s : string) : bool :=
    run r bol s (fun _ _ => true)
    || match s with
       | String _ s' => search r false s'
       | EmptyString => false
       end.

  (** [RegExp.prototype.test] *)
Definition test (r : t) (s : string) : bool := search r true s.

End Regex.

Module JS.

  (** A number that may be [NaN] ([None]). *)
Definition num : Type := option Z.

Definition digit_of (c : ascii) : option Z :=
    let n := Z.of_N (N_of_ascii c) in
    if (48 <=? n) && (n <=? 57) then Some (n - 48) else None.

Fixpoint digits_value (acc : Z) (s : string) : num :=
    match s with
    | EmptyString => Some acc
    | String c s' =>
        match digit_of c with
        | Some d => digits_value (acc * 10 + d) s'
        | None => None
        end
    end.

  (** [Number(s)] on a string: exact on strings of decimal digits and on the
      empty string (which is 0); every other string is taken to [NaN].
      (JavaScript also reads signs, fractions, exponents, radix prefixes and
      surrounding white space. Where a statement below depends on the value
      of [Number], its argument is a string of digits.) *)
Definition Number (s : string) : num := digits_value 0 s.

  (** [String(n)] for an integer, and for [NaN]. *)
Definition Zstr (z : Z) : string := NilZero.string_of_int (Z.to_int z).

Definition numStr (n : num) : string :=
    match n with
    | Some z => Zstr z
    | None => "NaN"
    end.

  (** [s.padStart(2, "0")] *)
Definition padStart2 (s : string) : string :=
    match s with
    | EmptyString => "00"
    | String c EmptyString => String "0" (String c EmptyString)
    | _ => s
    end.

  (** [s.split(sep)] for a one-character separator. *)
Fixpoint split (sep : ascii) (s : string) : list string :=
    match s with
    | EmptyString => [EmptyString]
    | String c s' =>
        if Ascii.eqb c sep then EmptyString :: split sep s'
        else match split sep s' with
             | h :: t => String c h :: t
             | [] => [String c EmptyString]
             end
    end.

  (** Element [i] of an array of numbers; [undefined] behaves as [NaN] in
      the arithmetic that follows. *)
Definition nth_num (i : nat) (l : list num) : num :=
    match nth_error l i with
    | Some v => v
    | None => None
    end.

Definition num_add (n : num) (k : Z) : num := option_map (fun z => z + k) n.

  (** [a > b] on strings. *)
Definition str_gt (a b : string) : bool := String.ltb b a.

  (** A [Date] seen through its year and its month index (0..11). *)
Definition Date : Type := option (Z * Z).

  (** Years 0..99 mean 1900..1999 in [Date.UTC] and in [new Date(y, m, d)]. *)
Definition fullYear (y : Z) : Z :=
    if (0 <=? y) && (y <=? 99) then 1900 + y else y.

  (** The first and the last month whose first day is a time value:
      May -271821 and September 275760. *)
Definition minMonth : Z := -271821 * 12 + 4.
Definition maxMonth : Z := 275760 * 12 + 8.

  (** The first day of month [m] (any integer) of year [y]. *)
Definition monthStart (y m : Z) : Date :=
    let t := fullYear y * 12 + m in
    if (minMonth <=? t) && (t <=? maxMonth) then Some (t / 12, t mod 12)
    else None.

  (** [new Date(Date.UTC(y, m, 1))], read with the UTC getters. *)
Definition DateUTC (y m : num) : Date :=
    match y, m with
    | Some y', Some m' => monthStart y' m'
    | _, _ => None
    end.

  (** [new Date(y, m, 1)], read with the local getters. *)
Definition DateLocal (y m : num) : Date := DateUTC y m.

Definition getYear (d : Date) : num := option_map fst d.
Definition getMonth (d : Date) : num := option_map snd d.

  (** Local year and month of an instant that is midnight UTC on the first
      of a month: the same month, or the month before when the local clock
      is behind UTC. *)
Definition localOfUTCMonthStart (behind : bool) (d : Date) : Date :=
    match d with
    | Some (y, m) =>
        if behind then Some ((y * 12 + m - 1) / 12, (y * 12 + m - 1) mod 12)
        else Some (y, m)
    | None => None
    end.

End JS.

(** What the run-time environment decides. *)
Record Env : Type := {
  (** [new Date(s)] for a string: UTC year and month index, or Invalid Date *)
  dateParse : string -> JS.Date;
  (** whether local time is behind UTC (a zone west of Greenwich) *)
  localBehindUTC : bool;
  (** minor units of a decimal amount in the currency of the given code
      (inside [MajikMoney.fromMajor]) *)
  majorToMinor : Q -> string -> Z
}.

(** One reading of [new Date()]. *)
Record Clock : Type := {
  clockYear : Z;
  clockMonth : Z;
  clockISO : string
}.

(* ================================================================== *)
(** ** utils.ts *)
(* ================================================================== *)

(** [/^\d{4}-0[1-9]|1[0-2]$/]: the alternation has the lowest precedence,
    so the two branches are [^\d{4}-0[1-9]] and [1[0-2]$]. *)
Definition branch_year_0x : Regex.t :=
  Regex.Seq Regex.Bol
    (Regex.Seq (Regex.rep 4 Regex.digit)
       (Regex.Seq (Regex.Chr "-")
          (Regex.Seq (Regex.Chr "0") (Regex.Range "1" "9")))).

Definition branch_1x_end : Regex.t :=
  Regex.Seq (Regex.Chr "1") (Regex.Seq (Regex.Range "0" "2") Regex.Eol).

Definition re_isValidYYYYMM : Regex.t :=
  Regex.Alt branch_year_0x branch_1x_end.

Definition isValidYYYYMM (month : string) : bool :=
  Regex.test re_isValidYYYYMM month.

(** [/^\d{4}-\d{2}$/] *)
Definition re_YYYYMM : Regex.t :=
  Regex.Seq Regex.Bol
    (Regex.Seq (Regex.rep 4 Regex.digit)
       (Regex.Seq (Regex.Chr "-")
          (Regex.Seq (Regex.rep 2 Regex.digit) Regex.Eol))).

(** [`${year}-${month}`] with the month padded to two characters. *)
Definition formatYYYYMM (year month : JS.num) : string :=
  JS.numStr year ++ "-" ++ JS.padStart2 (JS.numStr month).

Definition dateToYYYYMM (date : JS.Date) : res string :=
  match date with
  | None => Err "Invalid Date object"
  | Some (y, m) => Val (formatYYYYMM (Some y) (Some (m + 1)))
  end.

Definition yyyyMMToDate (yyyyMM : string) : JS.Date :=
  let parts := map JS.Number (JS.split "-" yyyyMM) in
  JS.DateUTC (JS.nth_num 0 parts) (JS.num_add (JS.nth_num 1 parts) (-1)).

Inductive StartDateInput : Type :=
| SDString (s : string)
| SDDate (d : JS.Date).

Section Utils.

Variable env : Env.

Definition normalizeStartDate (now : Clock) (input : option StartDateInput)
    : res JS.Date :=
    match input with
    | None | Some (SDString EmptyString) =>
        Val (JS.DateUTC (Some (clockYear now)) (Some (clockMonth now)))
    | Some (SDString s) =>
        if Regex.test re_YYYYMM s then
          let parts := map JS.Number (JS.split "-" s) in
          Val (JS.DateUTC (JS.nth_num 0 parts)
                 (JS.num_add (JS.nth_num 1 parts) (-1)))
        else
          match dateParse env s with
          | Some (y, m) => Val (JS.DateUTC (Some y) (Some m))
          | None => Err "Invalid startDate format"
          end
    | Some (SDDate (Some (y, m))) => Val (JS.DateUTC (Some y) (Some m))
    | Some (SDDate None) => Err "Invalid startDate format"
    end.

Definition offsetMonthsToYYYYMM (now : Clock) (input : option StartDateInput)
             (offsetMonths : Z) : res string :=
    date <- normalizeStartDate now input ;;
    let year := JS.getYear date in
    let month := JS.num_add (JS.getMonth date) offsetMonths in
    dateToYYYYMM (JS.DateUTC year month).

End Utils.

(** A number that is [NaN] when a bound is malformed. *)
Definition monthsInPeriod (earlier later : string) : JS.num :=
  match yyyyMMToDate earlier, yyyyMMToDate later with
  | Some (startYear, startMonth), Some (endYear, endMonth) =>
      Some ((endYear - startYear) * 12 + (endMonth - startMonth) + 1)
  | _, _ => None
  end.

(* ================================================================== *)
(** ** The money library (an external package) *)
(* ================================================================== *)

(** Modelled from the spec: [MajikMoney] comes from the package
    [@thezelijah/majik-money], which is not part of this repository. The
    spec describes it as exact currency arithmetic that is "always
    currency-checked", with a "currency-tagged minor-unit representation":
    an amount is an integer number of minor units tagged with a currency,
    [add], [subtract] and [ratio] throw on two different currencies, and
    [multiply] by an integer is exact. A currency code is never the empty
    string, which the type makes explicit. *)
Module Money.

Record Currency : Type := {
    code_head : ascii;
    code_tail : string
  }.

Definition code (c : Currency) : string :=
    String (code_head c) (code_tail c).

Definition currency_eqb (a b : Currency) : bool :=
    String.eqb (code a) (code b).

Record t : Type := {
    minor : Z;
    currency : Currency
  }.

Definition fromMinor (n : Z) (c : Currency) : t :=
    {| minor := n; currency := c |}.

Definition mismatch : string := "Currency mismatch".

Definition add (a b : t) : res t :=
    if currency_eqb (currency a) (currency b)
    then Val (fromMinor (minor a + minor b) (currency a))
    else Err mismatch.

Definition subtract (a b : t) : res t :=
    if currency_eqb (currency a) (currency b)
    then Val (fromMinor (minor a - minor b) (currency a))
    else Err mismatch.

Definition multiply (a : t) (k : Z) : t :=
    fromMinor (minor a * k) (currency a).

Definition isZero (a : t) : bool := minor a =? 0.

Definition ratio (a b : t) : res Q :=
    if currency_eqb (currency a) (currency b)
    then Val (inject_Z (minor a) / inject_Z (minor b))%Q
    else Err mismatch.

  (** The serialised form of an amount. *)
Record json : Type := {
    j_amount : Z;
    j_currency : string
  }.

Definition serialize (a : t) : json :=
    {| j_amount := minor a; j_currency := code (currency a) |}.

Definition deserialize (j : json) : res t :=
    match j_currency j with
    | EmptyString => Err "Unknown currency"
    | String c r =>
        Val (fromMinor (j_amount j) {| code_head := c; code_tail := r |})
    end.

End Money.

Arguments Money.currency_eqb : simpl never.

(* ================================================================== *)
(** ** enums.ts and types.ts *)
(* ================================================================== *)

Inductive SubscriptionStatus : Type := ACTIVE | INACTIVE | SUSPENDED | CANCELLED.
Inductive SubscriptionType : Type := RECURRING | ONE_TIME | TRIAL.
Inductive SubscriptionVisibility : Type := PUBLIC | PRIVATE.
Inductive BillingCycle : Type := DAILY | WEEKLY | MONTHLY | QUARTERLY | YEARLY.
Inductive RateUnit : Type := PER_SUBSCRIBER | PER_ACCOUNT | PER_USER | PER_MONTH.

Inductive CapacityPeriodResizeMode : Type :=
| DEFAULT      (* trim or pad, keep per-month units *)
| DISTRIBUTE.  (* preserve total capacity, redistribute evenly *)

(** The records of [types.ts] are written over the type [M] of an amount,
    which is [Money.t] in the class and [Money.json] in its JSON form. *)
Section Types.

Variable M : Type.

Record COSItem : Type := {
    cos_id : string;
    item : string;
    unitCost : M;
    quantity : Z;
    subtotal : M;
    cos_unit : option string
  }.

Record ValueRatio : Type := {
    value : M;
    marginRatio : Q
  }.

Record GrossNet : Type := {
    gross : ValueRatio;
    net : ValueRatio
  }.

Record SubscriptionFinance : Type := {
    profit : GrossNet;
    revenue : GrossNet;
    income : GrossNet;
    fcos : GrossNet
  }.

Record SubscriptionRate : Type := {
    amount : M;
    rate_unit : RateUnit;
    billingCycle : BillingCycle
  }.

End Types.

Arguments cos_id {M}.
Arguments item {M}.
Arguments unitCost {M}.
Arguments quantity {M}.
Arguments subtotal {M}.
Arguments cos_unit {M}.
Arguments value {M}.
Arguments marginRatio {M}.
Arguments gross {M}.
Arguments net {M}.
Arguments profit {M}.
Arguments revenue {M}.
Arguments income {M}.
Arguments fcos {M}.
Arguments amount {M}.
Arguments rate_unit {M}.
Arguments billingCycle {M}.

Record MonthlyCapacity : Type := {
  month : string;
  capacity : Z;
  adjustment : option Z
}.

Record Description : Type := {
  text : string;
  html : option string;
  seo : option string
}.

Record SystemSettings : Type := {
  isRestricted : bool;
  restrictedUntil : option string
}.

Record SubscriptionSettings : Type := {
  s_status : SubscriptionStatus;
  visibility : SubscriptionVisibility;
  system : option SystemSettings
}.

Section Metadata.

Variable M : Type.

Record SubscriptionMetadata : Type := {
    sku : option string;
    description : Description;
    photos : option (list string);
    m_type : SubscriptionType;
    m_category : string;
    m_rate : SubscriptionRate M;
    cos : list (COSItem M);
    capacityPlan : option (list MonthlyCapacity);
    finance : SubscriptionFinance M
  }.

End Metadata.

Arguments sku {M}.
Arguments description {M}.
Arguments photos {M}.
Arguments m_type {M}.
Arguments m_category {M}.
Arguments m_rate {M}.
Arguments cos {M}.
Arguments capacityPlan {M}.
Arguments finance {M}.

(** The fields of a [MajikSubscription]. The class keeps [this.rate] and
    [this.metadata.rate] as two references to one object (the constructor
    and [setRate] store the same reference in both, the other setters write
    through it), so the rate has one home here, [m_rate], and [rate] reads
    it. *)
Record MajikSubscription : Type := {
  id : string;
  slug : string;
  name : string;
  category : string;
  status : SubscriptionStatus;
  type : SubscriptionType;
  timestamp : string;
  last_update : string;
  metadata : SubscriptionMetadata Money.t;
  settings : SubscriptionSettings;
  financeDirty : bool
}.

Definition rate (s : MajikSubscription) : SubscriptionRate Money.t :=
  m_rate (metadata s).

(** What a call leaves behind: the object after a normal return, or the
    message thrown and the object as it is when the error leaves. *)
Inductive outcome : Type :=
| Return (s : MajikSubscription)
| Throw (msg : string) (s : MajikSubscription).

Definition final (o : outcome) : MajikSubscription :=
  match o with
  | Return s => s
  | Throw _ s => s
  end.

(** Field updates. *)
Definition with_metadata (s : MajikSubscription)
           (m : SubscriptionMetadata Money.t) : MajikSubscription :=
  {| id := id s; slug := slug s; name := name s; category := category s;
     status := status s; type := type s; timestamp := timestamp s;
     last_update := last_update s; metadata := m; settings := settings s;
     financeDirty := financeDirty s |}.

Definition with_cos (m : SubscriptionMetadata Money.t)
           (c : list (COSItem Money.t)) : SubscriptionMetadata Money.t :=
  {| sku := sku m; description := description m; photos := photos m;
     m_type := m_type m; m_category := m_category m; m_rate := m_rate m;
     cos := c; capacityPlan := capacityPlan m; finance := finance m |}.

Definition with_capacityPlan (m : SubscriptionMetadata Money.t)
           (p : option (list MonthlyCapacity)) : SubscriptionMetadata Money.t :=
  {| sku := sku m; description := description m; photos := photos m;
     m_type := m_type m; m_category := m_category m; m_rate := m_rate m;
     cos := cos m; capacityPlan := p; finance := finance m |}.

Definition with_finance (m : SubscriptionMetadata Money.t)
           (f : SubscriptionFinance Money.t) : SubscriptionMetadata Money.t :=
  {| sku := sku m; description := description m; photos := photos m;
     m_type := m_type m; m_category := m_category m; m_rate := m_rate m;
     cos := cos m; capacityPlan := capacityPlan m; finance := f |}.

Definition with_rate (m : SubscriptionMetadata Money.t)
           (r : SubscriptionRate Money.t) : SubscriptionMetadata Money.t :=
  {| sku := sku m; description := description m; photos := photos m;
     m_type := m_type m; m_category := m_category m; m_rate := r;
     cos := cos m; capacityPlan := capacityPlan m; finance := finance m |}.

Definition with_description (m : SubscriptionMetadata Money.t)
           (d : Description) : SubscriptionMetadata Money.t :=
  {| sku := sku m; description := d; photos := photos m;
     m_type := m_type m; m_category := m_category m; m_rate := m_rate m;
     cos := cos m; capacityPlan := capacityPlan m; finance := finance m |}.

Definition set_cos (s : MajikSubscription) (c : list (COSItem Money.t))
  : MajikSubscription := with_metadata s (with_cos (metadata s) c).

Definition set_plan (s : MajikSubscription) (p : option (list MonthlyCapacity))
  : MajikSubscription := with_metadata s (with_capacityPlan (metadata s) p).

Definition set_finance (s : MajikSubscription) (f : SubscriptionFinance Money.t)
  : MajikSubscription := with_metadata s (with_finance (metadata s) f).

Definition set_rate (s : MajikSubscription) (r : SubscriptionRate Money.t)
  : MajikSubscription := with_metadata s (with_rate (metadata s) r).

Definition set_description (s : MajikSubscription) (d : Description)
  : MajikSubscription := with_metadata s (with_description (metadata s) d).

Definition set_dirty (s : MajikSubscription) (b : bool) : MajikSubscription :=
  {| id := id s; slug := slug s; name := name s; category := category s;
     status := status s; type := type s; timestamp := timestamp s;
     last_update := last_update s; metadata := metadata s;
     settings := settings s; financeDirty := b |}.

Definition set_last_update (s : MajikSubscription) (t : string)
  : MajikSubscription :=
  {| id := id s; slug := slug s; name := name s; category := category s;
     status := status s; type := type s; timestamp := timestamp s;
     last_update := t; metadata := metadata s;
     settings := settings s; financeDirty := financeDirty s |}.

(* ================================================================== *)
(** ** utils.ts: identifiers, slugs and empty finance *)
(* ================================================================== *)

Definition is_space (c : ascii) : bool :=
  let n := N_of_ascii c in
  ((n =? 32) || ((9 <=? n) && (n <=? 13)))%N.

(** [s.trim() === ""] on a text of ASCII characters, whose white space is
    the space and the controls 9 to 13. ([trim] also strips the white space
    outside ASCII, U+00A0 and U+2028 for two.) *)
Fixpoint is_blank (s : string) : bool :=
  match s with
  | EmptyString => true
  | String c s' => is_space c && is_blank s'
  end.

(** [toLowerCase] on a character of ASCII. (Outside ASCII two characters
    have a lower case that starts with an ASCII letter: U+212A and
    U+0130.) *)
Definition toLowerCase (c : ascii) : ascii :=
  let n := N_of_ascii c in
  if ((65 <=? n) && (n <=? 90))%N then ascii_of_N (n + 32) else c.

Definition is_slug_char (c : ascii) : bool :=
  Regex.in_range "a" "z" c || Regex.in_range "0" "9" c.

(** [.replace(/[^a-z0-9]+/g, "-")] *)
Fixpoint dash_runs (in_run : bool) (s : string) : string :=
  match s with
  | EmptyString => EmptyString
  | String c s' =>
      if is_slug_char c then String c (dash_runs false s')
      else if in_run then dash_runs true s'
           else String "-" (dash_runs true s')
  end.

Fixpoint drop_dashes (s : string) : string :=
  match s with
  | String c s' => if Ascii.eqb c "-" then drop_dashes s' else s
  | EmptyString => EmptyString
  end.

Fixpoint all_dashes (s : string) : bool :=
  match s with
  | EmptyString => true
  | String c s' => Ascii.eqb c "-" && all_dashes s'
  end.

Fixpoint drop_trailing_dashes (s : string) : string :=
  match s with
  | EmptyString => EmptyString
  | String c s' =>
      if all_dashes s then EmptyString else String c (drop_trailing_dashes s')
  end.

Fixpoint map_string (f : ascii -> ascii) (s : string) : string :=
  match s with
  | EmptyString => EmptyString
  | String c s' => String (f c) (map_string f s')
  end.

(** [generateSlug]; [genUID] is what the random generator returns. *)
Definition generateSlug (genUID : string) (name : string) : string :=
  let slugText :=
    drop_trailing_dashes
      (drop_dashes (dash_runs false (map_string toLowerCase name))) in
  slugText ++ "-" ++ genUID.

(** [autogenerateID] *)
Definition autogenerateID (genUID : string) (prefix : string) : string :=
  prefix ++ "-" ++ genUID.

Definition createZeroValueRatio (c : Money.Currency) : ValueRatio Money.t :=
  {| value := Money.fromMinor 0 c; marginRatio := 0%Q |}.

Definition createEmptySubscriptionFinance (c : Money.Currency)
  : SubscriptionFinance Money.t :=
  let z := {| gross := createZeroValueRatio c; net := createZeroValueRatio c |} in
  {| revenue := z; income := z; profit := z; fcos := z |}.

(* ================================================================== *)
(** ** MajikSubscription: construction *)
(* ================================================================== *)

Definition or_else (o : option string) (d : string) : string :=
  match o with
  | Some EmptyString | None => d
  | Some v => v
  end.

Definition default_settings : SubscriptionSettings :=
  {| s_status := ACTIVE; visibility := PRIVATE;
     system := Some {| isRestricted := false; restrictedUntil := None |} |}.

(** The constructor. [uid_id] and [uid_slug] are the strings the random
    generator would return for the identifier and for the slug. *)
Definition new_MajikSubscription (now : Clock) (uid_id uid_slug : string)
           (id0 slug0 : option string) (name0 : string)
           (metadata0 : SubscriptionMetadata Money.t)
           (settings0 : option SubscriptionSettings)
           (timestamp0 last_update0 : option string) : MajikSubscription :=
  let settings1 :=
    match settings0 with
    | Some st => st
    | None => {| s_status := ACTIVE; visibility := PRIVATE;
                 system := Some {| isRestricted := false;
                                   restrictedUntil := None |} |}
    end in
  {| id := or_else id0 (autogenerateID uid_id "mjksub");
     slug := or_else slug0 (generateSlug uid_slug name0);
     name := name0;
     metadata := metadata0;
     settings := settings1;
     type := m_type metadata0;
     category := m_category metadata0;
     status := s_status settings1;
     timestamp := match timestamp0 with Some t => t | None => clockISO now end;
     last_update :=
       match last_update0 with Some t => t | None => clockISO now end;
     financeDirty := true |}.

(** [initialize]. The rate object of the caller is kept as it is handed
    over; here it is its value. *)
Definition initialize (now : Clock) (uid_id uid_slug : string)
           (name0 : string) (type0 : option SubscriptionType)
           (rate0 : SubscriptionRate Money.t) (category0 : option string)
           (descriptionText skuID : option string) : res MajikSubscription :=
  let type1 := match type0 with Some t => t | None => RECURRING end in
  let category1 := match category0 with Some c => c | None => "Other" end in
  if is_blank name0 then Err "Name must be a valid non-empty string."
  else if is_blank category1
  then Err "Category must be a valid non-empty string."
  else
    let defaultMetadata :=
      {| description :=
           {| text := or_else descriptionText "A new subscription.";
              html := None; seo := None |};
         m_type := type1;
         m_category := category1;
         m_rate := rate0;
         sku := match skuID with
                | Some EmptyString | None => None
                | Some k => Some k
                end;
         photos := None;
         cos := [];
         capacityPlan := None;
         finance :=
           createEmptySubscriptionFinance (Money.currency (amount rate0)) |} in
    let defaultSettings :=
      {| visibility := PRIVATE; s_status := ACTIVE;
         system := Some {| isRestricted := false; restrictedUntil := None |} |} in
    Val (new_MajikSubscription now uid_id uid_slug None None
           (or_else (Some name0) "My Subscription")
           defaultMetadata (Some defaultSettings) None None).

(* ================================================================== *)
(** ** MajikSubscription: private helpers *)
(* ================================================================== *)

Definition updateTimestamp (now : Clock) (s : MajikSubscription)
  : MajikSubscription := set_last_update s (clockISO now).

Definition markFinanceDirty (s : MajikSubscription) : MajikSubscription :=
  set_dirty s true.

(** [DEFAULT_ZERO()]: zero in the currency of the rate. The [|| "PHP"]
    fallback needs an empty or missing code, which a rate never has. *)
Definition DEFAULT_ZERO (s : MajikSubscription) : Money.t :=
  Money.fromMinor 0 (Money.currency (amount (rate s))).

Definition assertCurrency (s : MajikSubscription) (money : Money.t) : res unit :=
  if Money.currency_eqb (Money.currency money) (Money.currency (amount (rate s)))
  then Val tt
  else Err "Currency mismatch with subscription rate".

(* ================================================================== *)
(** ** MajikSubscription: metadata helpers *)
(* ================================================================== *)

Definition setName (now : Clock) (genUID : string) (name0 : string)
           (s : MajikSubscription) : outcome :=
  Return (updateTimestamp now
    {| id := id s; slug := generateSlug genUID name0; name := name0;
       category := category s; status := status s; type := type s;
       timestamp := timestamp s; last_update := last_update s;
       metadata := metadata s; settings := settings s;
       financeDirty := financeDirty s |}).

Definition setRate (now : Clock) (rate0 : SubscriptionRate Money.t)
           (s : MajikSubscription) : outcome :=
  Return (markFinanceDirty (updateTimestamp now (set_rate s rate0))).

Definition setRateUnit (now : Clock) (unit0 : RateUnit)
           (s : MajikSubscription) : outcome :=
  Return (markFinanceDirty (updateTimestamp now
    (set_rate s {| amount := amount (rate s); rate_unit := unit0;
                   billingCycle := billingCycle (rate s) |}))).

Section RateAmount.

Variable env : Env.

Definition fromMajor (a : Q) (c : Money.Currency) : Money.t :=
  Money.fromMinor (majorToMinor env a (Money.code c)) c.

Definition setRateAmount (now : Clock) (amount0 : Q)
           (s : MajikSubscription) : outcome :=
  if Qle_bool amount0 0 then Throw "Rate Amount must be positive" s
  else
    Return (markFinanceDirty (updateTimestamp now
      (set_rate s
         {| amount := fromMajor amount0 (Money.currency (amount (rate s)));
            rate_unit := rate_unit (rate s);
            billingCycle := billingCycle (rate s) |}))).

End RateAmount.

Definition setCategory (now : Clock) (category0 : string)
           (s : MajikSubscription) : outcome :=
  let m := metadata s in
  Return (updateTimestamp now
    {| id := id s; slug := slug s; name := name s;
       category := category0; status := status s; type := type s;
       timestamp := timestamp s; last_update := last_update s;
       metadata :=
         {| sku := sku m; description := description m; photos := photos m;
            m_type := m_type m; m_category := category0; m_rate := m_rate m;
            cos := cos m; capacityPlan := capacityPlan m;
            finance := finance m |};
       settings := settings s; financeDirty := financeDirty s |}).

Definition setDescription (now : Clock) (html0 text0 : string)
           (s : MajikSubscription) : outcome :=
  if is_blank html0 then Throw "HTML must be a valid non-empty string." s
  else if is_blank text0 then Throw "Text must be a valid non-empty string." s
  else
    Return (updateTimestamp now
      (set_description s
         {| text := text0; html := Some html0;
            seo := seo (description (metadata s)) |})).

Definition setDescriptionText (now : Clock) (text0 : string)
           (s : MajikSubscription) : outcome :=
  if is_blank text0
  then Throw "Description Text must be a valid non-empty string." s
  else
    Return (updateTimestamp now
      (set_description s
         {| text := text0; html := html (description (metadata s));
            seo := seo (description (metadata s)) |})).

Definition setDescriptionHTML (now : Clock) (html0 : string)
           (s : MajikSubscription) : outcome :=
  if is_blank html0
  then Throw "Description HTML must be a valid non-empty string." s
  else
    Return (updateTimestamp now
      (set_description s
         {| text := text (description (metadata s)); html := Some html0;
            seo := seo (description (metadata s)) |})).

Definition setDescriptionSEO (now : Clock) (text0 : string)
           (s : MajikSubscription) : outcome :=
  let d := description (metadata s) in
  if is_blank text0 then
    Return (updateTimestamp now
      (set_description s {| text := text d; html := html d; seo := None |}))
  else
    Return (updateTimestamp now
      (set_description s
         {| text := text d; html := html d; seo := Some text0 |})).

(** [Object.values(SubscriptionType).includes(type)] holds of every value
    of the enumeration. *)
Definition setType (now : Clock) (type0 : SubscriptionType)
           (s : MajikSubscription) : outcome :=
  let m := metadata s in
  Return (updateTimestamp now
    {| id := id s; slug := slug s; name := name s;
       category := category s; status := status s; type := type0;
       timestamp := timestamp s; last_update := last_update s;
       metadata :=
         {| sku := sku m; description := description m; photos := photos m;
            m_type := type0; m_category := m_category m; m_rate := m_rate m;
            cos := cos m; capacityPlan := capacityPlan m;
            finance := finance m |};
       settings := settings s; financeDirty := financeDirty s |}).

(* ================================================================== *)
(** ** MajikSubscription: COS management *)
(* ================================================================== *)

Definition addCOS (now : Clock) (genUID : string) (name0 : string)
           (unitCost0 : Money.t) (quantity0 : option Z) (unit0 : option string)
           (s : MajikSubscription) : outcome :=
  let quantity1 := match quantity0 with Some q => q | None => 1 end in
  if is_blank name0 then Throw "COS name cannot be empty" s
  else if quantity1 <=? 0
  then Throw "COS quantity must be greater than zero" s
  else
    match assertCurrency s unitCost0 with
    | Err m => Throw m s
    | Val _ =>
        let newItem :=
          {| cos_id := autogenerateID genUID "mjksubcost";
             item := name0;
             quantity := quantity1;
             unitCost := unitCost0;
             cos_unit := unit0;
             subtotal := Money.multiply unitCost0 quantity1 |} in
        Return (markFinanceDirty (updateTimestamp now
                  (set_cos s (cos (metadata s) ++ [newItem])%list)))
    end.

Definition pushCOS (now : Clock) (item0 : COSItem Money.t)
           (s : MajikSubscription) : outcome :=
  if String.eqb (cos_id item0) "" then Throw "COS item must have an id" s
  else if is_blank (item item0) then Throw "COS item must have a name" s
  else if quantity item0 <=? 0
  then Throw "COS quantity must be greater than zero" s
  else
    match assertCurrency s (unitCost item0) with
    | Err m => Throw m s
    | Val _ =>
        let item1 :=
          {| cos_id := cos_id item0; item := item item0;
             unitCost := unitCost item0; quantity := quantity item0;
             subtotal := Money.multiply (unitCost item0) (quantity item0);
             cos_unit := cos_unit item0 |} in
        Return (markFinanceDirty (updateTimestamp now
                  (set_cos s (cos (metadata s) ++ [item1])%list)))
    end.

(** Index of the first element that satisfies [p] ([findIndex]). *)
Fixpoint findIndex {A : Type} (p : A -> bool) (l : list A) : option nat :=
  match l with
  | [] => None
  | x :: l' => if p x then Some O else option_map S (findIndex p l')
  end.

(** Assignment to element [i] of an array that has it. *)
Fixpoint store {A : Type} (i : nat) (x : A) (l : list A) : list A :=
  match l, i with
  | [], _ => []
  | _ :: l', O => x :: l'
  | y :: l', S i' => y :: store i' x l'
  end.

(** [splice(i, 1)] *)
Fixpoint remove_at {A : Type} (i : nat) (l : list A) : list A :=
  match l, i with
  | [], _ => []
  | _ :: l', O => l'
  | y :: l', S i' => y :: remove_at i' l'
  end.

(** The [updates] argument of [updateCOS]. *)
Record COSUpdates : Type := {
  u_quantity : option Z;
  u_unitCost : option Money.t;
  u_unit : option string;
  u_item : option string
}.

(** [updateCOS]. [item] is a reference to an element of the array, so each
    assignment to one of its fields is a write to the subscription at once:
    [put] is that write. *)
Definition updateCOS (now : Clock) (id0 : string) (updates : COSUpdates)
           (s : MajikSubscription) : outcome :=
  match findIndex (fun c => String.eqb (cos_id c) id0) (cos (metadata s)) with
  | None => Throw ("COS item " ++ id0 ++ " not found") s
  | Some i =>
      let put (s0 : MajikSubscription) (it : COSItem Money.t) :=
        set_cos s0 (store i it (cos (metadata s0))) in
      let item0 :=
        nth i (cos (metadata s))
            {| cos_id := id0; item := ""; unitCost := DEFAULT_ZERO s;
               quantity := 0; subtotal := DEFAULT_ZERO s; cos_unit := None |} in
      let after_quantity : res (COSItem Money.t) :=
        match u_quantity updates with
        | Some q =>
            if q <=? 0 then Err "Quantity must be positive"
            else Val {| cos_id := cos_id item0; item := item item0;
                        unitCost := unitCost item0; quantity := q;
                        subtotal := subtotal item0; cos_unit := cos_unit item0 |}
        | None => Val item0
        end in
      match after_quantity with
      | Err m => Throw m s
      | Val item1 =>
          let s1 := put s item1 in
          let after_unitCost : res (COSItem Money.t) :=
            match u_unitCost updates with
            | Some uc =>
                _ <- assertCurrency s1 uc ;;
                Val {| cos_id := cos_id item1; item := item item1;
                       unitCost := uc; quantity := quantity item1;
                       subtotal := subtotal item1; cos_unit := cos_unit item1 |}
            | None => Val item1
            end in
          match after_unitCost with
          | Err m => Throw m s1
          | Val item2 =>
              let name2 :=
                match u_item updates with
                | Some n => if is_blank n then item item2 else n
                | None => item item2
                end in
              let item3 :=
                {| cos_id := cos_id item2; item := name2;
                   unitCost := unitCost item2; quantity := quantity item2;
                   subtotal :=
                     Money.multiply (unitCost item2) (quantity item2);
                   cos_unit := match u_unit updates with
                               | Some u => Some u
                               | None => cos_unit item2
                               end |} in
              Return (markFinanceDirty (updateTimestamp now (put s1 item3)))
          end
      end
  end.

(** The checks [setCOS] makes on each element, in order. An amount is an
    object and a quantity a number, so of the five presence tests the two
    on strings remain. *)
Fixpoint setCOS_checks (s : MajikSubscription) (items : list (COSItem Money.t))
  : res unit :=
  match items with
  | [] => Val tt
  | it :: rest =>
      if String.eqb (cos_id it) "" || String.eqb (item it) ""
      then Err "Each COSItem must have id, item, unitCost, quantity, and subtotal"
      else
        _ <- assertCurrency s (unitCost it) ;;
        setCOS_checks s rest
  end.

Definition setCOS (now : Clock) (items : list (COSItem Money.t))
           (s : MajikSubscription) : outcome :=
  match setCOS_checks s items with
  | Err m => Throw m s
  | Val _ => Return (markFinanceDirty (updateTimestamp now (set_cos s items)))
  end.

Definition removeCOS (now : Clock) (id0 : string) (s : MajikSubscription)
  : outcome :=
  match findIndex (fun c => String.eqb (cos_id c) id0) (cos (metadata s)) with
  | None => Throw ("COS item with id " ++ id0 ++ " not found") s
  | Some index =>
      Return (markFinanceDirty (updateTimestamp now
                (set_cos s (remove_at index (cos (metadata s))))))
  end.

Definition clearCostBreakdown (now : Clock) (s : MajikSubscription) : outcome :=
  Return (markFinanceDirty (updateTimestamp now (set_cos s []))).

(* ================================================================== *)
(** ** MajikSubscription: capacity management *)
(* ================================================================== *)

Definition hasCapacity (s : MajikSubscription) : bool :=
  match capacityPlan (metadata s) with
  | Some (_ :: _) => true
  | _ => false
  end.

(** [this.metadata.capacityPlan ?? []] *)
Definition planOrEmpty (s : MajikSubscription) : list MonthlyCapacity :=
  match capacityPlan (metadata s) with
  | Some p => p
  | None => []
  end.

(** [c.capacity + (c.adjustment ?? 0)] *)
Definition effectiveUnits (c : MonthlyCapacity) : Z :=
  capacity c + match adjustment c with Some a => a | None => 0 end.

Definition totalCapacity (s : MajikSubscription) : Z :=
  fold_left
    (fun sum c => sum + capacity c + match adjustment c with
                                     | Some a => a
                                     | None => 0
                                     end)
    (planOrEmpty s) 0.

(** [Number.isInteger] on a finite number. *)
Definition isInteger (q : Q) : bool := Pos.eqb (Qden (Qred q)) 1.

(** [Math.round]: the nearest integer, a half going up. *)
Definition Math_round (q : Q) : Z := Qfloor (q + (1 # 2)).

Definition setCapacity_check (plan : list MonthlyCapacity) : res unit :=
  fold_left
    (fun acc c =>
       _ <- acc ;;
       if isValidYYYYMM (month c) then Val tt
       else Err ("Invalid month: " ++ month c))
    plan (Val tt).

(** [typeof s.capacity !== "number"] is false of every entry of the type.
    The code copies the array and not its entries: the plan holds the entry
    objects of the caller, here their values. *)
Definition setCapacity (now : Clock) (plan : list MonthlyCapacity)
           (s : MajikSubscription) : outcome :=
  match setCapacity_check plan with
  | Err m => Throw m s
  | Val _ =>
      Return (markFinanceDirty (updateTimestamp now (set_plan s (Some plan))))
  end.

Section Capacity.

Variable env : Env.

(** The body of the loop of [generateCapacityPlan], from index [i] on, for
    [fuel] more rounds. [start] holds what [start.getFullYear()] and
    [start.getMonth()] return. [currentUnits] is a rational and
    [currentUnits * (1 + growthRate)] the exact product; the code rounds
    each product to a double. *)
Fixpoint generate_from (fuel : nat) (start : JS.Date) (growthRate : Q)
         (i : Z) (currentUnits : Q) : list MonthlyCapacity :=
  match fuel with
  | O => []
  | S fuel' =>
      let date :=
        JS.DateLocal (JS.getYear start) (JS.num_add (JS.getMonth start) i) in
      let yyyy := JS.getYear date in
      let mm := JS.padStart2 (JS.numStr (JS.num_add (JS.getMonth date) 1)) in
      let month0 := (JS.numStr yyyy ++ "-" ++ mm)%string in
      {| month := month0; capacity := Math_round currentUnits;
         adjustment := None |}
      :: generate_from fuel' start growthRate (i + 1)
           (if Qle_bool growthRate 0 then currentUnits
            else (currentUnits * (1 + growthRate))%Q)
  end.

(** [amount] and [growthRate] are finite here, so [Number.isFinite] holds. *)
Definition generateCapacityPlan (now : Clock) (months amount0 : Q)
           (growthRate0 : option Q) (startDate : option StartDateInput)
           (s : MajikSubscription) : outcome :=
  let growthRate := match growthRate0 with Some g => g | None => 0%Q end in
  if negb (isInteger months) || Qle_bool months 0
  then Throw "Months must be a positive integer" s
  else if negb (Qle_bool 0 amount0)
  then Throw "Amount must be a non-negative number" s
  else if negb (Qle_bool 0 growthRate)
  then Throw "Growth rate cannot be negative" s
  else
    match normalizeStartDate env now startDate with
    | Err m => Throw m s
    | Val start =>
        let supplyPlan :=
          generate_from (Z.to_nat (Qfloor months))
            (JS.localOfUTCMonthStart (localBehindUTC env) start)
            growthRate 0 amount0 in
        setCapacity now supplyPlan s
    end.

Definition normalizeCapacityUnits (now : Clock) (amount0 : Z)
           (s : MajikSubscription) : outcome :=
  if amount0 <? 0 then Throw "Amount must be a non-negative number" s
  else
    match capacityPlan (metadata s) with
    | None | Some [] => Throw "Supply plan is empty" s
    | Some [_] => Return s
    | Some supply =>
        Return (markFinanceDirty (updateTimestamp now
          (set_plan s
             (Some (map (fun c => {| month := month c; capacity := amount0;
                                     adjustment := adjustment c |})
                        supply)))))
    end.

(** The loop of the [DEFAULT] mode from index [i] on. [oldPlan[k]] is read
    with [first] as the value that is never needed, the array being
    non-empty and [k] within it. *)
Fixpoint resize_default (now : Clock) (start : string)
         (oldPlan : list MonthlyCapacity) (first : MonthlyCapacity)
         (fuel : nat) (i : Z) : res (list MonthlyCapacity) :=
  match fuel with
  | O => Val []
  | S fuel' =>
      let oldLength := Z.of_nat (List.length oldPlan) in
      let source :=
        if i <? oldLength then nth (Z.to_nat i) oldPlan first
        else nth (Z.to_nat (oldLength - 1)) oldPlan first in
      m <- offsetMonthsToYYYYMM env now (Some (SDString start)) i ;;
      rest <- resize_default now start oldPlan first fuel' (i + 1) ;;
      Val ({| month := m; capacity := capacity source;
              adjustment := adjustment source |} :: rest)
  end.

(** The loop of the [DISTRIBUTE] mode from index [i] on. *)
Fixpoint resize_distribute (now : Clock) (start : string) (base : Z)
         (fuel : nat) (i : Z) (remainder : Z) : res (list MonthlyCapacity) :=
  match fuel with
  | O => Val []
  | S fuel' =>
      let extra := if 0 <? remainder then 1 else 0 in
      m <- offsetMonthsToYYYYMM env now (Some (SDString start)) i ;;
      rest <- resize_distribute now start base fuel' (i + 1) (remainder - 1) ;;
      Val ({| month := m; capacity := base + extra; adjustment := None |}
           :: rest)
  end.

(** Rounds of [for (let i = 0; i < newLength; i++)]: none when [newLength]
    is [NaN] or not positive. *)
Definition rounds (newLength : JS.num) : nat :=
  match newLength with
  | Some n => Z.to_nat n
  | None => O
  end.

(** [Math.floor(total / newLength)] and [total % newLength]. They are read
    only inside the loop, hence only when [newLength] is at least 1, where
    they are the floored quotient and the remainder with the sign of
    [total]. *)
Definition distribute_base (total : Z) (newLength : JS.num) : Z :=
  match newLength with
  | Some n => total / n
  | None => 0
  end.

Definition distribute_remainder (total : Z) (newLength : JS.num) : Z :=
  match newLength with
  | Some n => Z.rem total n
  | None => 0
  end.

Definition recomputeCapacityPeriod (now : Clock) (start end_ : string)
           (mode : option CapacityPeriodResizeMode)
           (s : MajikSubscription) : outcome :=
  let mode1 := match mode with Some m => m | None => DEFAULT end in
  if negb (isValidYYYYMM start) || negb (isValidYYYYMM end_)
  then Throw "Invalid YYYYMM period" s
  else if negb (hasCapacity s)
  then Throw "No existing capacity plan to recompute" s
  else if JS.str_gt start end_
  then Throw "Start month must be <= end month" s
  else
    let newLength := monthsInPeriod start end_ in
    let oldPlan := planOrEmpty s in
    let newPlan : res (list MonthlyCapacity) :=
      match mode1 with
      | DEFAULT =>
          match oldPlan with
          | first :: _ =>
              resize_default now start oldPlan first (rounds newLength) 0
          | [] => Val []
          end
      | DISTRIBUTE =>
          let total := totalCapacity s in
          let base := distribute_base total newLength in
          let remainder := distribute_remainder total newLength in
          resize_distribute now start base (rounds newLength) 0 remainder
      end in
    match newPlan with
    | Err m => Throw m s
    | Val p =>
        Return (markFinanceDirty (updateTimestamp now (set_plan s (Some p))))
    end.

End Capacity.

Definition addCapacity (now : Clock) (month0 : string) (units : Z)
           (adjustment0 : option Z) (s : MajikSubscription) : outcome :=
  if negb (isValidYYYYMM month0) then Throw "Invalid month" s
  else
    (* this.metadata.capacityPlan ??= [] *)
    let s1 := set_plan s (Some (planOrEmpty s)) in
    if existsb (fun c => String.eqb (month c) month0) (planOrEmpty s1)
    then Throw ("Month " ++ month0
                ++ " already exists. Use updateCapacityUnits or updateCapacityAdjustment")
               s1
    else
      Return (markFinanceDirty (updateTimestamp now
        (set_plan s1
           (Some (planOrEmpty s1
                  ++ [{| month := month0; capacity := units;
                         adjustment := adjustment0 |}])%list)))).

(** [find] returns the entry object of the first slot with the month and
    the code writes into it; over distinct entry objects that is a write to
    that slot. The same holds of [updateCapacityAdjustment]. *)
Definition updateCapacityUnits (now : Clock) (month0 : string) (units : Z)
           (s : MajikSubscription) : outcome :=
  if negb (isValidYYYYMM month0) then Throw "Invalid month" s
  else
    match findIndex (fun c => String.eqb (month c) month0) (planOrEmpty s) with
    | None => Throw ("Month " ++ month0 ++ " not found") s
    | Some i =>
        let plan := planOrEmpty s in
        let old := nth i plan {| month := month0; capacity := 0;
                                 adjustment := None |} in
        Return (markFinanceDirty (updateTimestamp now
          (set_plan s
             (Some (store i {| month := month old; capacity := units;
                               adjustment := adjustment old |} plan)))))
    end.

Definition updateCapacityAdjustment (now : Clock) (month0 : string)
           (adjustment0 : option Z) (s : MajikSubscription) : outcome :=
  if negb (isValidYYYYMM month0) then Throw "Invalid month" s
  else
    match findIndex (fun c => String.eqb (month c) month0) (planOrEmpty s) with
    | None => Throw ("Month " ++ month0 ++ " not found") s
    | Some i =>
        let plan := planOrEmpty s in
        let old := nth i plan {| month := month0; capacity := 0;
                                 adjustment := None |} in
        Return (markFinanceDirty (updateTimestamp now
          (set_plan s
             (Some (store i {| month := month old; capacity := capacity old;
                               adjustment := adjustment0 |} plan)))))
    end.

Definition removeCapacity (now : Clock) (month0 : string)
           (s : MajikSubscription) : outcome :=
  if negb (isValidYYYYMM month0) then Throw "Invalid month" s
  else
    match findIndex (fun c => String.eqb (month c) month0) (planOrEmpty s) with
    | None => Throw ("Month " ++ month0 ++ " not found") s
    | Some index =>
        Return (markFinanceDirty (updateTimestamp now
          (set_plan s (Some (remove_at index (planOrEmpty s))))))
    end.

Definition clearCapacity (now : Clock) (s : MajikSubscription) : outcome :=
  Return (markFinanceDirty (updateTimestamp now (set_plan s (Some [])))).

(* ================================================================== *)
(** ** MajikSubscription: finance helpers *)
(* ================================================================== *)

(** [get unitCost]: the COS subtotals added up from zero. *)
Definition unitCost_total (s : MajikSubscription) : res Money.t :=
  fold_left (fun acc c => a <- acc ;; Money.add a (subtotal c))
            (cos (metadata s)) (Val (DEFAULT_ZERO s)).

Definition computeGrossRevenue (s : MajikSubscription) : res Money.t :=
  fold_left
    (fun acc c =>
       a <- acc ;;
       Money.add a (Money.multiply (amount (rate s))
                      (capacity c + match adjustment c with
                                    | Some d => d
                                    | None => 0
                                    end)))
    (planOrEmpty s) (Val (DEFAULT_ZERO s)).

Definition computeGrossCOS (s : MajikSubscription) : res Money.t :=
  let plan := planOrEmpty s in
  unitCOS <- unitCost_total s ;;
  fold_left
    (fun acc c =>
       a <- acc ;;
       Money.add a (Money.multiply unitCOS
                      (capacity c + match adjustment c with
                                    | Some d => d
                                    | None => 0
                                    end)))
    plan (Val (DEFAULT_ZERO s)).

Definition computeGrossProfit (s : MajikSubscription) : res Money.t :=
  r <- computeGrossRevenue s ;;
  c <- computeGrossCOS s ;;
  Money.subtract r c.

(** The snapshot [recomputeFinance] stores. *)
Definition financeSnapshot (s : MajikSubscription)
  : res (SubscriptionFinance Money.t) :=
  grossRevenue <- computeGrossRevenue s ;;
  grossCOS <- computeGrossCOS s ;;
  grossProfit <- computeGrossProfit s ;;
  let grossIncome := grossProfit in
  revenueMargin <- (if Money.isZero grossRevenue then Val 0%Q
                    else Money.ratio grossProfit grossRevenue) ;;
  cosMargin <- (if Money.isZero grossRevenue then Val 0%Q
                else Money.ratio grossCOS grossRevenue) ;;
  Val {| revenue :=
           {| gross := {| value := grossRevenue; marginRatio := 1%Q |};
              net := {| value := grossRevenue; marginRatio := 1%Q |} |};
         fcos :=
           {| gross := {| value := grossCOS; marginRatio := cosMargin |};
              net := {| value := grossCOS; marginRatio := cosMargin |} |};
         profit :=
           {| gross := {| value := grossProfit; marginRatio := revenueMargin |};
              net := {| value := grossProfit; marginRatio := revenueMargin |} |};
         income :=
           {| gross := {| value := grossIncome; marginRatio := revenueMargin |};
              net := {| value := grossIncome; marginRatio := revenueMargin |} |}
      |}.

(** [recomputeFinance]: nothing is written before the last computation has
    returned, so an error leaves the object as it was. *)
Definition recomputeFinance (s : MajikSubscription) : res MajikSubscription :=
  if negb (financeDirty s) then Val s
  else
    f <- financeSnapshot s ;;
    Val (set_dirty (set_finance s f) false).

(** The cached getters return the amount and leave the object recomputed. *)
Definition cached (pick : SubscriptionFinance Money.t -> Money.t)
           (s : MajikSubscription) : res (Money.t * MajikSubscription) :=
  s' <- recomputeFinance s ;;
  Val (pick (finance (metadata s')), s').

Definition grossRevenue := cached (fun f => value (gross (revenue f))).
Definition grossCost := cached (fun f => value (gross (fcos f))).
Definition grossProfit := cached (fun f => value (gross (profit f))).
Definition netRevenue := cached (fun f => value (net (revenue f))).
Definition netProfit := cached (fun f => value (net (profit f))).

(** The five cached getters. *)
Definition cachedGetters
  : list (MajikSubscription -> res (Money.t * MajikSubscription)) :=
  [grossRevenue; grossCost; grossProfit; netRevenue; netProfit].

(* ================================================================== *)
(** ** MajikSubscription: monthly finance *)
(* ================================================================== *)

(** [this.metadata.capacityPlan?.find((s) => s.month === month)] *)
Definition findMonth (s : MajikSubscription) (month0 : string)
  : option MonthlyCapacity :=
  find (fun c => String.eqb (month c) month0) (planOrEmpty s).

Definition getRevenue (s : MajikSubscription) (month0 : string) : res Money.t :=
  if negb (isValidYYYYMM month0) then Err "Invalid month"
  else
    match findMonth s month0 with
    | None => Val (DEFAULT_ZERO s)
    | Some plan => Val (Money.multiply (amount (rate s)) (effectiveUnits plan))
    end.

Definition getCOS (s : MajikSubscription) (month0 : string) : res Money.t :=
  if negb (isValidYYYYMM month0) then Err "Invalid month"
  else
    match findMonth s month0 with
    | None => Val (DEFAULT_ZERO s)
    | Some plan =>
        perUnitCOS <- unitCost_total s ;;
        Val (Money.multiply perUnitCOS (effectiveUnits plan))
    end.

Definition getCost (s : MajikSubscription) (month0 : string) : res Money.t :=
  getCOS s month0.

Definition getProfit (s : MajikSubscription) (month0 : string) : res Money.t :=
  if negb (isValidYYYYMM month0) then Err "Invalid month"
  else
    r <- getRevenue s month0 ;;
    c <- getCOS s month0 ;;
    Money.subtract r c.

(** The quotient of [getMargin] is the exact one. *)
Definition getMargin (s : MajikSubscription) (month0 : string) : res Q :=
  if negb (isValidYYYYMM month0) then Err "Invalid month"
  else
    revenue0 <- getRevenue s month0 ;;
    if Money.isZero revenue0 then Val 0%Q
    else
      p <- getProfit s month0 ;;
      Val (inject_Z (Money.minor p) / inject_Z (Money.minor revenue0))%Q.

Definition subtract_opt (a : Money.t) (b : option Money.t) : res Money.t :=
  match b with
  | Some b' => Money.subtract a b'
  | None => Val a
  end.

Definition getNetRevenue (s : MajikSubscription) (month0 : string)
           (discounts returns allowances : option Money.t) : res Money.t :=
  if negb (isValidYYYYMM month0) then Err "Invalid month"
  else
    n0 <- getRevenue s month0 ;;
    n1 <- subtract_opt n0 discounts ;;
    n2 <- subtract_opt n1 returns ;;
    subtract_opt n2 allowances.

Definition getNetProfit (s : MajikSubscription) (month0 : string)
           (operatingExpenses taxes discounts returns allowances
            : option Money.t) : res Money.t :=
  if negb (isValidYYYYMM month0) then Err "Invalid month"
  else
    n0 <- getNetRevenue s month0 discounts returns allowances ;;
    n1 <- subtract_opt n0 operatingExpenses ;;
    subtract_opt n1 taxes.

Definition getNetIncome (s : MajikSubscription) (month0 : string)
           (operatingExpenses taxes discounts returns allowances
            : option Money.t) : res Money.t :=
  if negb (isValidYYYYMM month0) then Err "Invalid month"
  else getNetProfit s month0 operatingExpenses taxes discounts returns
                    allowances.

(* ================================================================== *)
(** ** MajikSubscription: subscription-specific methods *)
(* ================================================================== *)

(** [a.month.localeCompare(b.month) <= 0], read as the code-unit order
    (the two agree on digits and hyphens). *)
Definition month_leb (a b : MonthlyCapacity) : bool :=
  negb (String.ltb (month b) (month a)).

Fixpoint insert_by_month (x : MonthlyCapacity) (l : list MonthlyCapacity)
  : list MonthlyCapacity :=
  match l with
  | [] => [x]
  | y :: l' => if month_leb x y then x :: l else y :: insert_by_month x l'
  end.

(** [[...plan].sort((a, b) => a.month.localeCompare(b.month))]: the sort of
    an array is stable, and so is this one. *)
Definition sortByMonth (l : list MonthlyCapacity) : list MonthlyCapacity :=
  fold_right insert_by_month [] l.

(** The loop of [applyTrial] over the first [n] entries. The code writes
    the new adjustment into the entry object of each slot; over distinct
    entry objects that is this map. *)
Fixpoint trial_first (n : nat) (l : list MonthlyCapacity)
  : list MonthlyCapacity :=
  match n, l with
  | S n', c :: l' =>
      {| month := month c; capacity := capacity c;
         adjustment := Some (match adjustment c with
                             | Some a => a
                             | None => 0
                             end - capacity c) |}
      :: trial_first n' l'
  | _, _ => l
  end.

Definition applyTrial (now : Clock) (months : Q) (s : MajikSubscription)
  : outcome :=
  if negb (isInteger months) || Qle_bool months 0
  then Throw "Trial months must be a positive integer" s
  else
    match capacityPlan (metadata s) with
    | None => Return s
    | Some plan =>
        let sortedPlan := sortByMonth plan in
        Return (markFinanceDirty (updateTimestamp now
          (set_plan s
             (Some (trial_first (Z.to_nat (Qfloor months)) sortedPlan)))))
    end.

(* ================================================================== *)
(** ** MajikSubscription: JSON *)
(* ================================================================== *)

(** The adapter of the money library walks a structure and rewrites every
    amount in it. On the records of [types.ts] that is a map, and for the
    way back a traversal that throws at the first amount it cannot read. *)
Section Adapter.

Variables M N : Type.
Variable f : M -> res N.

Definition traverse_rate (r : SubscriptionRate M) : res (SubscriptionRate N) :=
  a <- f (amount r) ;;
  Val {| amount := a; rate_unit := rate_unit r;
         billingCycle := billingCycle r |}.

Definition traverse_item (c : COSItem M) : res (COSItem N) :=
  u <- f (unitCost c) ;;
  t <- f (subtotal c) ;;
  Val {| cos_id := cos_id c; item := item c; unitCost := u;
         quantity := quantity c; subtotal := t; cos_unit := cos_unit c |}.

Fixpoint traverse_items (l : list (COSItem M)) : res (list (COSItem N)) :=
  match l with
  | [] => Val []
  | c :: l' =>
      c' <- traverse_item c ;;
      r <- traverse_items l' ;;
      Val (c' :: r)
  end.

Definition traverse_ratio (v : ValueRatio M) : res (ValueRatio N) :=
  a <- f (value v) ;;
  Val {| value := a; marginRatio := marginRatio v |}.

Definition traverse_pair (g : GrossNet M) : res (GrossNet N) :=
  a <- traverse_ratio (gross g) ;;
  b <- traverse_ratio (net g) ;;
  Val {| gross := a; net := b |}.

Definition traverse_finance (x : SubscriptionFinance M)
  : res (SubscriptionFinance N) :=
  p <- traverse_pair (profit x) ;;
  r <- traverse_pair (revenue x) ;;
  i <- traverse_pair (income x) ;;
  c <- traverse_pair (fcos x) ;;
  Val {| profit := p; revenue := r; income := i; fcos := c |}.

Definition traverse_metadata (m : SubscriptionMetadata M)
  : res (SubscriptionMetadata N) :=
  r <- traverse_rate (m_rate m) ;;
  c <- traverse_items (cos m) ;;
  x <- traverse_finance (finance m) ;;
  Val {| sku := sku m; description := description m; photos := photos m;
         m_type := m_type m; m_category := m_category m; m_rate := r;
         cos := c; capacityPlan := capacityPlan m; finance := x |}.

End Adapter.

Arguments traverse_rate {M N}.
Arguments traverse_item {M N}.
Arguments traverse_items {M N}.
Arguments traverse_ratio {M N}.
Arguments traverse_pair {M N}.
Arguments traverse_finance {M N}.
Arguments traverse_metadata {M N}.

(** The object [toJSON] builds and [parseFromJSON] reads. A property that
    [parseFromJSON] tests for presence is optional here. *)
Record SubscriptionJSON : Type := {
  j__type : string;
  j__object : string;
  j_id : option string;
  j_slug : option string;
  j_name : string;
  j_category : string;
  j_rate : SubscriptionRate Money.json;
  j_status : SubscriptionStatus;
  j_type : SubscriptionType;
  j_timestamp : option string;
  j_last_update : option string;
  j_metadata : option (SubscriptionMetadata Money.json);
  j_settings : option SubscriptionSettings
}.

(** [serializeMoney] cannot fail; it is the traversal with a total step. *)
Definition serialize_rate (r : SubscriptionRate Money.t)
  : SubscriptionRate Money.json :=
  {| amount := Money.serialize (amount r); rate_unit := rate_unit r;
     billingCycle := billingCycle r |}.

Definition serialize_item (c : COSItem Money.t) : COSItem Money.json :=
  {| cos_id := cos_id c; item := item c;
     unitCost := Money.serialize (unitCost c); quantity := quantity c;
     subtotal := Money.serialize (subtotal c); cos_unit := cos_unit c |}.

Definition serialize_ratio (v : ValueRatio Money.t) : ValueRatio Money.json :=
  {| value := Money.serialize (value v); marginRatio := marginRatio v |}.

Definition serialize_pair (g : GrossNet Money.t) : GrossNet Money.json :=
  {| gross := serialize_ratio (gross g); net := serialize_ratio (net g) |}.

Definition serialize_finance (x : SubscriptionFinance Money.t)
  : SubscriptionFinance Money.json :=
  {| profit := serialize_pair (profit x); revenue := serialize_pair (revenue x);
     income := serialize_pair (income x); fcos := serialize_pair (fcos x) |}.

Definition serialize_metadata (m : SubscriptionMetadata Money.t)
  : SubscriptionMetadata Money.json :=
  {| sku := sku m; description := description m; photos := photos m;
     m_type := m_type m; m_category := m_category m;
     m_rate := serialize_rate (m_rate m);
     cos := map serialize_item (cos m);
     capacityPlan := capacityPlan m;
     finance := serialize_finance (finance m) |}.

Definition toJSON (s : MajikSubscription) : SubscriptionJSON :=
  {| j__type := "MajikSubscription";
     j__object := "json";
     j_id := Some (id s);
     j_slug := Some (slug s);
     j_name := name s;
     j_category := category s;
     j_rate := serialize_rate (rate s);
     j_status := status s;
     j_type := type s;
     j_timestamp := Some (timestamp s);
     j_last_update := Some (last_update s);
     j_metadata := Some (serialize_metadata (metadata s));
     j_settings := Some (settings s) |}.

(** A property is falsy when it is missing or the empty string. *)
Definition truthy (o : option string) : option string :=
  match o with
  | Some EmptyString | None => None
  | Some v => Some v
  end.

(** [parseFromJSON] of an object (for a string, of what [JSON.parse] makes
    of it). [deserializeMoney] runs over the whole input first. *)
Definition parseFromJSON (now : Clock) (uid_id uid_slug : string)
           (json : SubscriptionJSON) : res MajikSubscription :=
  _ <- traverse_rate Money.deserialize (j_rate json) ;;
  parsedMetadata <-
    match j_metadata json with
    | Some m => m' <- traverse_metadata Money.deserialize m ;; Val (Some m')
    | None => Val None
    end ;;
  match truthy (j_id json) with
  | None => Err "Missing required property: 'id'"
  | Some id0 =>
      match truthy (j_timestamp json) with
      | None => Err "Missing required property: 'timestamp'"
      | Some timestamp0 =>
          match parsedMetadata with
          | None => Err "Missing required property: 'metadata'"
          | Some metadata0 =>
              match j_settings json with
              | None => Err "Missing required property: 'settings'"
              | Some settings0 =>
                  Val (new_MajikSubscription now uid_id uid_slug
                         (Some id0) (j_slug json) (j_name json) metadata0
                         (Some settings0) (Some timestamp0)
                         (j_last_update json))
              end
          end
      end
  end.

(* ================================================================== *)
(** ** The public interface as one step function *)
(* ================================================================== *)

(** A call of a public method that can change the object. [ReadFinance]
    stands for any of the cached getters ([grossRevenue], [grossCost],
    [grossProfit], [netRevenue], [netProfit]), which all run
    [recomputeFinance]. *)
Inductive Method : Type :=
| SetName (name0 : string)
| SetRate (rate0 : SubscriptionRate Money.t)
| SetRateUnit (unit0 : RateUnit)
| SetRateAmount (amount0 : Q)
| SetCategory (category0 : string)
| SetDescription (html0 text0 : string)
| SetDescriptionText (text0 : string)
| SetDescriptionHTML (html0 : string)
| SetDescriptionSEO (text0 : string)
| SetType (type0 : SubscriptionType)
| AddCOS (name0 : string) (unitCost0 : Money.t) (quantity0 : option Z)
         (unit0 : option string)
| PushCOS (item0 : COSItem Money.t)
| UpdateCOS (id0 : string) (updates : COSUpdates)
| SetCOS (items : list (COSItem Money.t))
| RemoveCOS (id0 : string)
| ClearCostBreakdown
| GenerateCapacityPlan (months amount0 : Q) (growthRate : option Q)
                       (startDate : option StartDateInput)
| NormalizeCapacityUnits (amount0 : Z)
| RecomputeCapacityPeriod (start end_ : string)
                          (mode : option CapacityPeriodResizeMode)
| SetCapacity (plan : list MonthlyCapacity)
| AddCapacity (month0 : string) (units : Z) (adjustment0 : option Z)
| UpdateCapacityUnits (month0 : string) (units : Z)
| UpdateCapacityAdjustment (month0 : string) (adjustment0 : option Z)
| RemoveCapacity (month0 : string)
| ClearCapacity
| ApplyTrial (months : Q)
| ReadFinance.

(** [genUID] is what the random generator returns if the method asks. *)
Definition exec (env : Env) (now : Clock) (genUID : string) (c : Method)
           (s : MajikSubscription) : outcome :=
  match c with
  | SetName n => setName now genUID n s
  | SetRate r => setRate now r s
  | SetRateUnit u => setRateUnit now u s
  | SetRateAmount a => setRateAmount env now a s
  | SetCategory c0 => setCategory now c0 s
  | SetDescription h t => setDescription now h t s
  | SetDescriptionText t => setDescriptionText now t s
  | SetDescriptionHTML h => setDescriptionHTML now h s
  | SetDescriptionSEO t => setDescriptionSEO now t s
  | SetType t => setType now t s
  | AddCOS n u q un => addCOS now genUID n u q un s
  | PushCOS it => pushCOS now it s
  | UpdateCOS i u => updateCOS now i u s
  | SetCOS l => setCOS now l s
  | RemoveCOS i => removeCOS now i s
  | ClearCostBreakdown => clearCostBreakdown now s
  | GenerateCapacityPlan m a g d => generateCapacityPlan env now m a g d s
  | NormalizeCapacityUnits a => normalizeCapacityUnits now a s
  | RecomputeCapacityPeriod a b m => recomputeCapacityPeriod env now a b m s
  | SetCapacity p => setCapacity now p s
  | AddCapacity m u a => addCapacity now m u a s
  | UpdateCapacityUnits m u => updateCapacityUnits now m u s
  | UpdateCapacityAdjustment m a => updateCapacityAdjustment now m a s
  | RemoveCapacity m => removeCapacity now m s
  | ClearCapacity => clearCapacity now s
  | ApplyTrial m => applyTrial now m s
  | ReadFinance =>
      match recomputeFinance s with
      | Val s' => Return s'
      | Err m => Throw m s
      end
  end.

(** The objects a program can hold: what the constructor returns (and so
    what [initialize] and [parseFromJSON] return), and what any sequence of
    method calls leaves of it, whether a call returns or throws. The steps
    are the calls on the object: a write a caller makes to a rate or an
    entry object it has kept is not one of them. *)
Inductive reachable (env : Env) : MajikSubscription -> Prop :=
| reach_new : forall now uid_id uid_slug id0 slug0 name0 metadata0 settings0
                     timestamp0 last_update0,
    reachable env
      (new_MajikSubscription now uid_id uid_slug id0 slug0 name0 metadata0
         settings0 timestamp0 last_update0)
| reach_call : forall now genUID c s,
    reachable env s ->
    reachable env (final (exec env now genUID c s)).

(* ================================================================== *)
(** ** MajikSubscription: read-only getters, forecasts and utilities *)
(* ================================================================== *)

Definition hasCostBreakdown (s : MajikSubscription) : bool :=
  match cos (metadata s) with
  | _ :: _ => true
  | [] => false
  end.

(** [get earliestCapacityMonth]; [None] is [null]. The fold starts from
    the month of the first entry and runs over the whole array. *)
Definition earliestCapacityMonth (s : MajikSubscription) : option string :=
  if negb (hasCapacity s) then None
  else
    match planOrEmpty s with
    | first :: _ =>
        Some (fold_left
                (fun earliest current =>
                   if String.ltb (month current) earliest then month current
                   else earliest)
                (planOrEmpty s) (month first))
    | [] => None
    end.

Definition latestCapacityMonth (s : MajikSubscription) : option string :=
  if negb (hasCapacity s) then None
  else
    match planOrEmpty s with
    | first :: _ =>
        Some (fold_left
                (fun latest current =>
                   if JS.str_gt (month current) latest then month current
                   else latest)
                (planOrEmpty s) (month first))
    | [] => None
    end.

(** [get maxSupplyMonth]: [reduce] without a seed starts from the first
    entry and runs over the others. *)
Definition maxSupplyMonth (s : MajikSubscription) : option MonthlyCapacity :=
  match planOrEmpty s with
  | [] => None
  | first :: rest =>
      Some (fold_left
              (fun max current =>
                 let maxUnits :=
                   capacity max + match adjustment max with
                                  | Some a => a
                                  | None => 0
                                  end in
                 let currUnits :=
                   capacity current + match adjustment current with
                                      | Some a => a
                                      | None => 0
                                      end in
                 if currUnits >? maxUnits then current else max)
              rest first)
  end.

Definition minSupplyMonth (s : MajikSubscription) : option MonthlyCapacity :=
  match planOrEmpty s with
  | [] => None
  | first :: rest =>
      Some (fold_left
              (fun min current =>
                 let minUnits :=
                   capacity min + match adjustment min with
                                  | Some a => a
                                  | None => 0
                                  end in
                 let currUnits :=
                   capacity current + match adjustment current with
                                      | Some a => a
                                      | None => 0
                                      end in
                 if currUnits <? minUnits then current else min)
              rest first)
  end.

(** [get unitProfit] *)
Definition unitProfit (s : MajikSubscription) : res Money.t :=
  c <- unitCost_total s ;;
  Money.subtract (amount (rate s)) c.

(** The loop of [forecastRevenue] from index [i] on, for [fuel] more
    rounds. [sortedPlan[i % sortedPlan.length]] is read with [first] as the
    value that is never needed, the array being non-empty. *)
Fixpoint forecast_from (s : MajikSubscription)
         (sortedPlan : list MonthlyCapacity) (first : MonthlyCapacity)
         (fuel : nat) (i : Z) (forecast : Money.t) : res Money.t :=
  match fuel with
  | O => Val forecast
  | S fuel' =>
      let monthEntry :=
        nth (Z.to_nat (Z.rem i (Z.of_nat (List.length sortedPlan))))
            sortedPlan first in
      let capacity0 :=
        capacity monthEntry + match adjustment monthEntry with
                              | Some a => a
                              | None => 0
                              end in
      forecast1 <-
        Money.add forecast (Money.multiply (amount (rate s)) capacity0) ;;
      forecast_from s sortedPlan first fuel' (i + 1) forecast1
  end.

Definition forecastRevenue (s : MajikSubscription) (nextNMonths : Q)
  : res Money.t :=
  if negb (isInteger nextNMonths) || Qle_bool nextNMonths 0
  then Err "nextNMonths must be a positive integer"
  else
    match capacityPlan (metadata s) with
    | None | Some [] => Val (DEFAULT_ZERO s)
    | Some (first :: rest) =>
        forecast_from s (sortByMonth (first :: rest)) first
          (Z.to_nat (Qfloor nextNMonths)) 0 (DEFAULT_ZERO s)
    end.

(** [getMRR]: a missing or empty [month] means the month of the clock. *)
Definition getMRR (now : Clock) (s : MajikSubscription)
           (month0 : option string) : res Money.t :=
  match truthy month0 with
  | Some m => getRevenue s m
  | None =>
      m <- dateToYYYYMM (Some (clockYear now, clockMonth now)) ;;
      getRevenue s m
  end.

Definition getARR (s : MajikSubscription) (months : option Q) : res Money.t :=
  forecastRevenue s (match months with Some m => m | None => 12%Q end).

(** The string value of a member of [RateUnit]. *)
Definition RateUnit_value (u : RateUnit) : string :=
  match u with
  | PER_SUBSCRIBER => "Per Subscriber"
  | PER_ACCOUNT => "Per Account"
  | PER_USER => "Per User"
  | PER_MONTH => "Per Month"
  end.

(** What [validateSelf] looks at: a string, or the number [toMajor()]
    returns, whatever its value. *)
Inductive FieldValue : Type :=
| FString (v : string)
| FNumber.

(** [field === null || field === undefined || field === ""] *)
Definition is_missing (field : FieldValue) : bool :=
  match field with
  | FString v => String.eqb v ""
  | FNumber => false
  end.

Fixpoint validate_fields (throwError : bool)
         (requiredFields : list (FieldValue * string)) : res bool :=
  match requiredFields with
  | [] => Val true
  | (field, name0) :: rest =>
      if is_missing field then
        if throwError
        then Err ("Validation failed: Missing or invalid property - " ++ name0)
        else Val false
      else validate_fields throwError rest
  end.

Definition validateSelf (throwError : option bool) (s : MajikSubscription)
  : res bool :=
  let requiredFields :=
    [ (FString (id s), "ID");
      (FString (timestamp s), "Timestamp");
      (FString (name s), "Subscription Name");
      (FString (text (description (metadata s))), "Description");
      (FNumber, "Rate Amount");
      (FString (RateUnit_value (rate_unit (rate s))), "Rate Unit") ] in
  validate_fields (match throwError with Some b => b | None => false end)
    requiredFields.

(** [finalize]: the object of [toJSON] with a new identifier; [genUID] is
    what the random generator returns. *)
Definition finalize (genUID : string) (s : MajikSubscription)
  : SubscriptionJSON :=
  let j := toJSON s in
  {| j__type := j__type j;
     j__object := j__object j;
     j_id := Some (autogenerateID genUID "mjksub");
     j_slug := j_slug j;
     j_name := j_name j;
     j_category := j_category j;
     j_rate := j_rate j;
     j_status := j_status j;
     j_type := j_type j;
     j_timestamp := j_timestamp j;
     j_last_update := j_last_update j;
     j_metadata := j_metadata j;
     j_settings := j_settings j |}.

(* ================================================================== *)
(** ** Notions the statements below use *)
(* ================================================================== *)

(** The key [formatYYYYMM] gives to month [m] (1..12) of year [y]. *)
Definition monthKey (y m : Z) : string := formatYYYYMM (Some y) (Some m).

(** The key of month number [t], counted from January of year 0. *)
Definition monthKeyAt (t : Z) : string := monthKey (t / 12) (t mod 12 + 1).

(** Month number of month [m] of year [y]. *)
Definition monthIndex (y m : Z) : Z := y * 12 + (m - 1).

(** The four-digit years whose key reads back as the same year. *)
Definition plainYear (y : Z) : Prop := 1000 <= y <= 9999.

Definition calendarMonth (m : Z) : Prop := 1 <= m <= 12.

Definition months_of (p : list MonthlyCapacity) : list string := map month p.

(** At most one entry per month. *)
Definition uniqueMonths (s : MajikSubscription) : Prop :=
  NoDup (months_of (planOrEmpty s)).

(** The cache is in step with the fields it is computed from. *)
Definition cacheCoherent (s : MajikSubscription) : Prop :=
  financeDirty s = false -> financeSnapshot s = Val (finance (metadata s)).

(** The first [n] integers from [i] on. *)
Fixpoint upfrom (i : Z) (n : nat) : list Z :=
  match n with
  | O => []
  | S n' => i :: upfrom (i + 1) n'
  end.

Fixpoint sumZ (l : list Z) : Z :=
  match l with
  | [] => 0
  | x :: l' => x + sumZ l'
  end.

(** Sum of amounts in the words of the spec: "accumulated ... starting
    from a zero-money seed". *)
Definition money_sum (seed : Money.t) (l : list Money.t) : res Money.t :=
  fold_left (fun acc x => a <- acc ;; Money.add a x) l (Val seed).

(** What a cached getter hands back, and the object it leaves. *)
Definition answer {A : Type} (r : res (A * MajikSubscription)) : res A :=
  match r with
  | Val (v, _) => Val v
  | Err m => Err m
  end.

Definition leftBy {A : Type} (r : res (A * MajikSubscription))
           (s : MajikSubscription) : MajikSubscription :=
  match r with
  | Val (_, s') => s'
  | Err _ => s
  end.

(** What the second branch of the pattern accepts: the input ends in
    10, 11 or 12. *)
Fixpoint ends_in_10_to_12 (s : string) : bool :=
  match s with
  | EmptyString => false
  | String a s' =>
      match s' with
      | String b EmptyString =>
          (Ascii.eqb a "1" && Regex.in_range "0" "2" b) || ends_in_10_to_12 s'
      | _ => ends_in_10_to_12 s'
      end
  end.

(** What the first branch accepts: the input starts with four digits, a
    hyphen, a zero and a digit from 1 to 9. *)
Definition starts_with_year_and_0x (s : string) : bool :=
  match s with
  | String a (String b (String c (String d (String e (String f
      (String g _)))))) =>
      Regex.in_range "0" "9" a && Regex.in_range "0" "9" b
      && Regex.in_range "0" "9" c && Regex.in_range "0" "9" d
      && Ascii.eqb e "-" && Ascii.eqb f "0" && Regex.in_range "1" "9" g
  | _ => false
  end.

(** The character of a decimal digit. *)
Definition dch (k : Z) : ascii := ascii_of_N (Z.to_N (48 + k)).

Definition is_digit_value (k : Z) : bool := (0 <=? k) && (k <=? 9).

(** A year written with four digits, the first not zero. *)
Definition year_in_digits (y a b c d : Z) : bool :=
  String.eqb (JS.Zstr y)
    (String (dch a) (String (dch b) (String (dch c) (String (dch d) ""))))
  && (y =? 1000 * a + 100 * b + 10 * c + d)
  && (1 <=? a) && is_digit_value a && is_digit_value b
  && is_digit_value c && is_digit_value d.

Definition year_check (y : Z) : bool :=
  year_in_digits y (y / 1000) (y / 100 mod 10) (y / 10 mod 10) (y mod 10).

(** The plan of [n] consecutive months from month number [t0] on, the
    entry at position [j] taking its capacity and adjustment from [mk j]. *)
Definition consecutive (t0 : Z) (n : nat) (mk : Z -> Z * option Z)
  : list MonthlyCapacity :=
  map (fun j => {| month := monthKeyAt (t0 + j); capacity := fst (mk j);
                   adjustment := snd (mk j) |})
      (upfrom 0 n).

(** [floor(total/n)], and one more for the first [total mod n] positions. *)
Definition even_share (total n j : Z) : Z :=
  total / n + (if j <? total mod n then 1 else 0).

(** The entry at position [j] of [old] if there is one, the last entry of
    [old] otherwise. *)
Definition source_at (old : list MonthlyCapacity) (first : MonthlyCapacity)
           (j : Z) : MonthlyCapacity :=
  if j <? Z.of_nat (List.length old) then nth (Z.to_nat j) old first
  else last old first.

(** Positional copy of [old] over [n] months from [t0] on, the last entry
    repeated. *)
Definition padded_copy (old : list MonthlyCapacity) (first : MonthlyCapacity)
           (t0 : Z) (n : nat) : list MonthlyCapacity :=
  consecutive t0 n
    (fun j => (capacity (source_at old first j),
               adjustment (source_at old first j))).

(** The month number [normalizeStartDate] arrives at, as [Date.UTC] will
    read it back ([0] when there is none). *)
Definition normalizedMonth (env : Env) (now : Clock)
           (input : option StartDateInput) : Z :=
  match normalizeStartDate env now input with
  | Val (Some (y, m)) => JS.fullYear y * 12 + m
  | _ => 0
  end.

(** The text of a key: four digits, a hyphen, two digits. *)
Definition keyText (a b c d e f : Z) : string :=
  String (dch a) (String (dch b) (String (dch c) (String (dch d)
    (String "-" (String (dch e) (String (dch f) "")))))).

(** The characters of a slug: lower-case letters, digits and the hyphen. *)
Definition is_url_char (c : ascii) : bool :=
  is_slug_char c || Ascii.eqb c "-".

Fixpoint all_chars (p : ascii -> bool) (s : string) : bool :=
  match s with
  | EmptyString => true
  | String c s' => p c && all_chars p s'
  end.

Definition starts_with_dash (s : string) : bool :=
  match s with
  | String c _ => Ascii.eqb c "-"
  | EmptyString => false
  end.

Fixpoint ends_with_dash (s : string) : bool :=
  match s with
  | EmptyString => false
  | String c EmptyString => Ascii.eqb c "-"
  | String _ s' => ends_with_dash s'
  end.

Fixpoint has_double_dash (s : string) : bool :=
  match s with
  | String a s' => (Ascii.eqb a "-" && starts_with_dash s') || has_double_dash s'
  | EmptyString => false
  end.

(** Every COS item is priced in the currency of the rate, and its subtotal
    is its unit cost times its quantity. *)
Definition cosConsistent (s : MajikSubscription) : Prop :=
  Forall (fun c => subtotal c = Money.multiply (unitCost c) (quantity c)
                   /\ Money.currency (unitCost c)
                      = Money.currency (amount (rate s)))
         (cos (metadata s)).

(** What [f] gives for the month of each entry of the plan, added up from
    zero in the order of the plan. *)
Definition sum_over_months (s : MajikSubscription) (f : string -> res Money.t)
  : res Money.t :=
  fold_left (fun acc c => a <- acc ;; r <- f (month c) ;; Money.add a r)
            (planOrEmpty s) (Val (DEFAULT_ZERO s)).

(** [c.adjustment ?? 0] *)
Definition adjustmentOrZero (c : MonthlyCapacity) : Z :=
  match adjustment c with
  | Some a => a
  | None => 0
  end.

(** An entry whose capacity is given away as a trial: the capacity stays
    as it is and the adjustment takes it off again. *)
Definition given_away (c : MonthlyCapacity) : MonthlyCapacity :=
  {| month := month c; capacity := capacity c;
     adjustment := Some (adjustmentOrZero c - capacity c) |}.

(** Months in ascending code-unit order. *)
Definition ascending (months : list string) : Prop :=
  StronglySorted (fun a b => String.ltb b a = false) months.

(** The object with another identifier. *)
Definition with_id (s : MajikSubscription) (i : string) : MajikSubscription :=
  {| id := i; slug := slug s; name := name s; category := category s;
     status := status s; type := type s; timestamp := timestamp s;
     last_update := last_update s; metadata := metadata s;
     settings := settings s; financeDirty := financeDirty s |}.

(** The minor units of an optional deduction. *)
Definition minorOrZero (o : option Money.t) : Z :=
  match o with
  | Some x => Money.minor x
  | None => 0
  end.

(** An optional amount that, when given, is in the currency of the rate. *)
Definition inRateCurrency (s : MajikSubscription) (o : option Money.t) : Prop :=
  match o with
  | Some x => Money.currency x = Money.currency (amount (rate s))
  | None => True
  end.

(** A plan whose months are written with digits and hyphens only. On such
    strings [localeCompare] orders as the code units do, which is the order
    [sortByMonth] sorts by. *)
Definition plainMonths (p : list MonthlyCapacity) : Prop :=
  Forall (fun c =>
            all_chars (fun ch => Regex.in_range "0" "9" ch || Ascii.eqb ch "-")
                      (month c) = true)
         p.

(** A text of ASCII characters. On such a text [is_blank] is
    [trim() === ""] and [toLowerCase] is the lower-casing of the code. *)
Definition asciiText (s : string) : bool :=
  all_chars (fun c => (N_of_ascii c <? 128)%N) s.

(** Inputs of [generateCapacityPlan] on which every product the loop stores
    is exact in double precision, so that the rationals of [generate_from]
    are the numbers of the code: no growth, or a whole amount and a whole
    rate whose product for the last month stays within 2^53. *)
Definition exactGrowth (amount0 growthRate : Q) (months : Z) : Prop :=
  (growthRate == 0)%Q
  \/ exists a k : Z,
       (amount0 == inject_Z a)%Q /\ (growthRate == inject_Z k)%Q
       /\ a * (1 + k) ^ (months - 1) <= 2 ^ 53.

(* ================================================================== *)
(** ** Sample values *)
(* ================================================================== *)

Definition envUTC : Env :=
  {| dateParse := fun _ => None; localBehindUTC := false;
     majorToMinor := fun q _ => Qfloor (q * 100) |}.

(** A process in a zone west of Greenwich, New York for one. *)
Definition envWest : Env :=
  {| dateParse := fun _ => None; localBehindUTC := true;
     majorToMinor := fun q _ => Qfloor (q * 100) |}.

Definition noon : Clock :=
  {| clockYear := 2026; clockMonth := 10;
     clockISO := "2026-11-02T12:00:00.000Z" |}.

Definition later : Clock :=
  {| clockYear := 2026; clockMonth := 10;
     clockISO := "2026-11-02T12:00:01.000Z" |}.

Definition PHP : Money.Currency :=
  {| Money.code_head := "P"; Money.code_tail := "HP" |}.

Definition USD : Money.Currency :=
  {| Money.code_head := "U"; Money.code_tail := "SD" |}.

Definition proRate : SubscriptionRate Money.t :=
  {| amount := Money.fromMinor 2900 PHP; rate_unit := PER_USER;
     billingCycle := MONTHLY |}.

Definition proMetadata : SubscriptionMetadata Money.t :=
  {| sku := None;
     description := {| text := "A new subscription."; html := None;
                       seo := None |};
     photos := None; m_type := RECURRING; m_category := "Other";
     m_rate := proRate; cos := []; capacityPlan := None;
     finance := createEmptySubscriptionFinance PHP |}.

(** [MajikSubscription.initialize("Pro Plan", undefined, proRate)] *)
Definition proPlan : MajikSubscription :=
  new_MajikSubscription noon "G7K2aZp9" "X4tF9z" None None "Pro Plan"
    proMetadata (Some default_settings) None None.

Definition entry (m : string) (c : Z) (a : option Z) : MonthlyCapacity :=
  {| month := m; capacity := c; adjustment := a |}.

Definition withPlan (p : list MonthlyCapacity) : MajikSubscription :=
  set_plan proPlan (Some p).

Definition hosting : COSItem Money.t :=
  {| cos_id := "mjksubcost-Zp9G7K2a"; item := "Cloud Hosting";
     unitCost := Money.fromMinor 30000 PHP; quantity := 1;
     subtotal := Money.fromMinor 30000 PHP; cos_unit := None |}.

Definition withHosting : MajikSubscription := set_cos proPlan [hosting].

(** Thirty seats over two months and the hosting cost, the cache stale. *)
Definition hostedPlan : MajikSubscription :=
  set_cos (withPlan [entry "2025-01" 10 None; entry "2025-02" 20 None])
    [hosting].

(** The same after [grossRevenue] has been read once: the snapshot is
    stored and the cache is clean. *)
Definition hostedPlanRead : MajikSubscription :=
  leftBy (grossRevenue hostedPlan) hostedPlan.

(** [new MajikSubscription(undefined, undefined, "Pro Plan", proMetadata,
    undefined, "")]: an object whose creation timestamp is the empty
    string. *)
Definition blankStamp : MajikSubscription :=
  new_MajikSubscription noon "G7K2aZp9" "X4tF9z" None None "Pro Plan"
    proMetadata None (Some "") None.

(** Ten seats planned for January 2025 of which two are lost to churn,
    and the month then given away as a trial:
    [addCapacity("2025-01", 10, -2)] then [applyTrial(1)], which leaves the
    adjustment at [-2 - 10]. *)
Definition churned : MajikSubscription :=
  final (applyTrial noon 1
           (final (addCapacity noon "2025-01" 10 (Some (-2)) proPlan))).

(** February added before January:
    [addCapacity("2025-02", 20)] then [addCapacity("2025-01", 10)]. *)
Definition unsorted : MajikSubscription :=
  final (addCapacity noon "2025-01" 10 None
           (final (addCapacity noon "2025-02" 20 None proPlan))).

(** January 2025 listed twice. *)
Definition januaryTwice : list MonthlyCapacity :=
  [entry "2025-01" 1 None; entry "2025-01" 2 None].

(* ================================================================== *)
(** * Theorems *)
(* ================================================================== *)

(** ** Small facts about results, currencies and field updates *)

Lemma currency_eqb_refl : forall c, Money.currency_eqb c c = true.
Proof. intros c. unfold Money.currency_eqb. apply String.eqb_refl. Qed.

Lemma currency_eqb_eq : forall a b, Money.currency_eqb a b = true -> a = b.
Proof.
  intros [ha ta] [hb tb] H. unfold Money.currency_eqb in H.
  apply String.eqb_eq in H. unfold Money.code in H. cbn in H.
  now inversion H.
Qed.

Lemma initialize_proPlan :
  initialize noon "G7K2aZp9" "X4tF9z" "Pro Plan" None proRate None None None
  = Val proPlan.
Proof. reflexivity. Qed.

Lemma initialize_has_no_plan :
  forall now u1 u2 n t r c d k s,
    initialize now u1 u2 n t r c d k = Val s ->
    capacityPlan (metadata s) = None /\ cos (metadata s) = []
    /\ financeDirty s = true.
Proof.
  intros now u1 u2 n t r c d k s H. unfold initialize in H.
  destruct (is_blank n); [discriminate|].
  destruct (is_blank _); [discriminate|].
  inversion H; subst; cbn. auto.
Qed.

(** ** applyTrial *)

Lemma positive_integer_guard :
  forall q : Q,
    negb (isInteger q) || Qle_bool q 0 = false
    <-> isInteger q = true /\ (0 < q)%Q.
Proof.
  intros q. rewrite orb_false_iff, negb_false_iff. split.
  - intros [Hi Hle]. split; [exact Hi|].
    apply Qnot_le_lt. intros Hc. apply Qle_bool_iff in Hc. congruence.
  - intros [Hi Hlt]. split; [exact Hi|].
    destruct (Qle_bool q 0) eqn:E; [|reflexivity].
    apply Qle_bool_iff in E. exfalso. exact (Qlt_not_le _ _ Hlt E).
Qed.

(** Claim C10. On a subscription whose capacity plan was never set,
    [applyTrial] with a positive integer returns the object exactly as it
    was (entries, [last_update] and dirty flag included); and, whatever the
    plan, [applyTrial] throws exactly when [months] is not a positive
    integer. *)
Theorem applyTrial_without_plan :
  forall (now : Clock) (months : Q) (s : MajikSubscription),
    (capacityPlan (metadata s) = None ->
     isInteger months = true -> (0 < months)%Q ->
     applyTrial now months s = Return s)
    /\ ((exists msg s', applyTrial now months s = Throw msg s')
        <-> ~ (isInteger months = true /\ (0 < months)%Q)).
Proof.
  intros now months s. split.
  - intros Hplan Hi Hpos. unfold applyTrial.
    assert (G : negb (isInteger months) || Qle_bool months 0 = false)
      by (apply positive_integer_guard; auto).
    rewrite G, Hplan. reflexivity.
  - unfold applyTrial.
    destruct (negb (isInteger months) || Qle_bool months 0) eqn:G.
    + split.
      * intros _ Hc. apply positive_integer_guard in Hc. congruence.
      * intros _. eauto.
    + split.
      * intros [msg [s' H]].
        destruct (capacityPlan (metadata s)); discriminate.
      * intros Hn. exfalso. apply Hn. now apply positive_integer_guard.
Qed.

Lemma applyTrial_without_plan_witness :
  capacityPlan (metadata proPlan) = None
  /\ isInteger 3 = true /\ (0 < 3)%Q
  /\ applyTrial later 3 proPlan = Return proPlan.
Proof.
  split; [reflexivity|]. split; [reflexivity|]. split; [reflexivity|].
  apply (proj1 (applyTrial_without_plan later 3 proPlan));
    reflexivity.
Defined.

(** ** isValidYYYYMM *)

Lemma run_branch_1x_end :
  forall bol s,
    Regex.run branch_1x_end bol s (fun _ _ => true)
    = match s with
      | String a (String b EmptyString) =>
          Ascii.eqb a "1" && Regex.in_range "0" "2" b
      | _ => false
      end.
Proof.
  intros bol s. destruct s as [|a [|b [|c s]]]; cbn.
  - reflexivity.
  - now rewrite andb_false_r.
  - now rewrite andb_true_r.
  - now rewrite !andb_false_r.
Qed.

Lemma run_branch_year_0x :
  forall s,
    Regex.run branch_year_0x true s (fun _ _ => true)
    = starts_with_year_and_0x s.
Proof.
  intros s.
  destruct s as [|a [|b [|c [|d [|e [|f [|g s]]]]]]]; cbn;
    rewrite ?andb_false_r, ?andb_true_r, ?andb_assoc; reflexivity.
Qed.

Lemma run_branch_year_0x_inside :
  forall s k, Regex.run branch_year_0x false s k = false.
Proof. reflexivity. Qed.

Lemma search_inside :
  forall s, Regex.search re_isValidYYYYMM false s = ends_in_10_to_12 s.
Proof.
  induction s as [|a s IH].
  - reflexivity.
  - change (Regex.search re_isValidYYYYMM false (String a s))
      with ((Regex.run branch_year_0x false (String a s) (fun _ _ => true)
             || Regex.run branch_1x_end false (String a s) (fun _ _ => true))
            || Regex.search re_isValidYYYYMM false s).
    rewrite run_branch_year_0x_inside, run_branch_1x_end, IH. cbn [orb].
    destruct s as [|b [|c s]]; cbn [ends_in_10_to_12]; try reflexivity.
Qed.

(** What the code's pattern accepts, spelled out: an input that starts like
    a month key of January to September, whatever follows, or any input
    that ends in 10, 11 or 12. *)
Lemma isValidYYYYMM_accepts :
  forall m,
    isValidYYYYMM m = starts_with_year_and_0x m || ends_in_10_to_12 m.
Proof.
  intros m. unfold isValidYYYYMM, Regex.test.
  destruct m as [|a s].
  - reflexivity.
  - change (Regex.search re_isValidYYYYMM true (String a s))
      with ((Regex.run branch_year_0x true (String a s) (fun _ _ => true)
             || Regex.run branch_1x_end true (String a s) (fun _ _ => true))
            || Regex.search re_isValidYYYYMM false s).
    rewrite run_branch_year_0x, run_branch_1x_end, search_inside.
    rewrite <- orb_assoc. f_equal.
    destruct s as [|b [|c s]]; cbn [ends_in_10_to_12]; try reflexivity.
Qed.

(** Claim C3, on the code. [isValidYYYYMM] accepts strings that are not a
    four-digit year, a hyphen and a month 01..12: the bare ["12"], a key
    with a third month digit, a key with text after it. So a monthly
    accessor given ["12"] does not throw; it answers zero. *)
Theorem isValidYYYYMM_accepts_malformed :
  isValidYYYYMM "12" = true
  /\ isValidYYYYMM "2025-011" = true
  /\ isValidYYYYMM "2025-01 and more" = true
  /\ getRevenue proPlan "12" = Val (Money.fromMinor 0 PHP)
  /\ getCOS proPlan "12" = Val (Money.fromMinor 0 PHP)
  /\ getProfit proPlan "12" = Val (Money.fromMinor 0 PHP)
  /\ getMargin proPlan "12" = Val 0%Q
  /\ getNetRevenue proPlan "12" None None None = Val (Money.fromMinor 0 PHP)
  /\ getNetProfit proPlan "12" None None None None None
     = Val (Money.fromMinor 0 PHP)
  /\ getNetIncome proPlan "12" None None None None None
     = Val (Money.fromMinor 0 PHP).
Proof. repeat split; reflexivity. Qed.

(** The accessors throw exactly when the code's own test fails. *)
Lemma getRevenue_throws_iff :
  forall s m,
    (exists msg, getRevenue s m = Err msg) <-> isValidYYYYMM m = false.
Proof.
  intros s m. unfold getRevenue.
  destruct (isValidYYYYMM m); cbn.
  - split; [|discriminate]. intros [msg H].
    destruct (findMonth s m); discriminate.
  - split; eauto.
Qed.

(** ** Gross totals *)

Lemma totalCapacity_sum :
  forall s, totalCapacity s = sumZ (map effectiveUnits (planOrEmpty s)).
Proof.
  intros s. unfold totalCapacity.
  assert (G : forall l acc,
             fold_left
               (fun sum c => sum + capacity c
                             + match adjustment c with
                               | Some a => a
                               | None => 0
                               end) l acc
             = acc + sumZ (map effectiveUnits l)).
  { induction l as [|c l IH]; intros acc; cbn.
    - lia.
    - rewrite IH. unfold effectiveUnits. destruct (adjustment c); lia. }
  rewrite G. lia.
Qed.

Lemma fold_left_Err :
  forall (A B : Type) (g : B -> A -> res B) (l : list A) (m : string),
    fold_left (fun acc x => a <- acc ;; g a x) l (Err m) = Err m.
Proof. induction l as [|x l IH]; intros m; cbn; auto. Qed.

Lemma money_sum_map :
  forall (A : Type) (g : A -> Money.t) (l : list A) (acc : res Money.t),
    fold_left (fun acc x => a <- acc ;; Money.add a (g x)) l acc
    = fold_left (fun acc x => a <- acc ;; Money.add a x) (map g l) acc.
Proof. induction l as [|x l IH]; intros acc; cbn; auto. Qed.

(** Adding amounts of the currency of the seed never throws. *)
Lemma money_sum_same_currency :
  forall (l : list Money.t) (seed : Money.t),
    Forall (fun x => Money.currency x = Money.currency seed) l ->
    money_sum seed l
    = Val (Money.fromMinor (Money.minor seed + sumZ (map Money.minor l))
             (Money.currency seed)).
Proof.
  unfold money_sum.
  induction l as [|x l IH]; intros seed H; cbn.
  - destruct seed as [n c]. cbn. f_equal. unfold Money.fromMinor. f_equal. lia.
  - inversion H as [|? ? Hx Hl]; subst.
    unfold Money.add at 2. rewrite <- Hx, currency_eqb_refl.
    rewrite (IH (Money.fromMinor (Money.minor seed + Money.minor x)
                   (Money.currency x))).
    + cbn. unfold Money.fromMinor. do 2 f_equal. lia.
    + cbn. rewrite Hx. exact Hl.
Qed.

(** The sum of [u] times the units of each month is [u] times the units
    of all months. *)
Lemma sum_of_products :
  forall (u zero : Money.t) (plan : list MonthlyCapacity),
    Money.minor zero = 0 ->
    Money.currency zero = Money.currency u ->
    money_sum zero (map (fun c => Money.multiply u (effectiveUnits c)) plan)
    = Val (Money.multiply u (sumZ (map effectiveUnits plan))).
Proof.
  intros u zero plan Hz Hc.
  rewrite money_sum_same_currency.
  - rewrite Hz, Hc. unfold Money.multiply, Money.fromMinor. do 2 f_equal.
    induction plan as [|c plan IH]; cbn; [lia|]. cbn in IH. lia.
  - apply Forall_forall. intros x Hx. apply in_map_iff in Hx.
    destruct Hx as [c [<- _]]. cbn. now rewrite Hc.
Qed.

Lemma computeGrossRevenue_as_sum :
  forall s,
    computeGrossRevenue s
    = money_sum (DEFAULT_ZERO s)
        (map (fun c => Money.multiply (amount (rate s)) (effectiveUnits c))
             (planOrEmpty s)).
Proof.
  intros s. unfold computeGrossRevenue, money_sum.
  now rewrite <- money_sum_map.
Qed.

Lemma computeGrossRevenue_closed :
  forall s,
    computeGrossRevenue s
    = Val (Money.multiply (amount (rate s)) (totalCapacity s)).
Proof.
  intros s. rewrite computeGrossRevenue_as_sum, totalCapacity_sum.
  apply sum_of_products; reflexivity.
Qed.

Lemma unitCost_total_as_sum :
  forall s,
    unitCost_total s = money_sum (DEFAULT_ZERO s) (map subtotal (cos (metadata s))).
Proof.
  intros s. unfold unitCost_total, money_sum. now rewrite <- money_sum_map.
Qed.

(** A sum that succeeds is in the currency of its seed. *)
Lemma money_sum_currency :
  forall l seed u,
    money_sum seed l = Val u -> Money.currency u = Money.currency seed.
Proof.
  unfold money_sum.
  induction l as [|x l IH]; intros seed u H; cbn in H.
  - now inversion H.
  - unfold Money.add at 2 in H.
    destruct (Money.currency_eqb (Money.currency seed) (Money.currency x)).
    + apply IH in H. exact H.
    + rewrite fold_left_Err in H. discriminate.
Qed.

Lemma computeGrossCOS_closed :
  forall s,
    computeGrossCOS s
    = (u <- unitCost_total s ;; Val (Money.multiply u (totalCapacity s))).
Proof.
  intros s. unfold computeGrossCOS.
  destruct (unitCost_total s) as [u|m] eqn:E; cbn; [|reflexivity].
  rewrite money_sum_map. fold (money_sum (DEFAULT_ZERO s)
    (map (fun c => Money.multiply u (effectiveUnits c)) (planOrEmpty s))).
  rewrite totalCapacity_sum. apply sum_of_products; [reflexivity|].
  rewrite unitCost_total_as_sum in E. apply money_sum_currency in E.
  now rewrite E.
Qed.

(** Claim C4. For every subscription: [computeGrossRevenue] is the sum,
    from a zero seed in the currency of the rate, of rate times effective
    units over the plan (and it never throws: it is the rate times the total
    units); [computeGrossCOS] is the sum of the COS subtotals times the
    total effective units; [computeGrossProfit] is the first minus the
    second. The cost and the profit throw exactly when summing the
    subtotals does. *)
Theorem gross_totals :
  forall s : MajikSubscription,
    let zero := Money.fromMinor 0 (Money.currency (amount (rate s))) in
    let units := sumZ (map effectiveUnits (planOrEmpty s)) in
    let revenue_sum :=
      money_sum zero
        (map (fun c => Money.multiply (amount (rate s)) (effectiveUnits c))
             (planOrEmpty s)) in
    let cost_product :=
      u <- money_sum zero (map subtotal (cos (metadata s))) ;;
      Val (Money.multiply u units) in
    computeGrossRevenue s = revenue_sum
    /\ revenue_sum = Val (Money.multiply (amount (rate s)) units)
    /\ computeGrossCOS s = cost_product
    /\ computeGrossProfit s
       = (r <- revenue_sum ;; c <- cost_product ;; Money.subtract r c).
Proof.
  intros s zero units revenue_sum cost_product.
  assert (R : computeGrossRevenue s = revenue_sum)
    by apply computeGrossRevenue_as_sum.
  assert (C : computeGrossCOS s = cost_product).
  { rewrite computeGrossCOS_closed, unitCost_total_as_sum, totalCapacity_sum.
    reflexivity. }
  repeat split.
  - exact R.
  - rewrite <- R, computeGrossRevenue_closed, totalCapacity_sum. reflexivity.
  - exact C.
  - unfold computeGrossProfit. now rewrite R, C.
Qed.

(** With every subtotal in the currency of the rate, nothing throws. *)
Lemma gross_totals_defined :
  forall s,
    Forall (fun c => Money.currency (subtotal c)
                     = Money.currency (amount (rate s))) (cos (metadata s)) ->
    exists c,
      computeGrossCOS s = Val c
      /\ Money.currency c = Money.currency (amount (rate s))
      /\ computeGrossProfit s
         = Val (Money.fromMinor
                  (Money.minor (amount (rate s)) * totalCapacity s
                   - Money.minor c)
                  (Money.currency (amount (rate s)))).
Proof.
  intros s H.
  assert (U : exists u, unitCost_total s = Val u
                        /\ Money.currency u = Money.currency (amount (rate s))).
  { rewrite unitCost_total_as_sum, money_sum_same_currency.
    - eexists. split; [reflexivity|reflexivity].
    - apply Forall_forall. intros x Hx. apply in_map_iff in Hx.
      destruct Hx as [c [<- Hc]]. rewrite Forall_forall in H.
      now apply H. }
  destruct U as [u [Hu Hcu]].
  exists (Money.multiply u (totalCapacity s)).
  assert (C : computeGrossCOS s = Val (Money.multiply u (totalCapacity s)))
    by (rewrite computeGrossCOS_closed, Hu; reflexivity).
  split; [exact C|]. split; [exact Hcu|].
  unfold computeGrossProfit. rewrite computeGrossRevenue_closed, C. cbn.
  unfold Money.subtract. cbn. rewrite Hcu, currency_eqb_refl. reflexivity.
Qed.

(** ** The finance cache *)

Lemma totalCapacity_depends :
  forall s s', planOrEmpty s' = planOrEmpty s ->
               totalCapacity s' = totalCapacity s.
Proof. intros s s' H. unfold totalCapacity. now rewrite H. Qed.

(** The snapshot is a function of the rate, the COS subtotals and the
    plan, and of nothing else in the object. *)
Lemma financeSnapshot_depends :
  forall s s',
    rate s' = rate s ->
    map subtotal (cos (metadata s')) = map subtotal (cos (metadata s)) ->
    planOrEmpty s' = planOrEmpty s ->
    financeSnapshot s' = financeSnapshot s.
Proof.
  intros s s' Hr Hc Hp. unfold financeSnapshot, computeGrossProfit.
  rewrite !computeGrossRevenue_closed, !computeGrossCOS_closed,
    !unitCost_total_as_sum.
  unfold DEFAULT_ZERO.
  now rewrite Hr, Hc, (totalCapacity_depends s s' Hp).
Qed.

Lemma coherent_when_dirty :
  forall s, financeDirty s = true -> cacheCoherent s.
Proof. intros s H D. congruence. Qed.

Lemma coherent_transfer :
  forall s s',
    cacheCoherent s ->
    financeDirty s' = financeDirty s ->
    finance (metadata s') = finance (metadata s) ->
    rate s' = rate s ->
    map subtotal (cos (metadata s')) = map subtotal (cos (metadata s)) ->
    planOrEmpty s' = planOrEmpty s ->
    cacheCoherent s'.
Proof.
  intros s s' H Hd Hf Hr Hc Hp D. rewrite Hd in D.
  rewrite (financeSnapshot_depends s s' Hr Hc Hp), Hf. exact (H D).
Qed.

Lemma recomputeFinance_clean :
  forall s s', recomputeFinance s = Val s' -> financeDirty s' = false.
Proof.
  intros s s' H. unfold recomputeFinance in H.
  destruct (financeDirty s) eqn:D; cbn in H.
  - destruct (financeSnapshot s); cbn in H; [|discriminate].
    inversion H; subst. reflexivity.
  - inversion H; subst. exact D.
Qed.

Lemma recomputeFinance_when_clean :
  forall s, financeDirty s = false -> recomputeFinance s = Val s.
Proof. intros s D. unfold recomputeFinance. now rewrite D. Qed.

Lemma recomputeFinance_keeps_inputs :
  forall s s',
    recomputeFinance s = Val s' ->
    rate s' = rate s /\ cos (metadata s') = cos (metadata s)
    /\ capacityPlan (metadata s') = capacityPlan (metadata s).
Proof.
  intros s s' H. unfold recomputeFinance in H.
  destruct (financeDirty s); cbn in H.
  - destruct (financeSnapshot s); cbn in H; [|discriminate].
    inversion H; subst; cbn. auto.
  - inversion H; subst. auto.
Qed.

Lemma recomputeFinance_coherent :
  forall s s',
    cacheCoherent s -> recomputeFinance s = Val s' -> cacheCoherent s'.
Proof.
  intros s s' Hc H. unfold recomputeFinance in H.
  destruct (financeDirty s) eqn:D; cbn in H.
  - destruct (financeSnapshot s) as [f|] eqn:F; cbn in H; [|discriminate].
    inversion H; subst. intros _.
    rewrite (financeSnapshot_depends s); [exact F|reflexivity..].
  - inversion H; subst. exact Hc.
Qed.

Lemma cached_twice :
  forall pick s,
    let first := cached pick s in
    answer (cached pick (leftBy first s)) = answer first
    /\ leftBy (cached pick (leftBy first s)) (leftBy first s)
       = leftBy first s.
Proof.
  intros pick s first. subst first. unfold cached.
  destruct (recomputeFinance s) as [s1|m] eqn:R; cbn.
  - rewrite (recomputeFinance_when_clean s1
               (recomputeFinance_clean s s1 R)). cbn. auto.
  - rewrite R. cbn. auto.
Qed.

(** Claim C7. Reading a cached finance getter ([grossRevenue],
    [grossCost], [grossProfit], [netRevenue], [netProfit]) a second time,
    with nothing in between, gives what the first reading gave (the same
    amount, or the same error) and leaves the object as the first reading
    left it. And the snapshot is a function of the rate, the COS list and
    the capacity plan: two objects that agree on the three get equal
    snapshots, so a second recomputation after the first stores the same
    content. The getters are tied to that snapshot: on an object whose
    cache is stale a getter computes it, stores it, marks the cache clean
    and answers from it, or throws what the computation throws and stores
    nothing; on an object whose cache is clean it answers from the stored
    snapshot and writes nothing. So two stale objects that agree on the
    rate, the COS list and the plan get the same answer and the same stored
    snapshot from each getter, and so does the object itself when its cache
    is marked stale again after the getter has returned. *)
Theorem cached_reads_repeat :
  forall s : MajikSubscription,
    Forall (fun getter =>
              let first := getter s in
              answer (getter (leftBy first s)) = answer first
              /\ leftBy (getter (leftBy first s)) (leftBy first s)
                 = leftBy first s)
           cachedGetters
    /\ (forall s',
           rate s' = rate s ->
           cos (metadata s') = cos (metadata s) ->
           capacityPlan (metadata s') = capacityPlan (metadata s) ->
           financeSnapshot s' = financeSnapshot s)
    /\ Forall (fun getter =>
                 financeSnapshot (leftBy (getter s) s) = financeSnapshot s)
              cachedGetters
    /\ (financeDirty s = true ->
        match financeSnapshot s with
        | Val f =>
            let s1 := set_dirty (set_finance s f) false in
            grossRevenue s = Val (value (gross (revenue f)), s1)
            /\ grossCost s = Val (value (gross (fcos f)), s1)
            /\ grossProfit s = Val (value (gross (profit f)), s1)
            /\ netRevenue s = Val (value (net (revenue f)), s1)
            /\ netProfit s = Val (value (net (profit f)), s1)
        | Err msg => Forall (fun getter => getter s = Err msg) cachedGetters
        end)
    /\ (financeDirty s = false ->
        let f := finance (metadata s) in
        grossRevenue s = Val (value (gross (revenue f)), s)
        /\ grossCost s = Val (value (gross (fcos f)), s)
        /\ grossProfit s = Val (value (gross (profit f)), s)
        /\ netRevenue s = Val (value (net (revenue f)), s)
        /\ netProfit s = Val (value (net (profit f)), s))
    /\ (forall s',
           financeDirty s = true -> financeDirty s' = true ->
           rate s' = rate s ->
           cos (metadata s') = cos (metadata s) ->
           capacityPlan (metadata s') = capacityPlan (metadata s) ->
           Forall (fun getter =>
                     answer (getter s') = answer (getter s)
                     /\ forall v s1,
                          getter s = Val (v, s1) ->
                          exists s1',
                            getter s' = Val (v, s1')
                            /\ finance (metadata s1') = finance (metadata s1)
                            /\ financeDirty s1' = false)
                  cachedGetters)
    /\ (financeDirty s = true ->
        Forall (fun getter =>
                  forall v s1,
                    getter s = Val (v, s1) ->
                    exists s2,
                      getter (markFinanceDirty s1) = Val (v, s2)
                      /\ finance (metadata s2) = finance (metadata s1))
               cachedGetters).
Proof.
  intros s. split; [|split; [|split; [|split; [|split; [|split]]]]].
  - unfold cachedGetters, grossRevenue, grossCost, grossProfit, netRevenue,
      netProfit.
    repeat constructor; apply cached_twice.
  - intros s' Hr Hc Hp. apply financeSnapshot_depends.
    + exact Hr.
    + now rewrite Hc.
    + unfold planOrEmpty. now rewrite Hp.
  - assert (K : forall pick,
               financeSnapshot (leftBy (cached pick s) s) = financeSnapshot s).
    { intros pick. unfold cached.
      destruct (recomputeFinance s) as [s1|m] eqn:R; cbn; [|reflexivity].
      destruct (recomputeFinance_keeps_inputs s s1 R) as [Hr [Hc Hp]].
      apply financeSnapshot_depends.
      - exact Hr.
      - now rewrite Hc.
      - unfold planOrEmpty. now rewrite Hp. }
    unfold cachedGetters, grossRevenue, grossCost, grossProfit, netRevenue,
      netProfit.
    repeat constructor; apply K.
  - intros D.
    assert (K : forall pick,
               cached pick s
               = (f <- financeSnapshot s ;;
                  Val (pick f, set_dirty (set_finance s f) false))).
    { intros pick. unfold cached, recomputeFinance. rewrite D. cbn [negb].
      destruct (financeSnapshot s); reflexivity. }
    unfold cachedGetters, grossRevenue, grossCost, grossProfit, netRevenue,
      netProfit.
    destruct (financeSnapshot s) as [f|msg] eqn:F.
    + cbv beta iota zeta. rewrite !K. repeat split.
    + cbv beta iota. repeat constructor; rewrite K; reflexivity.
  - intros D f.
    unfold grossRevenue, grossCost, grossProfit, netRevenue, netProfit,
      cached, recomputeFinance.
    rewrite D. cbn [negb bind]. repeat split.
  - intros s' D D' Hr Hc Hp.
    assert (F : financeSnapshot s' = financeSnapshot s).
    { apply financeSnapshot_depends.
      - exact Hr.
      - now rewrite Hc.
      - unfold planOrEmpty. now rewrite Hp. }
    assert (K : forall pick,
               answer (cached pick s') = answer (cached pick s)
               /\ forall v s1,
                    cached pick s = Val (v, s1) ->
                    exists s1',
                      cached pick s' = Val (v, s1')
                      /\ finance (metadata s1') = finance (metadata s1)
                      /\ financeDirty s1' = false).
    { intros pick. unfold cached, recomputeFinance.
      rewrite D, D', F. cbn [negb].
      destruct (financeSnapshot s) as [f|msg]; cbn [bind answer].
      - split; [reflexivity|]. intros v s1 E. inversion E; subst.
        eexists. repeat split.
      - split; [reflexivity|]. intros v s1 E. discriminate E. }
    unfold cachedGetters, grossRevenue, grossCost, grossProfit, netRevenue,
      netProfit.
    repeat constructor; apply K.
  - intros D.
    assert (K : forall pick v s1,
               cached pick s = Val (v, s1) ->
               exists s2,
                 cached pick (markFinanceDirty s1) = Val (v, s2)
                 /\ finance (metadata s2) = finance (metadata s1)).
    { intros pick v s1 E. unfold cached, recomputeFinance in E.
      rewrite D in E. cbn [negb] in E.
      destruct (financeSnapshot s) as [f|msg] eqn:F; cbn [bind] in E;
        [|discriminate E].
      inversion E; subst v s1. clear E.
      unfold cached, recomputeFinance.
      assert (F' : financeSnapshot
                     (markFinanceDirty (set_dirty (set_finance s f) false))
                   = Val f).
      { rewrite <- F. apply financeSnapshot_depends; reflexivity. }
      change (financeDirty
                (markFinanceDirty (set_dirty (set_finance s f) false)))
        with true.
      cbn [negb]. rewrite F'. cbn [bind].
      eexists. split; reflexivity. }
    unfold cachedGetters, grossRevenue, grossCost, grossProfit, netRevenue,
      netProfit.
    repeat constructor; apply K.
Qed.

Lemma cached_reads_repeat_witness :
  financeDirty hostedPlan = true
  /\ exists s1,
      grossCost hostedPlan = Val (Money.fromMinor 900000 PHP, s1)
      /\ financeDirty s1 = false
      /\ finance (metadata s1) <> finance (metadata hostedPlan)
      /\ grossCost s1 = Val (Money.fromMinor 900000 PHP, s1)
      /\ grossProfit s1 = Val (Money.fromMinor (87000 - 900000) PHP, s1).
Proof.
  split; [reflexivity|].
  destruct (cached_reads_repeat hostedPlan) as [_ [_ [_ [Stale _]]]].
  specialize (Stale eq_refl).
  destruct (financeSnapshot hostedPlan) as [f|msg] eqn:F;
    [|discriminate F].
  cbv zeta in Stale. destruct Stale as [_ [C _]].
  exists (set_dirty (set_finance hostedPlan f) false).
  assert (Hf : f = finance (metadata hostedPlanRead)).
  { unfold hostedPlanRead, grossRevenue, cached, recomputeFinance.
    change (financeDirty hostedPlan) with true. cbn [negb].
    rewrite F. reflexivity. }
  destruct (cached_reads_repeat (set_dirty (set_finance hostedPlan f) false))
    as [_ [_ [_ [_ [Clean _]]]]].
  specialize (Clean eq_refl). cbv zeta in Clean.
  destruct Clean as [_ [C' [P' _]]].
  split; [|split; [reflexivity|split; [|split]]].
  - rewrite C. rewrite Hf. reflexivity.
  - rewrite Hf. vm_compute. discriminate.
  - rewrite C'. rewrite Hf. reflexivity.
  - rewrite P'. rewrite Hf. reflexivity.
Defined.

(** ** Failed calls and partial writes *)

Lemma set_plan_same :
  forall s p, capacityPlan (metadata s) = Some p -> set_plan s (Some p) = s.
Proof.
  intros [i sl n c st t ts lu [k d ph mt mc mr co cp f] se fd] p H.
  cbn in H. subst cp. reflexivity.
Qed.

Lemma setCapacity_throw :
  forall now p s msg s', setCapacity now p s = Throw msg s' -> s' = s.
Proof.
  intros now p s msg s' H. unfold setCapacity in H.
  destruct (setCapacity_check p); now inversion H.
Qed.

(** Property X1. Every method but [updateCOS] leaves the object as it found
    it when it throws. *)
Lemma throw_leaves_unchanged :
  forall env now genUID c s msg s',
    (forall id0 updates, c <> UpdateCOS id0 updates) ->
    exec env now genUID c s = Throw msg s' ->
    s' = s.
Proof.
  intros env now genUID c s msg s' Hc H.
  destruct c; cbn [exec] in H;
    try (exfalso; eapply Hc; reflexivity).
  all: try (unfold setName, setRate, setRateUnit, setCategory, setType,
            setDescriptionSEO, clearCostBreakdown, clearCapacity in H;
            try destruct (is_blank _); discriminate).
  - unfold setRateAmount in H.
    destruct (Qle_bool _ _); now inversion H.
  - unfold setDescription in H.
    repeat destruct (is_blank _); now inversion H.
  - unfold setDescriptionText in H.
    destruct (is_blank _); now inversion H.
  - unfold setDescriptionHTML in H.
    destruct (is_blank _); now inversion H.
  - unfold addCOS in H.
    destruct (is_blank _); [now inversion H|].
    destruct (_ <=? 0); [now inversion H|].
    destruct (assertCurrency _ _); now inversion H.
  - unfold pushCOS in H.
    destruct (String.eqb _ _); [now inversion H|].
    destruct (is_blank _); [now inversion H|].
    destruct (_ <=? 0); [now inversion H|].
    destruct (assertCurrency _ _); now inversion H.
  - unfold setCOS in H.
    destruct (setCOS_checks _ _); now inversion H.
  - unfold removeCOS in H.
    destruct (findIndex _ _); now inversion H.
  - unfold generateCapacityPlan in H.
    destruct (_ || _); [now inversion H|].
    destruct (negb _); [now inversion H|].
    destruct (negb _); [now inversion H|].
    destruct (normalizeStartDate _ _ _); [|now inversion H].
    now apply setCapacity_throw in H.
  - unfold normalizeCapacityUnits in H.
    destruct (_ <? 0); [now inversion H|].
    destruct (capacityPlan (metadata s)) as [[|a [|b l]]|]; now inversion H.
  - unfold recomputeCapacityPeriod in H.
    destruct (_ || _); [now inversion H|].
    destruct (negb _); [now inversion H|].
    destruct (JS.str_gt _ _); [now inversion H|].
    match type of H with
    | match ?x with _ => _ end = _ => destruct x
    end; now inversion H.
  - now apply setCapacity_throw in H.
  - unfold addCapacity in H.
    destruct (negb _); [now inversion H|].
    destruct (existsb _ _) eqn:E; [|discriminate].
    inversion H; subst.
    unfold planOrEmpty in *. cbn in E.
    destruct (capacityPlan (metadata s)) as [p|] eqn:P.
    + now apply set_plan_same.
    + discriminate.
  - unfold updateCapacityUnits in H.
    destruct (negb _); [now inversion H|].
    destruct (findIndex _ _); now inversion H.
  - unfold updateCapacityAdjustment in H.
    destruct (negb _); [now inversion H|].
    destruct (findIndex _ _); now inversion H.
  - unfold removeCapacity in H.
    destruct (negb _); [now inversion H|].
    destruct (findIndex _ _); now inversion H.
  - unfold applyTrial in H.
    destruct (_ || _); [now inversion H|].
    destruct (capacityPlan _); discriminate.
  - destruct (recomputeFinance s); now inversion H.
Qed.

(** Claim C5, on the code. [updateCOS] with a valid quantity and a unit
    cost in another currency throws, and the item it was aimed at has the
    new quantity already: 5 instead of 1. Its subtotal, [last_update] and
    the dirty flag are those of before, so the object is left in a state no
    completed call produces. *)
Theorem updateCOS_writes_before_it_throws :
  let updates :=
    {| u_quantity := Some 5; u_unitCost := Some (Money.fromMinor 100 USD);
       u_unit := None; u_item := None |} in
  exists s',
    updateCOS later "mjksubcost-Zp9G7K2a" updates withHosting
    = Throw "Currency mismatch with subscription rate" s'
    /\ map quantity (cos (metadata withHosting)) = [1]
    /\ map quantity (cos (metadata s')) = [5]
    /\ map subtotal (cos (metadata s')) = [Money.fromMinor 30000 PHP]
    /\ last_update s' = last_update withHosting
    /\ financeDirty s' = financeDirty withHosting.
Proof.
  intros updates. eexists. split; [reflexivity|]. cbn. repeat split.
Qed.

(** ** What every reachable object satisfies *)

Lemma store_keeps_subtotals :
  forall (l : list (COSItem Money.t)) i x d,
    subtotal x = subtotal (nth i l d) ->
    map subtotal (store i x l) = map subtotal l.
Proof.
  induction l as [|y l IH]; intros i x d H; destruct i; cbn in *; try reflexivity.
  - now rewrite H.
  - f_equal. now apply (IH i x d).
Qed.

Ltac coherent_by H :=
  first [ exact H
        | apply coherent_when_dirty; reflexivity
        | eapply coherent_transfer; [exact H | reflexivity ..] ].

Ltac split_guards :=
  repeat match goal with
         | |- context [if ?b then _ else _] => destruct b
         | |- context [match ?x with
                       | Val _ => _
                       | Err _ => _
                       end] => destruct x eqn:?
         | |- context [match findIndex ?p ?l with _ => _ end] =>
             destruct (findIndex p l) eqn:?
         end.

Lemma setCapacity_coherent :
  forall now p s, cacheCoherent s -> cacheCoherent (final (setCapacity now p s)).
Proof.
  intros now p s H. unfold setCapacity.
  destruct (setCapacity_check p); cbn [final]; coherent_by H.
Qed.

Lemma updateCOS_coherent :
  forall now i u s, cacheCoherent s -> cacheCoherent (final (updateCOS now i u s)).
Proof.
  intros now i u s H. unfold updateCOS.
  destruct (findIndex _ _) as [k|]; [|exact H].
  cbv zeta.
  destruct (u_quantity u) as [q|].
  - destruct (q <=? 0); [exact H|].
    destruct (u_unitCost u) as [uc|].
    + destruct (assertCurrency _ uc); cbn [bind final].
      * coherent_by H.
      * eapply coherent_transfer; [exact H | reflexivity ..| | reflexivity].
        cbn. eapply store_keeps_subtotals. reflexivity.
    + cbn [final]. coherent_by H.
  - destruct (u_unitCost u) as [uc|].
    + destruct (assertCurrency _ uc); cbn [bind final].
      * coherent_by H.
      * eapply coherent_transfer; [exact H | reflexivity ..| | reflexivity].
        cbn. eapply store_keeps_subtotals. reflexivity.
    + cbn [final]. coherent_by H.
Qed.

(** No call breaks the agreement of the cache with the fields it is
    computed from, whether it returns or throws. *)
Lemma exec_coherent :
  forall env now genUID c s,
    cacheCoherent s -> cacheCoherent (final (exec env now genUID c s)).
Proof.
  intros env now genUID c s H.
  destruct c; cbn [exec];
    try (now apply setCapacity_coherent);
    try (now apply updateCOS_coherent).
  all: try (unfold setName, setRate, setRateUnit, setRateAmount, setCategory,
            setDescription, setDescriptionText, setDescriptionHTML,
            setDescriptionSEO, setType, addCOS, pushCOS, setCOS, removeCOS,
            clearCostBreakdown, clearCapacity, updateCapacityUnits,
            updateCapacityAdjustment, removeCapacity;
            split_guards; cbn [final]; coherent_by H).
  - unfold generateCapacityPlan.
    split_guards; cbn [final]; try coherent_by H.
    now apply setCapacity_coherent.
  - unfold normalizeCapacityUnits.
    destruct (_ <? 0); [exact H|].
    destruct (capacityPlan (metadata s)) as [[|a [|b l]]|];
      cbn [final]; coherent_by H.
  - unfold recomputeCapacityPeriod.
    destruct (_ || _); [exact H|].
    destruct (negb _); [exact H|].
    destruct (JS.str_gt _ _); [exact H|].
    match goal with
    | |- context [match ?x with Val _ => _ | Err _ => _ end] => destruct x
    end; cbn [final]; coherent_by H.
  - unfold addCapacity.
    destruct (negb _); [exact H|].
    destruct (existsb _ _); cbn [final]; coherent_by H.
  - unfold applyTrial.
    destruct (_ || _); [exact H|].
    destruct (capacityPlan _); cbn [final]; coherent_by H.
  - destruct (recomputeFinance s) eqn:R; cbn [final]; [|exact H].
    eapply recomputeFinance_coherent; eauto.
Qed.

Lemma reachable_coherent :
  forall env s, reachable env s -> cacheCoherent s.
Proof.
  intros env s R. induction R.
  - apply coherent_when_dirty. reflexivity.
  - now apply exec_coherent.
Qed.

Lemma cached_answer :
  forall pick s,
    cacheCoherent s ->
    answer (cached pick s) = (f <- financeSnapshot s ;; Val (pick f)).
Proof.
  intros pick s H. unfold cached, recomputeFinance.
  destruct (financeDirty s) eqn:D; cbn.
  - destruct (financeSnapshot s); reflexivity.
  - rewrite (H D). reflexivity.
Qed.

Lemma computeGrossCOS_currency :
  forall s c,
    computeGrossCOS s = Val c ->
    Money.currency c = Money.currency (amount (rate s)).
Proof.
  intros s c H. rewrite computeGrossCOS_closed in H.
  destruct (unitCost_total s) as [u|] eqn:U; cbn in H; [|discriminate].
  inversion H; subst. cbn.
  rewrite unitCost_total_as_sum in U. now apply money_sum_currency in U.
Qed.

(** The snapshot exists exactly when the gross cost does, and then holds
    the three gross amounts, the net columns repeating them. *)
Lemma financeSnapshot_fields :
  forall s,
    match computeGrossCOS s with
    | Err m => financeSnapshot s = Err m
    | Val c =>
        exists f,
          financeSnapshot s = Val f
          /\ computeGrossRevenue s = Val (value (gross (revenue f)))
          /\ value (gross (fcos f)) = c
          /\ computeGrossProfit s = Val (value (gross (profit f)))
          /\ value (net (revenue f)) = value (gross (revenue f))
          /\ value (net (profit f)) = value (gross (profit f))
    end.
Proof.
  intros s. destruct (computeGrossCOS s) as [c|m] eqn:C.
  - pose proof (computeGrossCOS_currency s c C) as Hc.
    unfold financeSnapshot, computeGrossProfit.
    rewrite computeGrossRevenue_closed, C. cbn [bind].
    unfold Money.subtract, Money.ratio. cbn.
    rewrite Hc, !currency_eqb_refl. cbn.
    destruct (Money.isZero _); cbn; rewrite ?currency_eqb_refl; cbn;
      eexists; repeat split.
  - unfold financeSnapshot. rewrite computeGrossRevenue_closed, C. reflexivity.
Qed.

(** Property X2. On an object whose cache is marked stale, or holds the
    snapshot of the fields as they are, the cached getters answer what the
    three computations give; [grossRevenue] throws with the cost when the
    cost throws, since one recomputation fills the whole snapshot. (Every
    call on the object leaves the cache stale or in step, [exec_coherent];
    a write made to the rate or to an entry object from outside does
    not.) *)
Lemma gross_getters :
  forall s,
    cacheCoherent s ->
    answer (grossRevenue s) = (_ <- computeGrossCOS s ;; computeGrossRevenue s)
    /\ answer (grossCost s) = computeGrossCOS s
    /\ answer (grossProfit s) = computeGrossProfit s
    /\ answer (netRevenue s) = answer (grossRevenue s)
    /\ answer (netProfit s) = answer (grossProfit s).
Proof.
  intros s R.
  unfold grossRevenue, grossCost, grossProfit, netRevenue, netProfit.
  rewrite !cached_answer by exact R.
  pose proof (financeSnapshot_fields s) as F.
  destruct (computeGrossCOS s) as [c|m] eqn:C.
  - destruct F as [f [Hf [Hr [Hc [Hp [Hnr Hnp]]]]]].
    rewrite Hf. cbn. rewrite Hr, Hp, Hc, Hnr, Hnp. auto.
  - rewrite F. cbn. unfold computeGrossProfit.
    rewrite computeGrossRevenue_closed, C. auto.
Qed.

Lemma append_dash_not_empty :
  forall a b : string, (a ++ "-" ++ b)%string <> "".
Proof. intros [|c a] b; discriminate. Qed.

Lemma or_else_not_empty :
  forall o d, d <> "" -> or_else o d <> "".
Proof. intros [[|c v]|] d H; cbn; auto. discriminate. Qed.

(** The identifier and the slug of a reachable object are not empty. *)
Lemma reachable_named :
  forall env s, reachable env s -> id s <> "" /\ slug s <> "".
Proof.
  intros env s R. induction R as [|now genUID c s R [Hi Hs]].
  - unfold new_MajikSubscription. cbn [id slug].
    split; apply or_else_not_empty; apply append_dash_not_empty.
  - assert (K : forall s', id s' = id s -> slug s' = slug s ->
                           id s' <> "" /\ slug s' <> "")
      by (intros s' -> ->; auto).
    destruct c; cbn [exec];
      try (unfold setRate, setRateUnit, setRateAmount, setCategory,
           setDescription, setDescriptionText, setDescriptionHTML,
           setDescriptionSEO, setType, addCOS, pushCOS, setCOS, removeCOS,
           clearCostBreakdown, clearCapacity, updateCapacityUnits,
           updateCapacityAdjustment, removeCapacity, setCapacity,
           generateCapacityPlan, setCapacity, addCapacity, applyTrial;
           split_guards; cbn [final]; now apply K).
    + unfold setName, updateTimestamp, set_last_update.
      cbn [final id slug]. split; [exact Hi|]. apply append_dash_not_empty.
    + unfold updateCOS. destruct (findIndex _ _); [|cbn [final]; now apply K].
      cbv zeta. destruct (u_quantity updates) as [q|];
        [destruct (q <=? 0); [now apply K|]|];
        (destruct (u_unitCost updates) as [uc|];
         [destruct (assertCurrency _ uc)|]; cbn [bind final]; now apply K).
    + unfold normalizeCapacityUnits.
      destruct (_ <? 0); [now apply K|].
      destruct (capacityPlan (metadata s)) as [[|a [|b l]]|];
        cbn [final]; now apply K.
    + unfold recomputeCapacityPeriod.
      destruct (_ || _); [now apply K|].
      destruct (negb _); [now apply K|].
      destruct (JS.str_gt _ _); [now apply K|].
      match goal with
      | |- context [match ?x with Val _ => _ | Err _ => _ end] => destruct x
      end; cbn [final]; now apply K.
    + unfold applyTrial.
      destruct (_ || _); [now apply K|].
      destruct (capacityPlan _); cbn [final]; now apply K.
    + destruct (recomputeFinance s) as [s'|] eqn:E; cbn [final]; [|now apply K].
      unfold recomputeFinance in E.
      destruct (financeDirty s); cbn in E.
      * destruct (financeSnapshot s); cbn in E; [|discriminate].
        inversion E; subst. now apply K.
      * inversion E; subst. now apply K.
Qed.

(** ** JSON round trip *)

Lemma deserialize_serialize :
  forall a, Money.deserialize (Money.serialize a) = Val a.
Proof. intros [n [h t]]. reflexivity. Qed.

Lemma traverse_rate_serialize :
  forall r, traverse_rate Money.deserialize (serialize_rate r) = Val r.
Proof.
  intros [a u b].
  unfold traverse_rate, serialize_rate. cbn [amount rate_unit billingCycle].
  now rewrite deserialize_serialize.
Qed.

Lemma traverse_items_serialize :
  forall l, traverse_items Money.deserialize (map serialize_item l) = Val l.
Proof.
  induction l as [|[i n u q t un] l IH]; [reflexivity|].
  cbn [map traverse_items]. rewrite IH.
  unfold traverse_item, serialize_item.
  cbn [cos_id item unitCost quantity subtotal cos_unit].
  now rewrite !deserialize_serialize.
Qed.

Lemma traverse_pair_serialize :
  forall g, traverse_pair Money.deserialize (serialize_pair g) = Val g.
Proof.
  intros [[v1 m1] [v2 m2]].
  unfold traverse_pair, traverse_ratio, serialize_pair, serialize_ratio.
  cbn [gross net value marginRatio].
  now rewrite !deserialize_serialize.
Qed.

Lemma traverse_finance_serialize :
  forall f, traverse_finance Money.deserialize (serialize_finance f) = Val f.
Proof.
  intros [p r i c]. unfold traverse_finance, serialize_finance.
  cbn [profit revenue income fcos].
  now rewrite !traverse_pair_serialize.
Qed.

Lemma traverse_metadata_serialize :
  forall m,
    traverse_metadata Money.deserialize (serialize_metadata m) = Val m.
Proof.
  intros [k d ph mt mc mr co cp f].
  unfold traverse_metadata, serialize_metadata.
  cbn [sku description photos m_type m_category m_rate cos capacityPlan
       finance].
  now rewrite traverse_rate_serialize, traverse_items_serialize,
    traverse_finance_serialize.
Qed.

Lemma truthy_some :
  forall v, v <> "" -> truthy (Some v) = Some v.
Proof. intros [|c v] H; [congruence|reflexivity]. Qed.

Lemma or_else_some :
  forall v d, v <> "" -> or_else (Some v) d = v.
Proof. intros [|c v] d H; [congruence|reflexivity]. Qed.

(** What [parseFromJSON] makes of [toJSON x] when the timestamp is not
    empty: the fields of [x], with a fresh dirty flag. *)
Lemma parseFromJSON_toJSON :
  forall now u1 u2 x,
    id x <> "" -> slug x <> "" -> timestamp x <> "" ->
    parseFromJSON now u1 u2 (toJSON x)
    = Val {| id := id x; slug := slug x; name := name x;
             category := m_category (metadata x);
             status := s_status (settings x);
             type := m_type (metadata x);
             timestamp := timestamp x; last_update := last_update x;
             metadata := metadata x; settings := settings x;
             financeDirty := true |}.
Proof.
  intros now u1 u2 x Hi Hs Ht. unfold parseFromJSON, toJSON.
  cbn [j_rate j_metadata j_id j_timestamp j_settings j_slug j_name
       j_last_update].
  rewrite traverse_rate_serialize, traverse_metadata_serialize. cbn [bind].
  rewrite (truthy_some _ Hi), (truthy_some _ Ht).
  unfold new_MajikSubscription. now rewrite !or_else_some.
Qed.

(** Claim C9, as amended. For every subscription [x] a program can hold
    whose creation timestamp is not the empty string,
    [parseFromJSON(toJSON(x))] returns a subscription with the id, slug,
    rate, COS list, capacity plan and stored finance snapshot of [x], and
    each cached finance getter answers on it what it answers on [x]. *)
Theorem parse_toJSON_roundtrip :
  forall env now u1 u2 x,
    reachable env x ->
    timestamp x <> "" ->
    exists x',
      parseFromJSON now u1 u2 (toJSON x) = Val x'
      /\ id x' = id x
      /\ slug x' = slug x
      /\ rate x' = rate x
      /\ cos (metadata x') = cos (metadata x)
      /\ capacityPlan (metadata x') = capacityPlan (metadata x)
      /\ finance (metadata x') = finance (metadata x)
      /\ forall pick, answer (cached pick x') = answer (cached pick x).
Proof.
  intros env now u1 u2 x R Ht.
  destruct (reachable_named env x R) as [Hi Hs].
  eexists. split; [apply parseFromJSON_toJSON; assumption|].
  cbn [id slug metadata]. repeat split.
  intros pick.
  rewrite (cached_answer pick x (reachable_coherent env x R)).
  rewrite cached_answer by (apply coherent_when_dirty; reflexivity).
  now rewrite (financeSnapshot_depends x).
Qed.

Lemma parse_toJSON_roundtrip_witness :
  reachable envUTC proPlan
  /\ timestamp proPlan <> ""
  /\ exists x',
      parseFromJSON later "Zp9G7K2a" "9zX4tF" (toJSON proPlan) = Val x'
      /\ id x' = id proPlan
      /\ slug x' = slug proPlan
      /\ rate x' = rate proPlan
      /\ cos (metadata x') = cos (metadata proPlan)
      /\ capacityPlan (metadata x') = capacityPlan (metadata proPlan)
      /\ finance (metadata x') = finance (metadata proPlan)
      /\ forall pick, answer (cached pick x') = answer (cached pick proPlan).
Proof.
  assert (R : reachable envUTC proPlan) by apply reach_new.
  assert (T : timestamp proPlan <> "") by discriminate.
  split; [exact R|]. split; [exact T|].
  exact (parse_toJSON_roundtrip envUTC later "Zp9G7K2a" "9zX4tF" proPlan R T).
Defined.

(** Claim C9 as stated fails: the constructor accepts the empty string as
    creation timestamp, [toJSON] writes it out, and [parseFromJSON] rejects
    the result, the empty string being falsy. *)
Lemma roundtrip_rejects_empty_timestamp :
  reachable envUTC blankStamp
  /\ timestamp blankStamp = ""
  /\ parseFromJSON later "Zp9G7K2a" "9zX4tF" (toJSON blankStamp)
     = Err "Missing required property: 'timestamp'"
  /\ ~ (exists x',
           parseFromJSON later "Zp9G7K2a" "9zX4tF" (toJSON blankStamp)
           = Val x').
Proof.
  split; [apply reach_new|]. split; [reflexivity|].
  split; [reflexivity|]. intros [x' H]. discriminate H.
Qed.

(** ** Month keys *)

Lemma digit_cases :
  forall k, is_digit_value k = true ->
            k = 0 \/ k = 1 \/ k = 2 \/ k = 3 \/ k = 4
            \/ k = 5 \/ k = 6 \/ k = 7 \/ k = 8 \/ k = 9.
Proof. unfold is_digit_value. intros k H. lia. Qed.

Ltac each_digit k H :=
  let C := fresh "C" in
  pose proof (digit_cases k H) as C;
  repeat (destruct C as [C|C]; [subst k|]); [..|subst k].

Lemma dch_in_range :
  forall k, is_digit_value k = true -> Regex.in_range "0" "9" (dch k) = true.
Proof. intros k H. each_digit k H; reflexivity. Qed.

Lemma dch_not_hyphen :
  forall k, is_digit_value k = true -> Ascii.eqb (dch k) "-" = false.
Proof. intros k H. each_digit k H; reflexivity. Qed.

Lemma dch_digit_of :
  forall k, is_digit_value k = true -> JS.digit_of (dch k) = Some k.
Proof. intros k H. each_digit k H; reflexivity. Qed.

Lemma dch_compare :
  forall j k,
    is_digit_value j = true -> is_digit_value k = true ->
    Ascii.compare (dch j) (dch k) = (j ?= k).
Proof. intros j k Hj Hk. each_digit j Hj; each_digit k Hk; reflexivity. Qed.

Lemma in_upfrom :
  forall n i y, In y (upfrom i n) <-> i <= y < i + Z.of_nat n.
Proof.
  induction n as [|n IH]; intros i y; cbn [upfrom In].
  - lia.
  - rewrite IH. lia.
Qed.

Lemma length_upfrom : forall n i, List.length (upfrom i n) = n.
Proof. induction n as [|n IH]; intros i; cbn; [reflexivity|]. now rewrite IH. Qed.

Lemma years_checked :
  forallb year_check (upfrom 1000 (Z.to_nat 9000)) = true.
Proof. vm_compute. reflexivity. Qed.

(** A plain year prints as its four digits. *)
Lemma plainYear_digits :
  forall y,
    plainYear y ->
    exists a b c d,
      JS.Zstr y
      = String (dch a) (String (dch b) (String (dch c) (String (dch d) "")))
      /\ y = 1000 * a + 100 * b + 10 * c + d
      /\ 1 <= a
      /\ is_digit_value a = true /\ is_digit_value b = true
      /\ is_digit_value c = true /\ is_digit_value d = true.
Proof.
  intros y [Hlo Hhi].
  pose proof years_checked as K. rewrite forallb_forall in K.
  specialize (K y).
  assert (I : In y (upfrom 1000 (Z.to_nat 9000))) by (apply in_upfrom; lia).
  specialize (K I). unfold year_check, year_in_digits in K.
  repeat (apply andb_prop in K; destruct K as [K ?]).
  apply String.eqb_eq in K.
  exists (y / 1000), (y / 100 mod 10), (y / 10 mod 10), (y mod 10).
  repeat split; try assumption; lia.
Qed.

(** A calendar month prints, padded, as its two digits. *)
Lemma calendarMonth_digits :
  forall m,
    calendarMonth m ->
    exists e f,
      JS.padStart2 (JS.Zstr m) = String (dch e) (String (dch f) "")
      /\ m = 10 * e + f
      /\ is_digit_value e = true /\ is_digit_value f = true.
Proof.
  intros m [Hlo Hhi].
  assert (C : m = 1 \/ m = 2 \/ m = 3 \/ m = 4 \/ m = 5 \/ m = 6 \/ m = 7
              \/ m = 8 \/ m = 9 \/ m = 10 \/ m = 11 \/ m = 12) by lia.
  exists (m / 10), (m mod 10).
  repeat (destruct C as [C|C]; [subst m|]); [..|subst m];
    repeat split; reflexivity.
Qed.

(** The seven characters of the key of a calendar month of a plain year. *)
Lemma monthKey_shape :
  forall y m,
    plainYear y -> calendarMonth m ->
    exists a b c d e f,
      monthKey y m
      = String (dch a) (String (dch b) (String (dch c) (String (dch d)
          (String "-" (String (dch e) (String (dch f) ""))))))
      /\ y = 1000 * a + 100 * b + 10 * c + d
      /\ m = 10 * e + f
      /\ 1 <= a
      /\ is_digit_value a = true /\ is_digit_value b = true
      /\ is_digit_value c = true /\ is_digit_value d = true
      /\ is_digit_value e = true /\ is_digit_value f = true.
Proof.
  intros y m Hy Hm.
  destruct (plainYear_digits y Hy) as [a [b [c [d [Sy [Ey [Ha [Da [Db [Dc Dd]]]]]]]]]].
  destruct (calendarMonth_digits m Hm) as [e [f [Sm [Em [De Df]]]]].
  exists a, b, c, d, e, f.
  unfold monthKey, formatYYYYMM, JS.numStr. rewrite Sy, Sm.
  repeat split; assumption.
Qed.

Ltac key_shape y m Hy Hm :=
  let a := fresh "a" in let b := fresh "b" in let c := fresh "c" in
  let d := fresh "d" in let e := fresh "e" in let f := fresh "f" in
  let S := fresh "S" in let Ey := fresh "Ey" in let Em := fresh "Em" in
  let Ha := fresh "Ha" in
  let Da := fresh "Da" in let Db := fresh "Db" in let Dc := fresh "Dc" in
  let Dd := fresh "Dd" in let De := fresh "De" in let Df := fresh "Df" in
  destruct (monthKey_shape y m Hy Hm)
    as [a [b [c [d [e [f [S [Ey [Em [Ha [Da [Db [Dc [Dd [De Df]]]]]]]]]]]]]]].

Lemma isValidYYYYMM_monthKey :
  forall y m,
    plainYear y -> calendarMonth m -> isValidYYYYMM (monthKey y m) = true.
Proof.
  intros y m Hy Hm. pose proof Hm as [Hlo Hhi]. key_shape y m Hy Hm.
  rewrite isValidYYYYMM_accepts, S.
  cbn -[Regex.in_range dch Ascii.eqb].
  rewrite !dch_in_range by assumption.
  each_digit e De; each_digit f Df; try lia; reflexivity.
Qed.

Lemma search_re_YYYYMM_inside :
  forall s, Regex.search re_YYYYMM false s = false.
Proof. induction s as [|c s IH]; cbn; auto. Qed.

Lemma test_re_YYYYMM_monthKey :
  forall y m,
    plainYear y -> calendarMonth m ->
    Regex.test re_YYYYMM (monthKey y m) = true.
Proof.
  intros y m Hy Hm. key_shape y m Hy Hm. rewrite S.
  unfold Regex.test. cbn -[Regex.in_range dch Ascii.eqb].
  rewrite !dch_in_range by assumption. reflexivity.
Qed.

Lemma split_monthKey :
  forall y m,
    plainYear y -> calendarMonth m ->
    map JS.Number (JS.split "-" (monthKey y m)) = [Some y; Some m].
Proof.
  intros y m Hy Hm. key_shape y m Hy Hm. rewrite S.
  cbn -[dch Ascii.eqb JS.Number]. rewrite !dch_not_hyphen by assumption.
  cbn -[dch JS.digit_of Z.mul Z.add]. rewrite !dch_digit_of by assumption.
  repeat f_equal; lia.
Qed.

Lemma fullYear_plain : forall y, 100 <= y -> JS.fullYear y = y.
Proof.
  intros y H. unfold JS.fullYear.
  destruct (Z.leb_spec y 99); [lia|]. now rewrite andb_false_r.
Qed.

Lemma monthStart_plain :
  forall y k,
    100 <= y ->
    JS.minMonth <= y * 12 + k <= JS.maxMonth ->
    JS.monthStart y k = Some ((y * 12 + k) / 12, (y * 12 + k) mod 12).
Proof.
  intros y k Hy [Hlo Hhi]. unfold JS.monthStart.
  rewrite (fullYear_plain y Hy).
  destruct (Z.leb_spec JS.minMonth (y * 12 + k)); [|lia].
  destruct (Z.leb_spec (y * 12 + k) JS.maxMonth); [|lia].
  reflexivity.
Qed.

Lemma divmod12 :
  forall y k, 0 <= k < 12 ->
              (y * 12 + k) / 12 = y /\ (y * 12 + k) mod 12 = k.
Proof. intros y k H. Z.div_mod_to_equations. lia. Qed.

Lemma yyyyMMToDate_monthKey :
  forall y m,
    plainYear y -> calendarMonth m ->
    yyyyMMToDate (monthKey y m) = Some (y, m - 1).
Proof.
  intros y m Hy Hm. unfold yyyyMMToDate.
  rewrite (split_monthKey y m Hy Hm). cbn [JS.nth_num nth_error JS.num_add
    option_map JS.DateUTC].
  destruct Hy, Hm. unfold JS.minMonth, JS.maxMonth in *.
  rewrite monthStart_plain by (unfold JS.minMonth, JS.maxMonth; lia).
  destruct (divmod12 y (m + -1)) as [-> ->]; [lia|].
  reflexivity.
Qed.

Lemma monthKey_not_empty :
  forall y m, monthKey y m <> "".
Proof.
  intros y m. unfold monthKey, formatYYYYMM.
  destruct (JS.numStr (Some y)); discriminate.
Qed.

Lemma normalizeStartDate_monthKey :
  forall env now y m,
    plainYear y -> calendarMonth m ->
    normalizeStartDate env now (Some (SDString (monthKey y m)))
    = Val (Some (y, m - 1)).
Proof.
  intros env now y m Hy Hm. unfold normalizeStartDate.
  pose proof (monthKey_not_empty y m) as N.
  destruct (monthKey y m) as [|c k] eqn:K; [congruence|]. rewrite <- K.
  rewrite (test_re_YYYYMM_monthKey y m Hy Hm).
  f_equal. exact (yyyyMMToDate_monthKey y m Hy Hm).
Qed.

(** [offsetMonthsToYYYYMM] of a well-formed key: the key of the month [i]
    months later. *)
Lemma offsetMonths_monthKey :
  forall env now y m i,
    plainYear y -> calendarMonth m ->
    0 <= i -> monthIndex y m + i <= JS.maxMonth ->
    offsetMonthsToYYYYMM env now (Some (SDString (monthKey y m))) i
    = Val (monthKeyAt (monthIndex y m + i)).
Proof.
  intros env now y m i Hy Hm Hi Hmax. unfold offsetMonthsToYYYYMM.
  rewrite (normalizeStartDate_monthKey env now y m Hy Hm).
  cbn [bind JS.getYear JS.getMonth option_map fst snd JS.num_add JS.DateUTC].
  destruct Hy, Hm. unfold monthIndex in *.
  rewrite monthStart_plain by (unfold JS.minMonth, JS.maxMonth in *; lia).
  unfold dateToYYYYMM, monthKeyAt, monthKey.
  replace (y * 12 + (m - 1 + i)) with (y * 12 + (m - 1) + i) by lia.
  reflexivity.
Qed.

Lemma monthsInPeriod_monthKey :
  forall ys ms ye me,
    plainYear ys -> calendarMonth ms -> plainYear ye -> calendarMonth me ->
    monthsInPeriod (monthKey ys ms) (monthKey ye me)
    = Some (monthIndex ye me - monthIndex ys ms + 1).
Proof.
  intros ys ms ye me Hys Hms Hye Hme. unfold monthsInPeriod.
  rewrite (yyyyMMToDate_monthKey ys ms Hys Hms),
    (yyyyMMToDate_monthKey ye me Hye Hme).
  unfold monthIndex. f_equal. lia.
Qed.

Lemma is_digit_value_bounds :
  forall k, is_digit_value k = true -> 0 <= k <= 9.
Proof. unfold is_digit_value. intros k H. lia. Qed.

Ltac digit_bounds :=
  repeat match goal with
         | H : is_digit_value _ = true |- _ =>
             apply is_digit_value_bounds in H
         end.

(** The code-unit order of keys is the order of the months. *)
Lemma compare_monthKey :
  forall y1 m1 y2 m2,
    plainYear y1 -> calendarMonth m1 -> plainYear y2 -> calendarMonth m2 ->
    String.compare (monthKey y1 m1) (monthKey y2 m2)
    = (monthIndex y1 m1 ?= monthIndex y2 m2).
Proof.
  intros y1 m1 y2 m2 Hy1 Hm1 Hy2 Hm2.
  key_shape y1 m1 Hy1 Hm1. key_shape y2 m2 Hy2 Hm2.
  rewrite S, S0. cbn [String.compare].
  rewrite !dch_compare by assumption.
  digit_bounds. unfold monthIndex. destruct Hm1, Hm2.
  change (Ascii.compare "-" "-") with Eq. cbv iota.
  destruct (Z.compare_spec a a0); [subst a0| |];
    [|symmetry; first [apply Z.compare_lt_iff | apply Z.compare_gt_iff]; lia..].
  destruct (Z.compare_spec b b0); [subst b0| |];
    [|symmetry; first [apply Z.compare_lt_iff | apply Z.compare_gt_iff]; lia..].
  destruct (Z.compare_spec c c0); [subst c0| |];
    [|symmetry; first [apply Z.compare_lt_iff | apply Z.compare_gt_iff]; lia..].
  destruct (Z.compare_spec d d0); [subst d0| |];
    [|symmetry; first [apply Z.compare_lt_iff | apply Z.compare_gt_iff]; lia..].
  destruct (Z.compare_spec e e0); [subst e0| |];
    [|symmetry; first [apply Z.compare_lt_iff | apply Z.compare_gt_iff]; lia..].
  destruct (Z.compare_spec f f0); [subst f0| |];
    [|symmetry; first [apply Z.compare_lt_iff | apply Z.compare_gt_iff]; lia..].
  symmetry. apply Z.compare_eq_iff. lia.
Qed.

Lemma str_gt_monthKey :
  forall y1 m1 y2 m2,
    plainYear y1 -> calendarMonth m1 -> plainYear y2 -> calendarMonth m2 ->
    JS.str_gt (monthKey y1 m1) (monthKey y2 m2)
    = (monthIndex y2 m2 <? monthIndex y1 m1).
Proof.
  intros y1 m1 y2 m2 Hy1 Hm1 Hy2 Hm2. unfold JS.str_gt, String.ltb.
  rewrite (compare_monthKey y2 m2 y1 m1) by assumption.
  unfold Z.ltb. destruct (monthIndex y2 m2 ?= monthIndex y1 m1); reflexivity.
Qed.

(** *** Keys of different months differ *)

Lemma Zstr_inj : forall a b, JS.Zstr a = JS.Zstr b -> a = b.
Proof.
  intros a b H. unfold JS.Zstr in H.
  assert (N : forall z, NilZero.int_of_string
                          (NilZero.string_of_int (Z.to_int z))
                        = Some (Z.to_int z)).
  { intros z. apply NilZero.isi; destruct z; cbn; try discriminate;
      intros E; inversion E as [E']; now apply Unsigned.to_uint_nonnil in E'. }
  pose proof (N a) as Na. rewrite H, N in Na.
  inversion Na as [E]. symmetry. now apply DecimalZ.to_int_inj.
Qed.

Lemma string_length_append :
  forall a x : string,
    String.length (a ++ x) = (String.length a + String.length x)%nat.
Proof. induction a as [|c a IH]; intros x; cbn; [reflexivity|]. now rewrite IH. Qed.

Lemma append_cancel :
  forall a b x y : string,
    String.length x = String.length y ->
    (a ++ x)%string = (b ++ y)%string -> a = b /\ x = y.
Proof.
  induction a as [|c a IH]; intros [|c' b] x y L H; cbn in H.
  - auto.
  - exfalso. apply (f_equal String.length) in H. cbn in H.
    rewrite string_length_append in H. lia.
  - exfalso. apply (f_equal String.length) in H. cbn in H.
    rewrite string_length_append in H. lia.
  - inversion H as [[Hc Hr]]. destruct (IH b x y L Hr) as [-> ->]. auto.
Qed.

Lemma dch_inj :
  forall j k,
    is_digit_value j = true -> is_digit_value k = true ->
    dch j = dch k -> j = k.
Proof.
  intros j k Hj Hk E.
  pose proof (dch_compare j k Hj Hk) as C. rewrite E in C.
  assert (R : Ascii.compare (dch k) (dch k) = Eq).
  { unfold Ascii.compare. apply N.compare_refl. }
  rewrite R in C. symmetry in C. now apply Z.compare_eq_iff in C.
Qed.

Lemma formatYYYYMM_inj :
  forall y1 m1 y2 m2,
    calendarMonth m1 -> calendarMonth m2 ->
    monthKey y1 m1 = monthKey y2 m2 -> y1 = y2 /\ m1 = m2.
Proof.
  intros y1 m1 y2 m2 H1 H2 E. unfold monthKey, formatYYYYMM, JS.numStr in E.
  destruct (calendarMonth_digits m1 H1) as [e1 [f1 [S1 [E1 [De1 Df1]]]]].
  destruct (calendarMonth_digits m2 H2) as [e2 [f2 [S2 [E2 [De2 Df2]]]]].
  rewrite S1, S2 in E.
  apply append_cancel in E; [|reflexivity].
  destruct E as [Ey Em]. apply Zstr_inj in Ey.
  inversion Em as [[He Hf]].
  apply dch_inj in He; [|assumption..]. apply dch_inj in Hf; [|assumption..].
  split; [exact Ey|]. lia.
Qed.

Lemma monthKeyAt_inj : forall t u, monthKeyAt t = monthKeyAt u -> t = u.
Proof.
  intros t u E. unfold monthKeyAt in E.
  apply formatYYYYMM_inj in E.
  - destruct E as [Hq Hr].
    rewrite (Z.div_mod t 12), (Z.div_mod u 12) by lia. lia.
  - unfold calendarMonth. pose proof (Z.mod_pos_bound t 12). lia.
  - unfold calendarMonth. pose proof (Z.mod_pos_bound u 12). lia.
Qed.

Lemma monthKeyAt_monthIndex :
  forall y m, calendarMonth m -> monthKeyAt (monthIndex y m) = monthKey y m.
Proof.
  intros y m [Hlo Hhi]. unfold monthKeyAt, monthIndex.
  destruct (divmod12 y (m - 1)) as [-> ->]; [lia|]. f_equal. lia.
Qed.

(** ** recomputeCapacityPeriod *)

Lemma recompute_default_mode :
  forall env now a b s,
    recomputeCapacityPeriod env now a b None s
    = recomputeCapacityPeriod env now a b (Some DEFAULT) s.
Proof. reflexivity. Qed.

(** The guards pass on two well-formed keys in order, over a plan that has
    an entry. *)
Lemma recompute_guards :
  forall ys ms ye me s,
    plainYear ys -> calendarMonth ms -> plainYear ye -> calendarMonth me ->
    monthIndex ys ms <= monthIndex ye me ->
    hasCapacity s = true ->
    negb (isValidYYYYMM (monthKey ys ms)) || negb (isValidYYYYMM (monthKey ye me))
    = false
    /\ negb (hasCapacity s) = false
    /\ JS.str_gt (monthKey ys ms) (monthKey ye me) = false.
Proof.
  intros ys ms ye me s Hys Hms Hye Hme Hle Hc.
  rewrite !isValidYYYYMM_monthKey, Hc, str_gt_monthKey by assumption.
  repeat split. apply Z.ltb_ge. exact Hle.
Qed.

Lemma resize_distribute_run :
  forall env now y m base,
    plainYear y -> calendarMonth m ->
    forall fuel i remainder,
      0 <= i ->
      monthIndex y m + i + Z.of_nat fuel <= JS.maxMonth + 1 ->
      resize_distribute env now (monthKey y m) base fuel i remainder
      = Val (map (fun j =>
                    {| month := monthKeyAt (monthIndex y m + j);
                       capacity :=
                         base + (if j - i <? remainder then 1 else 0);
                       adjustment := None |})
                 (upfrom i fuel)).
Proof.
  intros env now y m base Hy Hm.
  induction fuel as [|fuel IH]; intros i remainder Hi Hmax.
  - reflexivity.
  - cbn [resize_distribute upfrom map].
    rewrite (offsetMonths_monthKey env now y m i Hy Hm Hi) by lia.
    cbn [bind]. rewrite IH by lia. cbn [bind].
    f_equal. f_equal.
    + f_equal. rewrite Z.sub_diag.
      destruct (Z.ltb_spec 0 remainder), (Z.ltb_spec 0 remainder); lia.
    + apply map_ext. intros j. f_equal.
      replace (j - (i + 1) <? remainder - 1) with (j - i <? remainder);
        [reflexivity|].
      destruct (Z.ltb_spec (j - i) remainder),
        (Z.ltb_spec (j - (i + 1)) (remainder - 1)); lia.
Qed.

Lemma resize_default_run :
  forall env now y m old first,
    plainYear y -> calendarMonth m ->
    forall fuel i,
      0 <= i ->
      monthIndex y m + i + Z.of_nat fuel <= JS.maxMonth + 1 ->
      resize_default env now (monthKey y m) old first fuel i
      = Val (map (fun j =>
                    let source :=
                      if j <? Z.of_nat (List.length old)
                      then nth (Z.to_nat j) old first
                      else nth (Z.to_nat (Z.of_nat (List.length old) - 1))
                               old first in
                    {| month := monthKeyAt (monthIndex y m + j);
                       capacity := capacity source;
                       adjustment := adjustment source |})
                 (upfrom i fuel)).
Proof.
  intros env now y m old first Hy Hm.
  induction fuel as [|fuel IH]; intros i Hi Hmax.
  - reflexivity.
  - cbn [resize_default upfrom map].
    rewrite (offsetMonths_monthKey env now y m i Hy Hm Hi) by lia.
    cbn [bind]. rewrite IH by lia. reflexivity.
Qed.

(** How many of the positions [i .. i+n-1] lie below [r]. *)
Lemma sum_of_shares :
  forall (b r : Z) (n : nat) (i : Z),
    sumZ (map (fun j => b + (if j <? r then 1 else 0)) (upfrom i n))
    = Z.of_nat n * b + Z.max 0 (Z.min (i + Z.of_nat n) r - i).
Proof.
  intros b r. induction n as [|n IH]; intros i.
  - cbn. lia.
  - cbn [upfrom map sumZ]. rewrite IH.
    destruct (Z.ltb_spec i r); lia.
Qed.

Lemma even_shares_sum :
  forall total n,
    0 < n ->
    sumZ (map (even_share total n) (upfrom 0 (Z.to_nat n))) = total.
Proof.
  intros total n Hn. unfold even_share.
  rewrite (sum_of_shares (total / n) (total mod n)).
  pose proof (Z.mod_pos_bound total n Hn).
  pose proof (Z.div_mod total n). rewrite Z2Nat.id by lia. nia.
Qed.

Lemma nth_last :
  forall (A : Type) (l : list A) (d : A),
    nth (List.length l - 1) l d = last l d.
Proof.
  induction l as [|x [|y l] IH]; intros d; try reflexivity.
  specialize (IH d). cbn [List.length last] in *.
  rewrite Nat.sub_succ, Nat.sub_0_r in *. exact IH.
Qed.

Lemma period_bounds :
  forall ys ms ye me,
    plainYear ys -> calendarMonth ms -> plainYear ye -> calendarMonth me ->
    monthIndex ys ms <= monthIndex ye me ->
    0 < monthIndex ye me - monthIndex ys ms + 1
    /\ monthIndex ys ms + 0
       + Z.of_nat (Z.to_nat (monthIndex ye me - monthIndex ys ms + 1))
       <= JS.maxMonth + 1.
Proof.
  intros ys ms ye me [? ?] [? ?] [? ?] [? ?] Hle.
  unfold monthIndex, JS.maxMonth in *. split; [lia|].
  rewrite Z2Nat.id by lia. lia.
Qed.

(** Property X3. In [DISTRIBUTE] mode, over a plan of whole numbers (every
    capacity and adjustment an integer, as the plans of this model are)
    whose total effective capacity is not negative, and for two well-formed
    keys of plain years in order: the plan becomes one entry per month of
    the period, consecutive from [start], entry [j] holding
    [floor(total/n)] plus one for the first [total mod n] months and no
    adjustment, and the capacities add up to the total. (On a total that is
    not a whole number the remainder of the code is not one either, and the
    capacities do not add up to the total.) *)
Lemma recompute_distribute_spreads :
  forall env now s ys ms ye me,
    plainYear ys -> calendarMonth ms -> plainYear ye -> calendarMonth me ->
    monthIndex ys ms <= monthIndex ye me ->
    hasCapacity s = true ->
    0 <= totalCapacity s ->
    let n := monthIndex ye me - monthIndex ys ms + 1 in
    let newPlan :=
      consecutive (monthIndex ys ms) (Z.to_nat n)
        (fun j => (even_share (totalCapacity s) n j, None)) in
    recomputeCapacityPeriod env now (monthKey ys ms) (monthKey ye me)
      (Some DISTRIBUTE) s
    = Return (markFinanceDirty (updateTimestamp now (set_plan s (Some newPlan))))
    /\ monthsInPeriod (monthKey ys ms) (monthKey ye me) = Some n
    /\ List.length newPlan = Z.to_nat n
    /\ sumZ (map capacity newPlan) = totalCapacity s
    /\ Forall (fun c => adjustment c = None) newPlan.
Proof.
  intros env now s ys ms ye me Hys Hms Hye Hme Hle Hc Ht n newPlan.
  destruct (recompute_guards ys ms ye me s Hys Hms Hye Hme Hle Hc)
    as [G1 [G2 G3]].
  destruct (period_bounds ys ms ye me Hys Hms Hye Hme Hle) as [Hn Hb].
  fold n in Hn, Hb.
  assert (P : monthsInPeriod (monthKey ys ms) (monthKey ye me) = Some n)
    by (now apply monthsInPeriod_monthKey).
  split; [|split; [exact P|split; [|split]]].
  - unfold recomputeCapacityPeriod. rewrite G1, G2, G3. cbv zeta.
    rewrite P. cbn [rounds distribute_base distribute_remainder].
    rewrite (resize_distribute_run env now ys ms) by (assumption || lia).
    match goal with
    | |- context [Some (map ?f ?l)] =>
        replace (map f l) with newPlan; [reflexivity|]
    end.
    unfold newPlan, consecutive.
    apply map_ext. intros j. cbn [fst snd]. f_equal.
    unfold even_share. rewrite Z.rem_mod_nonneg by lia.
    now rewrite Z.sub_0_r.
  - unfold newPlan, consecutive. now rewrite length_map, length_upfrom.
  - unfold newPlan, consecutive. rewrite map_map. cbn [capacity fst].
    now apply even_shares_sum.
  - unfold newPlan, consecutive. apply Forall_forall. intros c Hin.
    apply in_map_iff in Hin. destruct Hin as [j [<- _]]. reflexivity.
Qed.

(** Claim C1, on the code. A plan whose effective total is negative (a
    month with churn, turned into a trial month): spread over three months
    in [DISTRIBUTE] mode, every month gets [floor(-2/3) = -1] and none gets
    the extra unit, because [%] yields [-2] where the claim's [mod] is [1].
    The new capacities add up to [-3], not to the old total [-2]. *)
Theorem distribute_changes_negative_total :
  capacityPlan (metadata churned) = Some [entry "2025-01" 10 (Some (-12))]
  /\ totalCapacity churned = -2
  /\ exists s',
      recomputeCapacityPeriod envUTC later "2025-01" "2025-03"
        (Some DISTRIBUTE) churned = Return s'
      /\ capacityPlan (metadata s')
         = Some [entry "2025-01" (-1) None; entry "2025-02" (-1) None;
                 entry "2025-03" (-1) None]
      /\ sumZ (map capacity (planOrEmpty s')) = -3
      /\ map (even_share (-2) 3) [0; 1; 2] = [0; -1; -1].
Proof.
  split; [reflexivity|]. split; [reflexivity|].
  eexists. split; [vm_compute; reflexivity|].
  repeat split.
Qed.

Lemma upfrom_succ :
  forall n i, upfrom (i + 1) n = map Z.succ (upfrom i n).
Proof.
  induction n as [|n IH]; intros i; cbn; [reflexivity|].
  now rewrite IH.
Qed.

Lemma nth_over_upfrom :
  forall (A : Type) (d : A) (l : list A) (k : nat),
    (k <= List.length l)%nat ->
    map (fun j => nth (Z.to_nat j) l d) (upfrom 0 k) = firstn k l.
Proof.
  intros A d. induction l as [|x l IH]; intros k Hk.
  - destruct k; [reflexivity|cbn in Hk; lia].
  - destruct k as [|k]; [reflexivity|].
    cbn [upfrom map firstn]. f_equal.
    rewrite (upfrom_succ k 0), map_map.
    rewrite <- (IH k) by (cbn in Hk; lia).
    apply map_ext_in. intros j Hj. apply in_upfrom in Hj.
    unfold Z.succ. rewrite Z2Nat.inj_add by lia. 
    replace (Z.to_nat j + Z.to_nat 1)%nat with (S (Z.to_nat j)) by lia.
    reflexivity.
Qed.

(** A copy no longer than the old plan is its beginning. *)
Lemma padded_copy_truncates :
  forall (B : Type) (h : MonthlyCapacity -> B) old first k,
    (k <= List.length old)%nat ->
    map (fun j => h (source_at old first j)) (upfrom 0 k)
    = firstn k (map h old).
Proof.
  intros B h old first k Hk.
  rewrite firstn_map, <- (nth_over_upfrom _ first old k Hk), map_map.
  apply map_ext_in. intros j Hj. apply in_upfrom in Hj.
  unfold source_at. destruct (Z.ltb_spec j (Z.of_nat (List.length old))); [reflexivity|lia].
Qed.

(** What the loop of the [DEFAULT] mode does, for two well-formed keys of
    plain years (1000..9999) in order and a plan with at least one entry:
    the plan becomes one entry per month of the period, consecutive from
    [start]; entry [j] carries the capacity and adjustment of entry [j] of
    the existing plan in the order it is stored when [j] is below the old
    length, and of the last stored entry otherwise; when the period is not
    longer than the old plan, the capacities and adjustments are those of
    the first entries of the old plan, unaltered. *)
Lemma recompute_default_copies_by_position :
  forall env now s ys ms ye me first rest,
    plainYear ys -> calendarMonth ms -> plainYear ye -> calendarMonth me ->
    monthIndex ys ms <= monthIndex ye me ->
    capacityPlan (metadata s) = Some (first :: rest) ->
    let old := first :: rest in
    let n := monthIndex ye me - monthIndex ys ms + 1 in
    let newPlan := padded_copy old first (monthIndex ys ms) (Z.to_nat n) in
    recomputeCapacityPeriod env now (monthKey ys ms) (monthKey ye me)
      (Some DEFAULT) s
    = Return (markFinanceDirty (updateTimestamp now (set_plan s (Some newPlan))))
    /\ monthsInPeriod (monthKey ys ms) (monthKey ye me) = Some n
    /\ List.length newPlan = Z.to_nat n
    /\ (n <= Z.of_nat (List.length old) ->
        map capacity newPlan = firstn (Z.to_nat n) (map capacity old)
        /\ map adjustment newPlan = firstn (Z.to_nat n) (map adjustment old)).
Proof.
  intros env now s ys ms ye me first rest Hys Hms Hye Hme Hle Hp old n newPlan.
  assert (Hc : hasCapacity s = true) by (unfold hasCapacity; now rewrite Hp).
  destruct (recompute_guards ys ms ye me s Hys Hms Hye Hme Hle Hc)
    as [G1 [G2 G3]].
  destruct (period_bounds ys ms ye me Hys Hms Hye Hme Hle) as [Hn Hb].
  fold n in Hn, Hb.
  assert (P : monthsInPeriod (monthKey ys ms) (monthKey ye me) = Some n)
    by (now apply monthsInPeriod_monthKey).
  split; [|split; [exact P|split]].
  - unfold recomputeCapacityPeriod. rewrite G1, G2, G3. cbv zeta.
    rewrite P. unfold planOrEmpty. rewrite Hp. cbn [rounds].
    rewrite (resize_default_run env now ys ms) by (assumption || lia).
    match goal with
    | |- context [Some (map ?f ?l)] =>
        replace (map f l) with newPlan; [reflexivity|]
    end.
    unfold newPlan, padded_copy, consecutive.
    apply map_ext. intros j. cbv zeta. cbn [fst snd]. unfold source_at.
    fold old. rewrite <- (nth_last _ old first).
    replace (Z.to_nat (Z.of_nat (List.length old) - 1))
      with (List.length old - 1)%nat by lia.
    reflexivity.
  - unfold newPlan, padded_copy, consecutive.
    now rewrite length_map, length_upfrom.
  - intros Hshort. unfold newPlan, padded_copy, consecutive.
    rewrite !map_map. cbn [capacity adjustment fst snd].
    split; apply (padded_copy_truncates _ _ old first); lia.
Qed.

Lemma recompute_default_copies_by_position_instance :
  plainYear 2025 /\ calendarMonth 1 /\ calendarMonth 3
  /\ monthIndex 2025 1 <= monthIndex 2025 3
  /\ capacityPlan (metadata unsorted)
     = Some [entry "2025-02" 20 None; entry "2025-01" 10 None]
  /\ recomputeCapacityPeriod envUTC later (monthKey 2025 1) (monthKey 2025 3)
       (Some DEFAULT) unsorted
     = Return (markFinanceDirty (updateTimestamp later
         (set_plan unsorted
            (Some (padded_copy
                     [entry "2025-02" 20 None; entry "2025-01" 10 None]
                     (entry "2025-02" 20 None) (monthIndex 2025 1)
                     (Z.to_nat (monthIndex 2025 3 - monthIndex 2025 1 + 1))))))).
Proof.
  assert (Y : plainYear 2025) by (unfold plainYear; lia).
  assert (M1 : calendarMonth 1) by (unfold calendarMonth; lia).
  assert (M3 : calendarMonth 3) by (unfold calendarMonth; lia).
  assert (L : monthIndex 2025 1 <= monthIndex 2025 3)
    by (unfold monthIndex; lia).
  assert (P : capacityPlan (metadata unsorted)
              = Some [entry "2025-02" 20 None; entry "2025-01" 10 None])
    by reflexivity.
  repeat (split; [assumption|]).
  exact (proj1 (recompute_default_copies_by_position envUTC later unsorted
                  2025 1 2025 3 _ _ Y M1 Y M3 L P)).
Defined.

(** On a plan that is stored in the order of its months, the stored order
    is the sorted one, and the [DEFAULT] mode copies the plan sorted by
    month, as the other methods that walk the plan do. *)
Lemma recompute_default_on_a_sorted_plan :
  forall env now s ys ms ye me first rest,
    plainYear ys -> calendarMonth ms -> plainYear ye -> calendarMonth me ->
    monthIndex ys ms <= monthIndex ye me ->
    capacityPlan (metadata s) = Some (first :: rest) ->
    sortByMonth (first :: rest) = first :: rest ->
    let n := monthIndex ye me - monthIndex ys ms + 1 in
    recomputeCapacityPeriod env now (monthKey ys ms) (monthKey ye me)
      (Some DEFAULT) s
    = Return (markFinanceDirty (updateTimestamp now
        (set_plan s
           (Some (padded_copy (sortByMonth (first :: rest)) first
                    (monthIndex ys ms) (Z.to_nat n)))))).
Proof.
  intros env now s ys ms ye me first rest Hys Hms Hye Hme Hle Hp Hs n.
  rewrite Hs.
  exact (proj1 (recompute_default_copies_by_position env now s ys ms ye me
                  first rest Hys Hms Hye Hme Hle Hp)).
Qed.

(** Claim C2, on the code. The [DEFAULT] mode copies the plan by stored
    position and does not sort it by month first. February was added
    before January; resized to January through March, January gets the 20
    units of February and February the 10 of January, so no month keeps
    its units. The copy of the plan sorted by month, which the claim
    describes, gives January its 10 and February its 20, and repeats the
    20 of February, the last month, for March. *)
Theorem recompute_default_ignores_month_order :
  capacityPlan (metadata unsorted)
  = Some [entry "2025-02" 20 None; entry "2025-01" 10 None]
  /\ sortByMonth (planOrEmpty unsorted)
     = [entry "2025-01" 10 None; entry "2025-02" 20 None]
  /\ padded_copy (sortByMonth (planOrEmpty unsorted))
       (entry "2025-01" 10 None) (monthIndex 2025 1) 3
     = [entry "2025-01" 10 None; entry "2025-02" 20 None;
        entry "2025-03" 20 None]
  /\ exists s',
      recomputeCapacityPeriod envUTC later "2025-01" "2025-03"
        (Some DEFAULT) unsorted = Return s'
      /\ capacityPlan (metadata s')
         = Some [entry "2025-01" 20 None; entry "2025-02" 10 None;
                 entry "2025-03" 10 None]
      /\ capacityPlan (metadata s')
         <> Some (padded_copy (sortByMonth (planOrEmpty unsorted))
                    (entry "2025-01" 10 None) (monthIndex 2025 1) 3).
Proof.
  split; [reflexivity|]. split; [reflexivity|]. split; [reflexivity|].
  eexists. split; [vm_compute; reflexivity|].
  split; [reflexivity|]. vm_compute. discriminate.
Qed.

(** A key of a year below 1000 is well formed for [isValidYYYYMM], yet its
    year does not print with four digits: resizing from ["0100-01"] yields
    the month ["100-01"]. (And a year below 100 is read as 19xx.) *)
Lemma recompute_from_year_100 :
  isValidYYYYMM "0100-01" = true
  /\ exists s',
      recomputeCapacityPeriod envUTC later "0100-01" "0100-02"
        (Some DEFAULT) unsorted = Return s'
      /\ map month (planOrEmpty s') = ["100-01"; "100-02"]
      /\ yyyyMMToDate "0099-12" = Some (1999, 11).
Proof.
  split; [reflexivity|]. eexists. split; [vm_compute; reflexivity|].
  split; reflexivity.
Qed.

(** ** generateCapacityPlan *)

Lemma Math_round_comp :
  forall p q : Q, (p == q)%Q -> Math_round p = Math_round q.
Proof.
  intros p q H. unfold Math_round. apply Qfloor_comp. now rewrite H.
Qed.

Lemma Qle_bool_false :
  forall g : Q, Qle_bool g 0 = false -> (0 < g)%Q.
Proof.
  intros g H. apply Qnot_le_lt. intros C. apply Qle_bool_iff in C. congruence.
Qed.

(** A whole number is its own rounding. *)
Lemma Math_round_whole :
  forall z : Z, Math_round (inject_Z z) = z.
Proof.
  intros z. unfold Math_round, Qfloor, Qplus, inject_Z.
  cbn [Qnum Qden]. change (Z.pos (1 * 2)) with 2.
  change (Z.pos 2) with 2. change (Z.pos 1) with 1.
  Z.div_mod_to_equations. lia.
Qed.

(** One more month multiplies by [1 + g], or by nothing when [g] is 0. *)
Lemma growth_step :
  forall (u g : Q) (k : Z),
    (0 <= g)%Q -> 0 <= k ->
    ((if Qle_bool g 0 then u else u * (1 + g)) * (1 + g) ^ k
     == u * (1 + g) ^ (k + 1))%Q.
Proof.
  intros u g k Hg Hk.
  assert (NZ : ~ (1 + g == 0)%Q).
  { intros E. assert (0 < 1 + g)%Q.
    { apply Qlt_le_trans with (1 + 0)%Q; [reflexivity|].
      apply Qplus_le_r. exact Hg. }
    rewrite E in H. discriminate H. }
  rewrite (Qpower_plus _ k 1 NZ).
  destruct (Qle_bool g 0) eqn:E.
  - apply Qle_bool_iff in E.
    assert (Z : (g == 0)%Q) by (apply Qle_antisym; assumption).
    rewrite Z. change ((1 + 0) ^ 1)%Q with 1%Q. ring.
  - change ((1 + g) ^ 1)%Q with (1 + g)%Q. ring.
Qed.

Lemma generate_from_run :
  forall (g : Q) y mi,
    (0 <= g)%Q -> 100 <= y ->
    forall fuel i u,
      0 <= i ->
      JS.minMonth <= y * 12 + mi + i ->
      y * 12 + mi + i + Z.of_nat fuel <= JS.maxMonth + 1 ->
      generate_from fuel (Some (y, mi)) g i u
      = map (fun j =>
               {| month := monthKeyAt (y * 12 + mi + j);
                  capacity := Math_round (u * (1 + g) ^ (j - i));
                  adjustment := None |})
            (upfrom i fuel).
Proof.
  intros g y mi Hg Hy.
  induction fuel as [|fuel IH]; intros i u Hi Hlo Hhi.
  - reflexivity.
  - cbn [generate_from upfrom map]. f_equal.
    + cbn [JS.getYear JS.getMonth option_map fst snd JS.num_add JS.DateLocal
           JS.DateUTC].
      rewrite monthStart_plain by (try assumption; lia).
      cbn [JS.getYear JS.getMonth option_map fst snd JS.num_add].
      replace (y * 12 + (mi + i)) with (y * 12 + mi + i) by lia.
      f_equal. apply Math_round_comp. rewrite Z.sub_diag.
      change ((1 + g) ^ 0)%Q with 1%Q. ring.
    + rewrite IH by lia. apply map_ext_in. intros j Hj.
      apply in_upfrom in Hj. f_equal. apply Math_round_comp.
      rewrite (growth_step u g (j - (i + 1)) Hg) by lia.
      replace (j - (i + 1) + 1) with (j - i) by lia. reflexivity.
Qed.

Lemma setCapacity_check_passes :
  forall plan,
    Forall (fun c => isValidYYYYMM (month c) = true) plan ->
    setCapacity_check plan = Val tt.
Proof.
  unfold setCapacity_check. intros plan H.
  assert (G : forall l, Forall (fun c => isValidYYYYMM (month c) = true) l ->
              fold_left
                (fun acc c =>
                   _ <- acc ;;
                   if isValidYYYYMM (month c) then Val tt
                   else Err ("Invalid month: " ++ month c))
                l (Val tt) = Val tt).
  { induction l as [|c l IH]; intros F; [reflexivity|].
    inversion F; subst. cbn [fold_left bind].
    match goal with E : isValidYYYYMM _ = true |- _ => rewrite E end.
    now apply IH. }
  now apply G.
Qed.

Lemma isValidYYYYMM_monthKeyAt :
  forall t, 1000 * 12 <= t <= 9999 * 12 + 11 ->
            isValidYYYYMM (monthKeyAt t) = true.
Proof.
  intros t H. unfold monthKeyAt.
  pose proof (Z.mod_pos_bound t 12).
  apply isValidYYYYMM_monthKey.
  - unfold plainYear. Z.div_mod_to_equations. lia.
  - unfold calendarMonth. lia.
Qed.

(** Property X4. Where local time is not behind UTC, from a start that
    normalises to a month of a plain year, for a plan that ends by December
    9999, and on inputs whose products are exact in double precision (a
    growth rate of 0 with any amount, or a whole amount and a whole rate
    whose product for the last month is at most 2^53): [months] entries at
    consecutive months from the start month, entry [j] holding
    [round(amount * (1+g)^j)] and no adjustment. With a growth rate of 0
    that is [round(amount)] in every month; with whole numbers it is
    [amount * (1+g)^j]. (For a rate such as 0.15 the code rounds every
    product to a double before it goes on, and the entry can differ by one
    from the rounded exact product.) *)
Lemma generate_plan_east_of_UTC :
  forall env now months amount0 g startDate s y mi,
    localBehindUTC env = false ->
    isInteger months = true -> (0 < months)%Q ->
    (0 <= amount0)%Q -> (0 <= g)%Q ->
    exactGrowth amount0 g (Qfloor months) ->
    normalizeStartDate env now startDate = Val (Some (y, mi)) ->
    plainYear y -> 0 <= mi <= 11 ->
    y * 12 + mi + Qfloor months - 1 <= 9999 * 12 + 11 ->
    generateCapacityPlan env now months amount0 (Some g) startDate s
    = Return (markFinanceDirty (updateTimestamp now
        (set_plan s
           (Some (consecutive (y * 12 + mi) (Z.to_nat (Qfloor months))
                    (fun j => (Math_round (amount0 * (1 + g) ^ j), None)))))))
    /\ ((g == 0)%Q ->
        forall j, 0 <= j ->
                  Math_round (amount0 * (1 + g) ^ j) = Math_round amount0)
    /\ (forall a k,
           (amount0 == inject_Z a)%Q -> (g == inject_Z k)%Q ->
           forall j, 0 <= j ->
                     Math_round (amount0 * (1 + g) ^ j) = a * (1 + k) ^ j).
Proof.
  intros env now months amount0 g startDate s y mi Htz Hi Hpos Ha Hg _ Hn
    [Hylo Hyhi] Hmi Hend.
  split; [|split].
  - unfold generateCapacityPlan.
    assert (G : negb (isInteger months) || Qle_bool months 0 = false)
      by (apply positive_integer_guard; auto).
    rewrite G.
    apply Qle_bool_iff in Ha. apply Qle_bool_iff in Hg. rewrite Ha, Hg.
    cbn [negb]. rewrite Hn, Htz. cbn [JS.localOfUTCMonthStart].
    apply Qle_bool_iff in Hg.
    rewrite generate_from_run;
      try assumption; try (unfold JS.minMonth, JS.maxMonth; lia).
    match goal with
    | |- setCapacity _ ?p _ = _ =>
        replace p with
          (consecutive (y * 12 + mi) (Z.to_nat (Qfloor months))
             (fun j => (Math_round (amount0 * (1 + g) ^ j), None)))
    end.
    + unfold setCapacity. rewrite setCapacity_check_passes; [reflexivity|].
      apply Forall_forall. intros c Hc. unfold consecutive in Hc.
      apply in_map_iff in Hc. destruct Hc as [j [<- Hj]].
      apply in_upfrom in Hj. cbn [month].
      apply isValidYYYYMM_monthKeyAt. lia.
    + unfold consecutive. apply map_ext. intros j. cbn [fst snd].
      now rewrite Z.sub_0_r.
  - intros Z j Hj. apply Math_round_comp. rewrite Z.
    rewrite Qplus_0_r, Qpower_1. ring.
  - intros a k Ea Ek j Hj.
    rewrite <- (Math_round_whole (a * (1 + k) ^ j)).
    apply Math_round_comp. rewrite Ea, Ek.
    rewrite inject_Z_mult, (Zpower_Qpower (1 + k) j Hj), inject_Z_plus.
    reflexivity.
Qed.

(** Claim C8, on the code. The start month is read back with the local
    getters ([getFullYear], [getMonth]) of a date that is midnight UTC on
    the first of the month. In a zone behind UTC that instant belongs to the
    month before, so the plan for a start of ["2025-01"] begins at
    ["2024-12"]; the same call in UTC begins at ["2025-01"]. *)
Theorem generate_starts_a_month_early_behind_UTC :
  normalizeStartDate envWest later (Some (SDString "2025-01"))
  = Val (Some (2025, 0))
  /\ (exists s',
         generateCapacityPlan envWest later 3 100 (Some (1 # 10))
           (Some (SDString "2025-01")) proPlan = Return s'
         /\ capacityPlan (metadata s')
            = Some [entry "2024-12" 100 None; entry "2025-01" 110 None;
                    entry "2025-02" 121 None])
  /\ (exists s',
         generateCapacityPlan envUTC later 3 100 (Some (1 # 10))
           (Some (SDString "2025-01")) proPlan = Return s'
         /\ capacityPlan (metadata s')
            = Some [entry "2025-01" 100 None; entry "2025-02" 110 None;
                    entry "2025-03" 121 None]).
Proof.
  split; [reflexivity|].
  split; eexists; (split; [vm_compute; reflexivity|reflexivity]).
Qed.

(** ** One entry per month *)

Lemma unique_transfer :
  forall s s',
    planOrEmpty s' = planOrEmpty s -> uniqueMonths s -> uniqueMonths s'.
Proof. unfold uniqueMonths. intros s s' E H. now rewrite E. Qed.

Lemma months_of_store :
  forall (l : list MonthlyCapacity) i x d,
    month x = month (nth i l d) -> months_of (store i x l) = months_of l.
Proof.
  induction l as [|y l IH]; intros i x d H; destruct i; cbn in *;
    try reflexivity.
  - now rewrite H.
  - f_equal. now apply (IH i x d).
Qed.

Lemma remove_at_incl :
  forall (A : Type) (l : list A) i x, In x (remove_at i l) -> In x l.
Proof.
  induction l as [|y l IH]; intros i x H; destruct i; cbn in *; auto.
  destruct H as [H|H]; auto. right. now apply (IH i).
Qed.

Lemma months_of_remove_at :
  forall (l : list MonthlyCapacity) i,
    months_of (remove_at i l) = remove_at i (months_of l).
Proof.
  induction l as [|y l IH]; intros i; destruct i; cbn; try reflexivity.
  f_equal. apply IH.
Qed.

Lemma NoDup_remove_at :
  forall (A : Type) (l : list A) i, NoDup l -> NoDup (remove_at i l).
Proof.
  induction l as [|y l IH]; intros i H; destruct i; cbn; auto.
  - now inversion H.
  - inversion H; subst. constructor; [|now apply IH].
    intros C. apply remove_at_incl in C. contradiction.
Qed.

Lemma existsb_month :
  forall (l : list MonthlyCapacity) m,
    existsb (fun c => String.eqb (month c) m) l = true <-> In m (months_of l).
Proof.
  intros l m. rewrite existsb_exists. unfold months_of. rewrite in_map_iff.
  split; intros [c [H1 H2]]; exists c.
  - apply String.eqb_eq in H2. auto.
  - split; [exact H2|]. now apply String.eqb_eq.
Qed.

Lemma NoDup_snoc :
  forall (A : Type) (l : list A) x, NoDup l -> ~ In x l -> NoDup (l ++ [x]).
Proof.
  intros A l x H N. apply NoDup_app; [exact H|repeat constructor; auto|].
  intros a Ha [<-|[]]. contradiction.
Qed.

Lemma insert_by_month_perm :
  forall x l, Permutation (insert_by_month x l) (x :: l).
Proof.
  intros x. induction l as [|y l IH]; cbn; [reflexivity|].
  destruct (month_leb x y); [reflexivity|].
  rewrite IH. apply perm_swap.
Qed.

Lemma sortByMonth_perm : forall l, Permutation (sortByMonth l) l.
Proof.
  induction l as [|x l IH]; cbn; [reflexivity|].
  rewrite insert_by_month_perm. now constructor.
Qed.

Lemma months_of_trial_first :
  forall n l, months_of (trial_first n l) = months_of l.
Proof.
  induction n as [|n IH]; intros [|c l]; cbn; try reflexivity.
  f_equal. apply IH.
Qed.

Lemma NoDup_keys_upfrom :
  forall T n i, NoDup (map (fun j => monthKeyAt (T + j)) (upfrom i n)).
Proof.
  intros T. induction n as [|n IH]; intros i; cbn; constructor; [|apply IH].
  intros C. apply in_map_iff in C. destruct C as [j [E Hj]].
  apply monthKeyAt_inj in E. apply in_upfrom in Hj. lia.
Qed.

(** A date that is no date prints as a key the validator refuses. *)
Lemma NaN_key_refused : isValidYYYYMM (formatYYYYMM None None) = false.
Proof. reflexivity. Qed.

(** The month [offsetMonthsToYYYYMM] returns, when it returns, is the key
    of the month it counted to. *)
Lemma offsetMonths_returns :
  forall env now input i k,
    offsetMonthsToYYYYMM env now input i = Val k ->
    k = monthKeyAt (normalizedMonth env now input + i).
Proof.
  intros env now input i k H. unfold offsetMonthsToYYYYMM in H.
  unfold normalizedMonth.
  destruct (normalizeStartDate env now input) as [[[y m]|]|] eqn:N;
    cbn in H; try discriminate.
  unfold JS.monthStart in H.
  destruct (_ && _); cbn in H; [|discriminate].
  inversion H. unfold monthKeyAt, monthKey.
  now replace (JS.fullYear y * 12 + m + i) with (JS.fullYear y * 12 + (m + i))
    by lia.
Qed.

Lemma resize_default_months :
  forall env now start old first fuel i p,
    resize_default env now start old first fuel i = Val p ->
    months_of p
    = map (fun j => monthKeyAt
                      (normalizedMonth env now (Some (SDString start)) + j))
          (upfrom i fuel).
Proof.
  intros env now start old first.
  induction fuel as [|fuel IH]; intros i p H; cbn [resize_default] in H.
  - inversion H. reflexivity.
  - destruct (offsetMonthsToYYYYMM _ _ _ i) as [k|] eqn:O; cbn [bind] in H;
      [|discriminate].
    destruct (resize_default _ _ _ _ _ fuel (i + 1)) as [r|] eqn:R;
      cbn [bind] in H; [|discriminate].
    inversion H; subst. apply offsetMonths_returns in O. subst k.
    cbn [months_of map month upfrom]. f_equal. now apply IH.
Qed.

Lemma resize_distribute_months :
  forall env now start base fuel i remainder p,
    resize_distribute env now start base fuel i remainder = Val p ->
    months_of p
    = map (fun j => monthKeyAt
                      (normalizedMonth env now (Some (SDString start)) + j))
          (upfrom i fuel).
Proof.
  intros env now start base.
  induction fuel as [|fuel IH]; intros i remainder p H;
    cbn [resize_distribute] in H.
  - inversion H. reflexivity.
  - destruct (offsetMonthsToYYYYMM _ _ _ i) as [k|] eqn:O; cbn [bind] in H;
      [|discriminate].
    destruct (resize_distribute _ _ _ _ fuel (i + 1) _) as [r|] eqn:R;
      cbn [bind] in H; [|discriminate].
    inversion H; subst. apply offsetMonths_returns in O. subst k.
    cbn [months_of map month upfrom]. f_equal. now apply (IH _ _ _ R).
Qed.

(** A generated plan that [setCapacity] accepts has distinct months: every
    accepted key is the key of the month its position counts to. *)
Lemma generate_from_months :
  forall fuel start g i u,
    Forall (fun c => isValidYYYYMM (month c) = true)
           (generate_from fuel start g i u) ->
    exists T,
      months_of (generate_from fuel start g i u)
      = map (fun j => monthKeyAt (T + j)) (upfrom i fuel).
Proof.
  intros fuel start g.
  exists (match start with Some (y, m) => JS.fullYear y * 12 + m | None => 0 end).
  revert i u H.
  induction fuel as [|fuel IH]; intros i u H; [reflexivity|].
  cbn [generate_from] in H |- *. inversion H as [|c l Hc Hl]; subst.
  cbn [months_of map month upfrom]. f_equal; [|now apply IH].
  cbn [month] in Hc.
  destruct start as [[y m]|].
  - cbn [JS.getYear JS.getMonth option_map fst snd JS.num_add JS.DateLocal
         JS.DateUTC] in Hc |- *.
    unfold JS.monthStart in Hc |- *.
    destruct (_ && _).
    + cbn [JS.getYear JS.getMonth option_map fst snd JS.num_add].
      unfold monthKeyAt, monthKey, formatYYYYMM.
      now replace (JS.fullYear y * 12 + m + i)
        with (JS.fullYear y * 12 + (m + i)) by lia.
    + cbn in Hc. discriminate.
  - cbn in Hc. discriminate.
Qed.

Lemma setCapacity_check_valid :
  forall plan,
    setCapacity_check plan = Val tt ->
    Forall (fun c => isValidYYYYMM (month c) = true) plan.
Proof.
  unfold setCapacity_check. intros plan.
  assert (G : forall l acc,
             fold_left
               (fun acc c =>
                  _ <- acc ;;
                  if isValidYYYYMM (month c) then Val tt
                  else Err ("Invalid month: " ++ month c))
               l acc = Val tt ->
             Forall (fun c => isValidYYYYMM (month c) = true) l).
  { induction l as [|c l IH]; intros acc H; [constructor|].
    cbn [fold_left] in H.
    destruct acc as [[]|m]; cbn [bind] in H.
    - destruct (isValidYYYYMM (month c)) eqn:E.
      + constructor; [exact E|]. now apply (IH (Val tt)).
      + rewrite fold_left_Err in H. discriminate.
    - rewrite fold_left_Err in H. discriminate. }
  apply G.
Qed.

Lemma setCapacity_unique :
  forall now p s,
    uniqueMonths s ->
    (setCapacity_check p = Val tt -> NoDup (months_of p)) ->
    uniqueMonths (final (setCapacity now p s)).
Proof.
  intros now p s H K. unfold setCapacity.
  destruct (setCapacity_check p) as [[]|]; cbn [final]; [|exact H].
  unfold uniqueMonths. cbn. now apply K.
Qed.

Lemma updateCOS_keeps_plan :
  forall now i u s,
    planOrEmpty (final (updateCOS now i u s)) = planOrEmpty s.
Proof.
  intros now i u s. unfold updateCOS.
  destruct (findIndex _ _); [|reflexivity]. cbv zeta.
  destruct (u_quantity u) as [q|];
    [destruct (q <=? 0); [reflexivity|]|];
    (destruct (u_unitCost u) as [uc|];
     [destruct (assertCurrency _ uc)|]; reflexivity).
Qed.

Lemma recomputeFinance_keeps_plan :
  forall s s', recomputeFinance s = Val s' -> planOrEmpty s' = planOrEmpty s.
Proof.
  intros s s' H. apply recomputeFinance_keeps_inputs in H.
  destruct H as [_ [_ H]]. unfold planOrEmpty. now rewrite H.
Qed.

(** Every method but [setCapacity] keeps a plan of distinct months a plan
    of distinct months, whether it returns or throws. *)
Lemma exec_keeps_unique_months :
  forall env now genUID c s,
    (forall p, c <> SetCapacity p) ->
    uniqueMonths s ->
    uniqueMonths (final (exec env now genUID c s)).
Proof.
  intros env now genUID c s Hc H.
  destruct c; cbn [exec];
    try (exfalso; eapply Hc; reflexivity);
    try (unfold setName, setRate, setRateUnit, setRateAmount, setCategory,
         setDescription, setDescriptionText, setDescriptionHTML,
         setDescriptionSEO, setType, addCOS, pushCOS, setCOS, removeCOS,
         clearCostBreakdown;
         split_guards; cbn [final];
         first [exact H | now apply (unique_transfer s)]).
  - (* updateCOS *)
    eapply unique_transfer; [apply updateCOS_keeps_plan|exact H].
  - (* generateCapacityPlan *)
    unfold generateCapacityPlan.
    destruct (_ || _); [exact H|].
    destruct (negb _); [exact H|].
    destruct (negb _); [exact H|].
    destruct (normalizeStartDate _ _ _); [|exact H].
    apply setCapacity_unique; [exact H|]. intros V.
    apply setCapacity_check_valid in V.
    destruct (generate_from_months _ _ _ _ _ V) as [T ->].
    apply NoDup_keys_upfrom.
  - (* normalizeCapacityUnits *)
    unfold normalizeCapacityUnits.
    destruct (_ <? 0); [exact H|].
    destruct (capacityPlan (metadata s)) as [[|a [|b l]]|] eqn:P;
      cbn [final]; try exact H.
    unfold uniqueMonths, planOrEmpty in *. rewrite P in H. cbn.
    cbn in H. rewrite map_map. cbn [month]. exact H.
  - (* recomputeCapacityPeriod *)
    unfold recomputeCapacityPeriod.
    destruct (_ || _); [exact H|].
    destruct (negb _); [exact H|].
    destruct (JS.str_gt _ _); [exact H|].
    cbv zeta.
    destruct (match mode with Some m => m | None => DEFAULT end).
    + destruct (planOrEmpty s) as [|first rest] eqn:P.
      * cbn [final]. unfold uniqueMonths. cbn. constructor.
      * destruct (resize_default _ _ _ _ _ _ _) as [p|] eqn:R;
          cbn [final]; [|exact H].
        unfold uniqueMonths. change (NoDup (months_of p)).
        rewrite (resize_default_months _ _ _ _ _ _ _ _ R).
        apply NoDup_keys_upfrom.
    + destruct (resize_distribute _ _ _ _ _ _ _) as [p|] eqn:R;
        cbn [final]; [|exact H].
      unfold uniqueMonths. change (NoDup (months_of p)).
      rewrite (resize_distribute_months _ _ _ _ _ _ _ _ R).
      apply NoDup_keys_upfrom.
  - (* addCapacity *)
    unfold addCapacity.
    destruct (negb _); [exact H|].
    destruct (existsb _ _) eqn:E; cbn [final].
    + now apply (unique_transfer s).
    + unfold uniqueMonths. cbn. unfold months_of. rewrite map_app.
      apply NoDup_snoc; [exact H|]. cbn [map month].
      intros C. apply existsb_month in C. cbn in E. congruence.
  - (* updateCapacityUnits *)
    unfold updateCapacityUnits.
    destruct (negb _); [exact H|].
    destruct (findIndex _ _); cbn [final]; [|exact H].
    unfold uniqueMonths. cbn.
    erewrite months_of_store; [exact H|reflexivity].
  - (* updateCapacityAdjustment *)
    unfold updateCapacityAdjustment.
    destruct (negb _); [exact H|].
    destruct (findIndex _ _); cbn [final]; [|exact H].
    unfold uniqueMonths. cbn.
    erewrite months_of_store; [exact H|reflexivity].
  - (* removeCapacity *)
    unfold removeCapacity.
    destruct (negb _); [exact H|].
    destruct (findIndex _ _); cbn [final]; [|exact H].
    unfold uniqueMonths. cbn. rewrite months_of_remove_at.
    now apply NoDup_remove_at.
  - (* clearCapacity *)
    unfold uniqueMonths. cbn. constructor.
  - (* applyTrial *)
    unfold applyTrial.
    destruct (_ || _); [exact H|].
    destruct (capacityPlan (metadata s)) as [p|] eqn:P; cbn [final];
      [|exact H].
    unfold uniqueMonths, planOrEmpty in *. rewrite P in H. cbn.
    rewrite months_of_trial_first. unfold months_of.
    eapply Permutation_NoDup; [|exact H].
    apply Permutation_map. symmetry. apply sortByMonth_perm.
  - (* a cached getter *)
    destruct (recomputeFinance s) eqn:R; cbn [final]; [|exact H].
    eapply unique_transfer; [|exact H].
    now apply recomputeFinance_keeps_plan.
Qed.

(** Claim C6, as amended. Every operation other than [setCapacity] keeps
    the invariant that the plan has at most one entry per month;
    [addCapacity] throws when the month is already present; [setCapacity]
    checks the format of each month and nothing else, and stores the array
    it is given, so after it the invariant holds exactly when the array has
    no month twice. *)
Theorem unique_months_kept_except_by_setCapacity :
  forall env now genUID s,
    uniqueMonths s ->
    (forall c, (forall p, c <> SetCapacity p) ->
               uniqueMonths (final (exec env now genUID c s)))
    /\ (forall m units adj,
           isValidYYYYMM m = true ->
           In m (months_of (planOrEmpty s)) ->
           exists msg, addCapacity now m units adj s = Throw msg s)
    /\ (forall p,
           Forall (fun c => isValidYYYYMM (month c) = true) p ->
           exists s',
             setCapacity now p s = Return s'
             /\ capacityPlan (metadata s') = Some p
             /\ (uniqueMonths s' <-> NoDup (months_of p))).
Proof.
  intros env now genUID s H. split; [|split].
  - intros c Hc. now apply exec_keeps_unique_months.
  - intros m units adj V I. unfold addCapacity. rewrite V. cbn [negb].
    assert (E : existsb (fun c => String.eqb (month c) m)
                  (planOrEmpty (set_plan s (Some (planOrEmpty s)))) = true)
      by (apply existsb_month; exact I).
    rewrite E. eexists. f_equal.
    unfold planOrEmpty in *.
    destruct (capacityPlan (metadata s)) as [p|] eqn:P.
    + now apply set_plan_same.
    + destruct I.
  - intros p V. unfold setCapacity.
    rewrite (setCapacity_check_passes p V).
    eexists. split; [reflexivity|]. split; [reflexivity|].
    unfold uniqueMonths. cbn. reflexivity.
Qed.

Lemma unique_months_kept_except_by_setCapacity_witness :
  uniqueMonths unsorted
  /\ uniqueMonths
       (final (exec envUTC later "Zp9G7K2a" (ApplyTrial 1) unsorted))
  /\ exists msg,
      addCapacity later "2025-02" 5 None unsorted = Throw msg unsorted.
Proof.
  assert (U : uniqueMonths unsorted).
  { unfold uniqueMonths. cbn. repeat constructor; cbn; intuition discriminate. }
  destruct (unique_months_kept_except_by_setCapacity envUTC later "Zp9G7K2a"
              unsorted U) as [A [B _]].
  split; [exact U|]. split.
  - apply A. intros p. discriminate.
  - apply (B "2025-02" 5 None); [reflexivity|]. cbn. auto.
Defined.

(** Claim C6 as stated fails: [setCapacity] accepts an array that lists
    January twice, and the object then holds a plan with a duplicate
    month. *)
Lemma setCapacity_accepts_duplicate_months :
  exists s',
    setCapacity later januaryTwice proPlan = Return s'
    /\ capacityPlan (metadata s') = Some januaryTwice
    /\ ~ uniqueMonths s'
    /\ reachable envUTC s'.
Proof.
  eexists. split; [reflexivity|]. split; [reflexivity|]. split.
  - unfold uniqueMonths. cbn. intros N. inversion N as [|x l Hn _]; subst.
    apply Hn. cbn. auto.
  - apply (reach_call envUTC later "" (SetCapacity januaryTwice) proPlan).
    apply reach_new.
Qed.

(** ** The two factories return reachable objects *)

Lemma reachable_initialize :
  forall env now u1 u2 n t r c d k s,
    initialize now u1 u2 n t r c d k = Val s -> reachable env s.
Proof.
  intros env now u1 u2 n t r c d k s H. unfold initialize in H.
  destruct (is_blank n); [discriminate|].
  destruct (is_blank _); [discriminate|].
  inversion H; subst. apply reach_new.
Qed.

Lemma reachable_parseFromJSON :
  forall env now u1 u2 j s,
    parseFromJSON now u1 u2 j = Val s -> reachable env s.
Proof.
  intros env now u1 u2 j s H. unfold parseFromJSON in H.
  destruct (traverse_rate _ _); cbn [bind] in H; [|discriminate].
  destruct (j_metadata j) as [m|]; cbn [bind] in H.
  - destruct (traverse_metadata _ m); cbn [bind] in H; [|discriminate].
    destruct (truthy (j_id j)); [|discriminate].
    destruct (truthy (j_timestamp j)); [|discriminate].
    destruct (j_settings j); [|discriminate].
    inversion H; subst. apply reach_new.
  - destruct (truthy (j_id j)); [|discriminate].
    destruct (truthy (j_timestamp j)); discriminate.
Qed.

(* ================================================================== *)
(** * Further properties of the code *)
(* ================================================================== *)

(** ** Month keys and the date helpers *)

(** Property X5. On an input of the shape of a key (four digits, a hyphen,
    two digits) [isValidYYYYMM] is exact: it accepts the input when the two
    month digits read 01 to 12, and only then. *)
Theorem isValidYYYYMM_exact_on_key_shape :
  forall a b c d e f,
    is_digit_value a = true -> is_digit_value b = true ->
    is_digit_value c = true -> is_digit_value d = true ->
    is_digit_value e = true -> is_digit_value f = true ->
    isValidYYYYMM (keyText a b c d e f)
    = (1 <=? 10 * e + f) && (10 * e + f <=? 12).
Proof.
  intros a b c d e f Da Db Dc Dd De Df.
  rewrite isValidYYYYMM_accepts. unfold keyText.
  cbn -[Regex.in_range dch Ascii.eqb Z.mul Z.add Z.leb].
  rewrite !dch_in_range by assumption.
  each_digit e De; each_digit f Df; reflexivity.
Qed.

Lemma isValidYYYYMM_exact_on_key_shape_witness :
  isValidYYYYMM "2025-07" = true /\ isValidYYYYMM "2025-13" = false.
Proof.
  split.
  - exact (isValidYYYYMM_exact_on_key_shape 2 0 2 5 0 7
             eq_refl eq_refl eq_refl eq_refl eq_refl eq_refl).
  - exact (isValidYYYYMM_exact_on_key_shape 2 0 2 5 1 3
             eq_refl eq_refl eq_refl eq_refl eq_refl eq_refl).
Defined.

Lemma dateToYYYYMM_monthKey :
  forall y i, dateToYYYYMM (Some (y, i)) = Val (monthKey y (i + 1)).
Proof. reflexivity. Qed.

(** Property X6. The keys [dateToYYYYMM] writes for two months of the years
    1000 to 9999 compare, as strings, the way the months do: the [<] and [>]
    of the class on month keys are the order of the calendar, and two keys
    are equal only for the same month. *)
Theorem dateToYYYYMM_keeps_the_order :
  forall y1 i1 y2 i2 k1 k2,
    plainYear y1 -> 0 <= i1 <= 11 -> plainYear y2 -> 0 <= i2 <= 11 ->
    dateToYYYYMM (Some (y1, i1)) = Val k1 ->
    dateToYYYYMM (Some (y2, i2)) = Val k2 ->
    String.ltb k1 k2 = (y1 * 12 + i1 <? y2 * 12 + i2)
    /\ JS.str_gt k1 k2 = (y2 * 12 + i2 <? y1 * 12 + i1)
    /\ (k1 = k2 <-> y1 = y2 /\ i1 = i2).
Proof.
  intros y1 i1 y2 i2 k1 k2 Hy1 Hi1 Hy2 Hi2 E1 E2.
  rewrite dateToYYYYMM_monthKey in E1, E2.
  inversion E1; inversion E2; subst k1 k2. clear E1 E2.
  assert (M1 : calendarMonth (i1 + 1)) by (unfold calendarMonth; lia).
  assert (M2 : calendarMonth (i2 + 1)) by (unfold calendarMonth; lia).
  pose proof (compare_monthKey y1 (i1 + 1) y2 (i2 + 1) Hy1 M1 Hy2 M2) as C.
  unfold monthIndex in C.
  replace (y1 * 12 + (i1 + 1 - 1)) with (y1 * 12 + i1) in C by lia.
  replace (y2 * 12 + (i2 + 1 - 1)) with (y2 * 12 + i2) in C by lia.
  split; [|split].
  - unfold String.ltb, Z.ltb. rewrite C. reflexivity.
  - rewrite (str_gt_monthKey y1 (i1 + 1) y2 (i2 + 1)) by assumption.
    unfold monthIndex. f_equal; lia.
  - split.
    + intros E. apply formatYYYYMM_inj in E; [lia|assumption..].
    + intros [-> ->]. reflexivity.
Qed.

Lemma dateToYYYYMM_keeps_the_order_witness :
  String.ltb "2024-12" "2025-01" = (2024 * 12 + 11 <? 2025 * 12 + 0)
  /\ JS.str_gt "2024-12" "2025-01" = (2025 * 12 + 0 <? 2024 * 12 + 11)
  /\ ("2024-12" = "2025-01" <-> 2024 = 2025 /\ 11 = 0).
Proof.
  apply (dateToYYYYMM_keeps_the_order 2024 11 2025 0 "2024-12" "2025-01");
    try reflexivity; unfold plainYear; lia.
Defined.

Lemma keyText_monthKey :
  forall a b c d e f,
    is_digit_value a = true -> is_digit_value b = true ->
    is_digit_value c = true -> is_digit_value d = true ->
    is_digit_value e = true -> is_digit_value f = true ->
    1 <= a -> 1 <= 10 * e + f <= 12 ->
    keyText a b c d e f
    = monthKey (1000 * a + 100 * b + 10 * c + d) (10 * e + f).
Proof.
  intros a b c d e f Da Db Dc Dd De Df Ha Hm.
  assert (Hy : plainYear (1000 * a + 100 * b + 10 * c + d)).
  { unfold plainYear. digit_bounds. lia. }
  assert (Hc : calendarMonth (10 * e + f)) by exact Hm.
  destruct (monthKey_shape _ _ Hy Hc)
    as [a' [b' [c' [d' [e' [f' [S [Ey [Em [Ha' [Da' [Db' [Dc' [Dd' [De' Df']]]]]]]]]]]]]]].
  rewrite S. unfold keyText.
  pose proof Da as Ba. pose proof Db as Bb. pose proof Dc as Bc.
  pose proof Dd as Bd. pose proof De as Be. pose proof Df as Bf.
  pose proof Da' as Ba'. pose proof Db' as Bb'. pose proof Dc' as Bc'.
  pose proof Dd' as Bd'. pose proof De' as Be'. pose proof Df' as Bf'.
  apply is_digit_value_bounds in Ba, Bb, Bc, Bd, Be, Bf, Ba', Bb', Bc', Bd',
    Be', Bf'.
  assert (a' = a) by lia. assert (b' = b) by lia. assert (c' = c) by lia.
  assert (d' = d) by lia. assert (e' = e) by lia. assert (f' = f) by lia.
  subst. reflexivity.
Qed.

(** Property X7. On the years 1000 to 9999 [dateToYYYYMM] and [yyyyMMToDate]
    undo each other: the key written for a month reads back as that month
    (and passes [isValidYYYYMM]), and a key of four digits, the first not
    zero, a hyphen and a month 01 to 12 is written back unchanged. *)
Theorem yyyyMM_and_date_are_inverse :
  (forall y i k,
      plainYear y -> 0 <= i <= 11 ->
      dateToYYYYMM (Some (y, i)) = Val k ->
      yyyyMMToDate k = Some (y, i) /\ isValidYYYYMM k = true)
  /\ (forall a b c d e f,
         is_digit_value a = true -> is_digit_value b = true ->
         is_digit_value c = true -> is_digit_value d = true ->
         is_digit_value e = true -> is_digit_value f = true ->
         1 <= a -> 1 <= 10 * e + f <= 12 ->
         dateToYYYYMM (yyyyMMToDate (keyText a b c d e f))
         = Val (keyText a b c d e f)).
Proof.
  split.
  - intros y i k Hy Hi E. rewrite dateToYYYYMM_monthKey in E.
    inversion E; subst k.
    assert (M : calendarMonth (i + 1)) by (unfold calendarMonth; lia).
    rewrite (yyyyMMToDate_monthKey y (i + 1) Hy M).
    split; [do 2 f_equal; lia|]. now apply isValidYYYYMM_monthKey.
  - intros a b c d e f Da Db Dc Dd De Df Ha Hm.
    rewrite (keyText_monthKey a b c d e f) by assumption.
    assert (Hy : plainYear (1000 * a + 100 * b + 10 * c + d)).
    { unfold plainYear. digit_bounds. lia. }
    rewrite (yyyyMMToDate_monthKey _ _ Hy Hm), dateToYYYYMM_monthKey.
    do 2 f_equal. lia.
Qed.

Lemma yyyyMM_and_date_are_inverse_witness :
  (yyyyMMToDate "2025-03" = Some (2025, 2) /\ isValidYYYYMM "2025-03" = true)
  /\ dateToYYYYMM (yyyyMMToDate "2025-12") = Val "2025-12".
Proof.
  split.
  - apply (proj1 yyyyMM_and_date_are_inverse 2025 2 "2025-03");
      try reflexivity; unfold plainYear; lia.
  - apply (proj2 yyyyMM_and_date_are_inverse 2 0 2 5 1 2);
      try reflexivity; lia.
Defined.

(** [offsetMonthsToYYYYMM] of a well-formed key, for an offset of either
    sign that stays within the years 1000 to 9999. *)
Lemma offsetMonths_either_way :
  forall env now y m i,
    plainYear y -> calendarMonth m ->
    1000 * 12 <= monthIndex y m + i <= 9999 * 12 + 11 ->
    offsetMonthsToYYYYMM env now (Some (SDString (monthKey y m))) i
    = Val (monthKeyAt (monthIndex y m + i)).
Proof.
  intros env now y m i Hy Hm Hr. unfold offsetMonthsToYYYYMM.
  rewrite (normalizeStartDate_monthKey env now y m Hy Hm).
  cbn [bind JS.getYear JS.getMonth option_map fst snd JS.num_add JS.DateUTC].
  destruct Hy, Hm. unfold monthIndex in *.
  rewrite monthStart_plain by (unfold JS.minMonth, JS.maxMonth in *; lia).
  unfold dateToYYYYMM, monthKeyAt, monthKey.
  replace (y * 12 + (m - 1 + i)) with (y * 12 + (m - 1) + i) by lia.
  reflexivity.
Qed.

Lemma monthKeyAt_plain :
  forall t,
    1000 * 12 <= t <= 9999 * 12 + 11 ->
    plainYear (t / 12) /\ calendarMonth (t mod 12 + 1)
    /\ monthIndex (t / 12) (t mod 12 + 1) = t.
Proof.
  intros t H. unfold plainYear, calendarMonth, monthIndex.
  Z.div_mod_to_equations. lia.
Qed.

(** Property X8. Offsets add up: moving a well-formed key by [i] months and
    the result by [j] months is moving it by [i + j] months, forwards or
    backwards, as long as the months stay within the years 1000 to 9999; an
    offset of 0 gives the key back. Neither the clock nor the time zone
    matters. *)
Theorem offsetMonths_add_up :
  forall env now y m i j k,
    plainYear y -> calendarMonth m ->
    1000 * 12 <= monthIndex y m + i <= 9999 * 12 + 11 ->
    1000 * 12 <= monthIndex y m + i + j <= 9999 * 12 + 11 ->
    offsetMonthsToYYYYMM env now (Some (SDString (monthKey y m))) i = Val k ->
    offsetMonthsToYYYYMM env now (Some (SDString k)) j
    = offsetMonthsToYYYYMM env now (Some (SDString (monthKey y m))) (i + j)
    /\ offsetMonthsToYYYYMM env now (Some (SDString k)) 0 = Val k
    /\ isValidYYYYMM k = true.
Proof.
  intros env now y m i j k Hy Hm Hi Hij E.
  rewrite (offsetMonths_either_way env now y m i Hy Hm Hi) in E.
  inversion E; subst k. clear E.
  destruct (monthKeyAt_plain _ Hi) as [Py [Pm Pi]].
  assert (K : forall d,
             1000 * 12 <= monthIndex y m + i + d <= 9999 * 12 + 11 ->
             offsetMonthsToYYYYMM env now
               (Some (SDString (monthKeyAt (monthIndex y m + i)))) d
             = Val (monthKeyAt (monthIndex y m + i + d))).
  { intros d Hd. unfold monthKeyAt at 1.
    rewrite (offsetMonths_either_way env now _ _ d Py Pm) by (rewrite Pi; lia).
    now rewrite Pi. }
  split; [|split].
  - rewrite (K j Hij).
    rewrite (offsetMonths_either_way env now y m (i + j) Hy Hm) by lia.
    do 2 f_equal. lia.
  - rewrite (K 0) by lia. now rewrite Z.add_0_r.
  - apply isValidYYYYMM_monthKeyAt. exact Hi.
Qed.

Lemma offsetMonths_add_up_witness :
  offsetMonthsToYYYYMM envWest noon (Some (SDString "2025-02")) (-2)
  = offsetMonthsToYYYYMM envWest noon (Some (SDString (monthKey 2024 11))) (3 + -2)
  /\ offsetMonthsToYYYYMM envWest noon (Some (SDString "2025-02")) 0
     = Val "2025-02"
  /\ isValidYYYYMM "2025-02" = true.
Proof.
  apply (offsetMonths_add_up envWest noon 2024 11 3 (-2) "2025-02");
    try reflexivity; unfold plainYear, calendarMonth, monthIndex; lia.
Defined.

(** Property X9. The period from a well-formed key to the key [i] months
    later has [i + 1] months for [monthsInPeriod]; read backwards it has [1
    - i], which is not positive from [i = 1] on. *)
Theorem monthsInPeriod_counts_the_offset :
  forall env now y m i k,
    plainYear y -> calendarMonth m ->
    1000 * 12 <= monthIndex y m + i <= 9999 * 12 + 11 ->
    offsetMonthsToYYYYMM env now (Some (SDString (monthKey y m))) i = Val k ->
    monthsInPeriod (monthKey y m) k = Some (i + 1)
    /\ monthsInPeriod k (monthKey y m) = Some (1 - i).
Proof.
  intros env now y m i k Hy Hm Hi E.
  rewrite (offsetMonths_either_way env now y m i Hy Hm Hi) in E.
  inversion E; subst k. clear E.
  destruct (monthKeyAt_plain _ Hi) as [Py [Pm Pi]].
  unfold monthKeyAt.
  rewrite !monthsInPeriod_monthKey by assumption.
  rewrite Pi. split; f_equal; lia.
Qed.

Lemma monthsInPeriod_counts_the_offset_witness :
  monthsInPeriod (monthKey 2025 11) "2026-02" = Some (3 + 1)
  /\ monthsInPeriod "2026-02" (monthKey 2025 11) = Some (1 - 3).
Proof.
  apply (monthsInPeriod_counts_the_offset envUTC noon 2025 11 3 "2026-02");
    try reflexivity; unfold plainYear, calendarMonth, monthIndex; lia.
Defined.

(** ** Slugs *)

Lemma dash_runs_chars :
  forall s b, all_chars is_url_char (dash_runs b s) = true.
Proof.
  induction s as [|c s IH]; intros b; cbn [dash_runs]; [reflexivity|].
  destruct (is_slug_char c) eqn:E.
  - cbn [all_chars]. unfold is_url_char at 1. now rewrite E, IH.
  - destruct b; [apply IH|]. cbn [all_chars]. now rewrite IH.
Qed.

Lemma slug_char_not_dash :
  forall c, is_slug_char c = true -> Ascii.eqb c "-" = false.
Proof.
  intros c H. destruct (Ascii.eqb_spec c "-") as [->|]; [|reflexivity].
  discriminate H.
Qed.

Lemma dash_runs_in_run :
  forall s, starts_with_dash (dash_runs true s) = false.
Proof.
  induction s as [|c s IH]; cbn [dash_runs]; [reflexivity|].
  destruct (is_slug_char c) eqn:E; [|exact IH].
  cbn. now apply slug_char_not_dash.
Qed.

Lemma dash_runs_single :
  forall s b, has_double_dash (dash_runs b s) = false.
Proof.
  induction s as [|c s IH]; intros b; cbn [dash_runs]; [reflexivity|].
  destruct (is_slug_char c) eqn:E.
  - cbn [has_double_dash]. rewrite (slug_char_not_dash c E), IH. reflexivity.
  - destruct b; [apply IH|]. cbn [has_double_dash].
    rewrite dash_runs_in_run, IH. reflexivity.
Qed.

Lemma drop_dashes_chars :
  forall p s, all_chars p s = true -> all_chars p (drop_dashes s) = true.
Proof.
  intros p. induction s as [|c s IH]; intros H; cbn [drop_dashes]; [exact H|].
  destruct (Ascii.eqb c "-"); [|exact H].
  cbn in H. apply andb_prop in H. now apply IH.
Qed.

Lemma drop_dashes_start :
  forall s, starts_with_dash (drop_dashes s) = false.
Proof.
  induction s as [|c s IH]; cbn [drop_dashes]; [reflexivity|].
  destruct (Ascii.eqb c "-") eqn:E; [exact IH|]. exact E.
Qed.

Lemma drop_dashes_single :
  forall s, has_double_dash s = false -> has_double_dash (drop_dashes s) = false.
Proof.
  induction s as [|c s IH]; intros H; cbn [drop_dashes]; [exact H|].
  destruct (Ascii.eqb c "-"); [|exact H].
  cbn in H. apply orb_false_elim in H. now apply IH.
Qed.

Lemma drop_trailing_chars :
  forall p s,
    all_chars p s = true -> all_chars p (drop_trailing_dashes s) = true.
Proof.
  intros p. induction s as [|c s IH]; intros H; [exact H|].
  cbn [drop_trailing_dashes]. destruct (all_dashes (String c s)); [reflexivity|].
  cbn in H |- *. apply andb_prop in H. destruct H as [-> H]. now apply IH.
Qed.

Lemma drop_trailing_start :
  forall s,
    starts_with_dash s = false ->
    starts_with_dash (drop_trailing_dashes s) = false.
Proof.
  intros [|c s] H; [reflexivity|]. cbn [drop_trailing_dashes].
  destruct (all_dashes (String c s)); [reflexivity|exact H].
Qed.

Lemma drop_trailing_empty :
  forall s, drop_trailing_dashes s = "" -> all_dashes s = true.
Proof.
  intros [|c s] H; [reflexivity|]. cbn [drop_trailing_dashes] in H.
  destruct (all_dashes (String c s)); [reflexivity|discriminate].
Qed.

Lemma drop_trailing_end :
  forall s, ends_with_dash (drop_trailing_dashes s) = false.
Proof.
  induction s as [|c s IH]; [reflexivity|]. cbn [drop_trailing_dashes].
  destruct (all_dashes (String c s)) eqn:A; [reflexivity|].
  destruct (drop_trailing_dashes s) as [|c' r] eqn:D.
  - apply drop_trailing_empty in D. cbn in A |- *. rewrite D in A.
    now rewrite andb_true_r in A.
  - exact IH.
Qed.

Lemma drop_trailing_single :
  forall s,
    has_double_dash s = false ->
    has_double_dash (drop_trailing_dashes s) = false.
Proof.
  induction s as [|c s IH]; intros H; [reflexivity|].
  cbn [drop_trailing_dashes]. destruct (all_dashes (String c s)); [reflexivity|].
  cbn [has_double_dash] in H |- *. apply orb_false_elim in H.
  destruct H as [H1 H2]. rewrite (IH H2), orb_false_r.
  destruct (Ascii.eqb c "-"); [|reflexivity]. cbn [andb] in H1 |- *.
  now apply drop_trailing_start.
Qed.

Lemma all_dashes_drop :
  forall s, all_dashes s = true -> drop_dashes s = "".
Proof.
  induction s as [|c s IH]; intros H; [reflexivity|]. cbn in H |- *.
  apply andb_prop in H. destruct H as [-> H]. now apply IH.
Qed.

Lemma dash_runs_no_slug_char :
  forall s b,
    all_chars (fun c => negb (is_slug_char c)) s = true ->
    all_dashes (dash_runs b s) = true.
Proof.
  induction s as [|c s IH]; intros b H; [reflexivity|].
  cbn in H. apply andb_prop in H. destruct H as [Hc H].
  cbn [dash_runs]. apply negb_true_iff in Hc. rewrite Hc.
  destruct b; [now apply IH|]. cbn. now apply IH.
Qed.

(** Property X10. Whatever the name, the slug is a text of lower-case
    letters, digits and hyphens that neither starts nor ends with a hyphen
    and has no two hyphens in a row, followed by a hyphen and the random
    part. For a name of ASCII characters none of which is a letter or a
    digit the text is empty, and the slug is a hyphen and the random
    part. *)
Theorem generateSlug_is_url_safe :
  forall genUID name0,
    exists slugText,
      generateSlug genUID name0 = (slugText ++ "-" ++ genUID)%string
      /\ all_chars is_url_char slugText = true
      /\ starts_with_dash slugText = false
      /\ ends_with_dash slugText = false
      /\ has_double_dash slugText = false
      /\ (asciiText name0 = true ->
          all_chars (fun c => negb (is_slug_char (toLowerCase c))) name0 = true
          -> slugText = "" /\ generateSlug genUID name0 = String "-" genUID).
Proof.
  intros genUID name0. eexists. split; [reflexivity|].
  split; [|split; [|split; [|split]]].
  - apply drop_trailing_chars, drop_dashes_chars, dash_runs_chars.
  - apply drop_trailing_start, drop_dashes_start.
  - apply drop_trailing_end.
  - apply drop_trailing_single, drop_dashes_single, dash_runs_single.
  - intros _ H.
    assert (E : drop_trailing_dashes
                  (drop_dashes (dash_runs false (map_string toLowerCase name0)))
                = "");
      [|split; [exact E|unfold generateSlug; rewrite E; reflexivity]].
    rewrite all_dashes_drop; [reflexivity|].
    apply dash_runs_no_slug_char.
    clear -H. induction name0 as [|c s IH]; [reflexivity|].
    cbn in H |- *. apply andb_prop in H. destruct H as [-> H]. now apply IH.
Qed.

Lemma generateSlug_is_url_safe_witness :
  asciiText "?! #" = true /\ generateSlug "X4tF9z" "?! #" = "-X4tF9z".
Proof.
  split; [reflexivity|].
  destruct (generateSlug_is_url_safe "X4tF9z" "?! #")
    as [t [_ [_ [_ [_ [_ K]]]]]].
  exact (proj2 (K eq_refl eq_refl)).
Defined.

(** ** What no method changes *)

Ltac unfold_method :=
  unfold setName, setRate, setRateUnit, setRateAmount, setCategory,
    setDescription, setDescriptionText, setDescriptionHTML, setDescriptionSEO,
    setType, addCOS, pushCOS, updateCOS, setCOS, removeCOS,
    clearCostBreakdown, generateCapacityPlan, normalizeCapacityUnits,
    recomputeCapacityPeriod, setCapacity, addCapacity, updateCapacityUnits,
    updateCapacityAdjustment, removeCapacity, clearCapacity, applyTrial,
    recomputeFinance;
  cbv zeta.

Ltac split_outcome :=
  repeat match goal with
         | |- context [bind ?x _] => destruct x eqn:?; cbn [bind]
         | |- context [if ?b then _ else _] => destruct b eqn:?
         | |- context [match ?x with
                       | Val _ => _
                       | Err _ => _
                       end] => destruct x eqn:?
         | |- context [match ?x with
                       | Some _ => _
                       | None => _
                       end] => destruct x eqn:?
         | |- context [match ?x with
                       | nil => _
                       | cons _ _ => _
                       end] => destruct x eqn:?
         | |- context [match ?x with
                       | DEFAULT => _
                       | DISTRIBUTE => _
                       end] => destruct x eqn:?
         end.

(** Property X11. No method changes the identifier, the creation timestamp,
    the status or the settings of the object, whether it returns or throws;
    and only [setName] changes the name and the slug. *)
Theorem identity_is_never_changed :
  forall env now genUID c s,
    let s' := final (exec env now genUID c s) in
    id s' = id s /\ timestamp s' = timestamp s
    /\ status s' = status s /\ settings s' = settings s
    /\ ((forall n, c <> SetName n) -> name s' = name s /\ slug s' = slug s).
Proof.
  intros env now genUID c s s'. subst s'.
  destruct c; cbn [exec]; unfold_method; split_outcome; cbn [final];
    repeat split; try reflexivity;
    exfalso;
    match goal with
    | K : forall n, _ <> SetName n |- _ => eapply K; reflexivity
    end.
Qed.

(** The fields [category], [type] and [status] repeat what the metadata
    and the settings hold, on every object a program can hold. *)
Lemma reachable_mirrors :
  forall env s,
    reachable env s ->
    category s = m_category (metadata s)
    /\ type s = m_type (metadata s)
    /\ status s = s_status (settings s).
Proof.
  intros env s R. induction R as [|now genUID c s R [Hc [Ht Hs]]].
  - repeat split.
  - destruct c; cbn [exec]; unfold_method; split_outcome; cbn [final];
      repeat split; cbn; assumption || reflexivity.
Qed.

Lemma eta_MajikSubscription :
  forall x,
    {| id := id x; slug := slug x; name := name x; category := category x;
       status := status x; type := type x; timestamp := timestamp x;
       last_update := last_update x; metadata := metadata x;
       settings := settings x; financeDirty := true |}
    = set_dirty x true.
Proof. reflexivity. Qed.

(** ** JSON *)

(** Property X12. For every object [x] a program can hold whose creation
    timestamp is not empty, [parseFromJSON(toJSON(x))] is [x] in every
    field: name, slug, category, type, status, both timestamps, metadata
    (description, rate, COS, capacity plan, finance snapshot) and settings.
    Only the private dirty flag differs, which the constructor sets. The
    clock and the random generator are not consulted. *)
Theorem parse_of_toJSON_is_the_object :
  forall env now u1 u2 x,
    reachable env x ->
    timestamp x <> "" ->
    parseFromJSON now u1 u2 (toJSON x) = Val (set_dirty x true).
Proof.
  intros env now u1 u2 x R Ht.
  destruct (reachable_named env x R) as [Hi Hs].
  destruct (reachable_mirrors env x R) as [Hc [Hty Hst]].
  rewrite (parseFromJSON_toJSON now u1 u2 x Hi Hs Ht).
  rewrite <- Hc, <- Hty, <- Hst. now rewrite eta_MajikSubscription.
Qed.

Lemma parse_of_toJSON_is_the_object_witness :
  parseFromJSON later "Zp9G7K2a" "9zX4tF" (toJSON unsorted)
  = Val (set_dirty unsorted true).
Proof.
  apply (parse_of_toJSON_is_the_object envUTC later "Zp9G7K2a" "9zX4tF"
           unsorted).
  - unfold unsorted. apply (reach_call envUTC noon "" (AddCapacity _ _ _)).
    apply (reach_call envUTC noon "" (AddCapacity _ _ _)). apply reach_new.
  - discriminate.
Defined.

(** Property X13. [finalize] then [parseFromJSON] is a copy under a new
    identifier: for every object a program can hold whose creation timestamp
    is not empty, the parsed object has the identifier [mjksub-] followed by
    the random part, and every other field of the original (the slug
    included); the original's own identifier plays no part. *)
Theorem finalize_then_parse_is_a_copy :
  forall env now genUID u1 u2 x,
    reachable env x ->
    timestamp x <> "" ->
    parseFromJSON now u1 u2 (finalize genUID x)
    = Val (with_id (set_dirty x true) (autogenerateID genUID "mjksub")).
Proof.
  intros env now genUID u1 u2 x R Ht.
  destruct (reachable_named env x R) as [_ Hs].
  destruct (reachable_mirrors env x R) as [Hc [Hty Hst]].
  unfold parseFromJSON, finalize, toJSON, autogenerateID.
  cbn [j_rate j_metadata j_id j_timestamp j_settings j_slug j_name
       j_last_update].
  rewrite traverse_rate_serialize, traverse_metadata_serialize. cbn [bind].
  rewrite (truthy_some _ Ht).
  rewrite (truthy_some _ (append_dash_not_empty "mjksub" genUID)).
  unfold new_MajikSubscription.
  rewrite (or_else_some _ _ (append_dash_not_empty "mjksub" genUID)).
  rewrite (or_else_some _ _ Hs).
  rewrite <- Hc, <- Hty, <- Hst. reflexivity.
Qed.

Lemma finalize_then_parse_is_a_copy_witness :
  parseFromJSON later "Zp9G7K2a" "9zX4tF" (finalize "Q1w2E3r4" proPlan)
  = Val (with_id (set_dirty proPlan true) "mjksub-Q1w2E3r4").
Proof.
  apply (finalize_then_parse_is_a_copy envUTC later "Q1w2E3r4" "Zp9G7K2a"
           "9zX4tF" proPlan).
  - apply reach_new.
  - discriminate.
Defined.

(** Property X14. [validateSelf] passes exactly when the identifier, the
    creation timestamp, the name and the description text are all non-empty
    strings. The rate amount and the rate unit, which it also lists, can
    never fail it: the first is a number and the second a member of
    [RateUnit]. With [throwError] it throws where it would return false, and
    whatever [initialize] returns passes, the clock giving a non-empty
    timestamp. *)
Theorem validateSelf_checks_four_strings :
  forall s : MajikSubscription,
    (validateSelf None s = Val true
     <-> id s <> "" /\ timestamp s <> "" /\ name s <> ""
         /\ text (description (metadata s)) <> "")
    /\ (validateSelf None s = Val true \/ validateSelf None s = Val false)
    /\ validateSelf (Some false) s = validateSelf None s
    /\ (validateSelf None s = Val true -> validateSelf (Some true) s = Val true)
    /\ (validateSelf None s = Val false ->
        exists msg, validateSelf (Some true) s = Err msg)
    /\ (forall now u1 u2 n t r c d k,
           initialize now u1 u2 n t r c d k = Val s ->
           clockISO now <> "" ->
           validateSelf None s = Val true).
Proof.
  intros s.
  assert (U : forall u, String.eqb (RateUnit_value u) "" = false)
    by (intros []; reflexivity).
  assert (E : forall v, String.eqb v "" = false <-> v <> "")
    by (intros v; apply String.eqb_neq).
  assert (C : validateSelf None s = Val true
              <-> id s <> "" /\ timestamp s <> "" /\ name s <> ""
                  /\ text (description (metadata s)) <> "").
  { unfold validateSelf. cbn [validate_fields is_missing]. rewrite U.
    rewrite <- !E.
    destruct (String.eqb (id s) ""), (String.eqb (timestamp s) ""),
      (String.eqb (name s) ""),
      (String.eqb (text (description (metadata s))) "");
      (split; intros H;
       [ try discriminate H; repeat split; reflexivity
       | try reflexivity; destruct H as [? [? [? ?]]]; discriminate ]). }
  split; [exact C|]. split; [|split; [reflexivity|split; [|split]]].
  - unfold validateSelf. cbn [validate_fields is_missing]. rewrite U.
    destruct (String.eqb (id s) ""), (String.eqb (timestamp s) ""),
      (String.eqb (name s) ""),
      (String.eqb (text (description (metadata s))) ""); auto.
  - unfold validateSelf. cbn [validate_fields is_missing]. rewrite U.
    destruct (String.eqb (id s) ""), (String.eqb (timestamp s) ""),
      (String.eqb (name s) ""),
      (String.eqb (text (description (metadata s))) "");
      intros H; try discriminate H; reflexivity.
  - unfold validateSelf. cbn [validate_fields is_missing]. rewrite U.
    destruct (String.eqb (id s) ""), (String.eqb (timestamp s) ""),
      (String.eqb (name s) ""),
      (String.eqb (text (description (metadata s))) "");
      intros H; try discriminate H; eexists; reflexivity.
  - intros now u1 u2 n t r c d k H Hclock. apply C.
    unfold initialize in H.
    destruct (is_blank n) eqn:Bn; [discriminate|].
    match type of H with
    | (if ?b then _ else _) = _ => destruct b; [discriminate|]
    end.
    inversion H as [Hs]. clear H C. subst s.
    unfold new_MajikSubscription, or_else at 1 2.
    cbn [id timestamp name metadata description text]. repeat split.
    + apply append_dash_not_empty.
    + exact Hclock.
    + destruct n; [discriminate Bn|discriminate].
    + apply or_else_not_empty. discriminate.
Qed.

(** ** Monthly figures and gross figures *)

Lemma find_unique :
  forall (l : list MonthlyCapacity) c,
    NoDup (months_of l) -> In c l ->
    find (fun x => String.eqb (month x) (month c)) l = Some c.
Proof.
  induction l as [|x l IH]; intros c N I; [destruct I|].
  cbn [find]. inversion N as [|? ? Hx Hl]; subst.
  destruct I as [->|I].
  - now rewrite String.eqb_refl.
  - destruct (String.eqb_spec (month x) (month c)) as [E|_].
    + exfalso. apply Hx. rewrite E. unfold months_of. now apply in_map.
    + now apply IH.
Qed.

Lemma fold_months_as_sum :
  forall (f : string -> res Money.t) (g : MonthlyCapacity -> Money.t)
         (l : list MonthlyCapacity) (acc : res Money.t),
    (forall c, In c l -> f (month c) = Val (g c)) ->
    fold_left (fun acc c => a <- acc ;; r <- f (month c) ;; Money.add a r)
              l acc
    = fold_left (fun acc x => a <- acc ;; Money.add a x) (map g l) acc.
Proof.
  intros f g. induction l as [|c l IH]; intros acc H; [reflexivity|].
  cbn [fold_left map]. rewrite (H c) by (left; reflexivity).
  rewrite IH by (intros c' I; apply H; right; exact I).
  destruct acc; reflexivity.
Qed.

Lemma unitCost_total_currency :
  forall s u,
    unitCost_total s = Val u ->
    Money.currency u = Money.currency (amount (rate s)).
Proof.
  intros s u H. rewrite unitCost_total_as_sum in H.
  now apply money_sum_currency in H.
Qed.

Lemma sumZ_scaled_difference :
  forall (r u : Z) (l : list MonthlyCapacity),
    sumZ (map (fun c => r * effectiveUnits c - u * effectiveUnits c) l)
    = r * sumZ (map effectiveUnits l) - u * sumZ (map effectiveUnits l).
Proof.
  intros r u. induction l as [|c l IH]; cbn [map sumZ]; [lia|].
  rewrite IH. lia.
Qed.

(** Property X15. When the plan has one entry per month and every month
    passes [isValidYYYYMM], the monthly accessors add up to the gross
    figures: [getRevenue] over the months of the plan gives the gross
    revenue, and, for a plan that is not empty, [getCOS] gives the gross COS
    and [getProfit] the gross profit (an error of the cost being the same
    error on both sides). *)
Theorem monthly_figures_add_up_to_the_gross :
  forall s : MajikSubscription,
    uniqueMonths s ->
    Forall (fun c => isValidYYYYMM (month c) = true) (planOrEmpty s) ->
    sum_over_months s (getRevenue s) = computeGrossRevenue s
    /\ (hasCapacity s = true ->
        sum_over_months s (getCOS s) = computeGrossCOS s
        /\ sum_over_months s (getProfit s) = computeGrossProfit s).
Proof.
  intros s U V. rewrite Forall_forall in V.
  assert (F : forall c, In c (planOrEmpty s) -> findMonth s (month c) = Some c)
    by (intros c I; unfold findMonth; now apply find_unique).
  assert (R : forall c, In c (planOrEmpty s) ->
                getRevenue s (month c)
                = Val (Money.multiply (amount (rate s)) (effectiveUnits c))).
  { intros c I. unfold getRevenue. now rewrite (V c I), (F c I). }
  split.
  - unfold sum_over_months.
    rewrite (fold_months_as_sum _ _ _ _ R).
    now rewrite computeGrossRevenue_as_sum.
  - intros Hc.
    destruct (unitCost_total s) as [u|msg] eqn:Eu.
    + pose proof (unitCost_total_currency s u Eu) as Cu.
      assert (C : forall c, In c (planOrEmpty s) ->
                    getCOS s (month c)
                    = Val (Money.multiply u (effectiveUnits c))).
      { intros c I. unfold getCOS. rewrite (V c I), (F c I), Eu. reflexivity. }
      split.
      * unfold sum_over_months.
        rewrite (fold_months_as_sum _ _ _ _ C).
        unfold computeGrossCOS. rewrite Eu. cbn [bind].
        symmetry.
        apply (money_sum_map _ (fun c => Money.multiply u (effectiveUnits c))).
      * assert (P : forall c, In c (planOrEmpty s) ->
                      getProfit s (month c)
                      = Val (Money.fromMinor
                               (Money.minor (amount (rate s)) * effectiveUnits c
                                - Money.minor u * effectiveUnits c)
                               (Money.currency (amount (rate s))))).
        { intros c I. unfold getProfit.
          rewrite (V c I), (R c I), (C c I). cbn [negb bind].
          unfold Money.subtract. cbn [Money.multiply Money.fromMinor
            Money.currency Money.minor].
          now rewrite Cu, currency_eqb_refl. }
        unfold sum_over_months.
        rewrite (fold_months_as_sum _ _ _ _ P).
        fold (money_sum (DEFAULT_ZERO s)
                (map (fun c =>
                        Money.fromMinor
                          (Money.minor (amount (rate s)) * effectiveUnits c
                           - Money.minor u * effectiveUnits c)
                          (Money.currency (amount (rate s))))
                     (planOrEmpty s))).
        rewrite money_sum_same_currency.
        -- unfold computeGrossProfit.
           rewrite computeGrossRevenue_closed, computeGrossCOS_closed, Eu.
           cbn [bind]. unfold Money.subtract.
           cbn [Money.multiply Money.fromMinor Money.currency Money.minor
                DEFAULT_ZERO].
           rewrite Cu, currency_eqb_refl. rewrite map_map.
           cbn [Money.minor Money.fromMinor].
           rewrite sumZ_scaled_difference, totalCapacity_sum.
           reflexivity.
        -- apply Forall_forall. intros x Hx. apply in_map_iff in Hx.
           destruct Hx as [c [<- _]]. reflexivity.
    + unfold hasCapacity, planOrEmpty in *.
      destruct (capacityPlan (metadata s)) as [[|first rest]|] eqn:Ep;
        try discriminate Hc.
      assert (I : In first (first :: rest)) by (left; reflexivity).
      assert (C : getCOS s (month first) = Err msg).
      { unfold getCOS. rewrite (V first I), (F first I), Eu. reflexivity. }
      split.
      * unfold sum_over_months, planOrEmpty. rewrite Ep.
        cbn [fold_left bind]. rewrite C. cbn [bind].
        rewrite (fold_left_Err _ _
                   (fun a c => r <- getCOS s (month c) ;; Money.add a r)).
        unfold computeGrossCOS. now rewrite Eu.
      * unfold sum_over_months, planOrEmpty. rewrite Ep.
        cbn [fold_left bind].
        assert (P : getProfit s (month first) = Err msg).
        { unfold getProfit. rewrite (V first I), C.
          unfold getRevenue. rewrite (V first I), (F first I). reflexivity. }
        rewrite P. cbn [bind].
        rewrite (fold_left_Err _ _
                   (fun a c => r <- getProfit s (month c) ;; Money.add a r)).
        unfold computeGrossProfit.
        rewrite computeGrossRevenue_closed, computeGrossCOS_closed, Eu.
        reflexivity.
Qed.

Lemma monthly_figures_add_up_to_the_gross_witness :
  sum_over_months unsorted (getRevenue unsorted) = computeGrossRevenue unsorted
  /\ (hasCapacity unsorted = true ->
      sum_over_months unsorted (getCOS unsorted) = computeGrossCOS unsorted
      /\ sum_over_months unsorted (getProfit unsorted)
         = computeGrossProfit unsorted).
Proof.
  apply (monthly_figures_add_up_to_the_gross unsorted).
  - unfold uniqueMonths. cbn. repeat constructor; cbn; intuition discriminate.
  - repeat constructor.
Defined.

(** Property X16. The profit of a month is the profit per unit times the
    effective units of the month: for a month that passes [isValidYYYYMM],
    [getProfit] is [unitProfit] (the rate less the COS subtotals) multiplied
    by capacity plus adjustment of the first entry of that month, with the
    error of [unitProfit] when that throws, and zero in the currency of the
    rate when the plan has no such month. *)
Theorem getProfit_is_unitProfit_times_units :
  forall s m,
    isValidYYYYMM m = true ->
    getProfit s m
    = match findMonth s m with
      | Some c => p <- unitProfit s ;; Val (Money.multiply p (effectiveUnits c))
      | None => Val (DEFAULT_ZERO s)
      end.
Proof.
  intros s m V. unfold getProfit, getRevenue, getCOS, unitProfit.
  rewrite V. cbn [negb].
  destruct (findMonth s m) as [c|].
  - destruct (unitCost_total s) as [u|msg] eqn:Eu; cbn [bind]; [|reflexivity].
    pose proof (unitCost_total_currency s u Eu) as Cu.
    unfold Money.subtract.
    cbn [Money.multiply Money.fromMinor Money.currency Money.minor].
    rewrite Cu, currency_eqb_refl. cbn [bind Money.multiply Money.fromMinor
      Money.currency Money.minor].
    unfold Money.multiply, Money.fromMinor. cbn [Money.minor Money.currency].
    do 2 f_equal. ring.
  - cbn [bind]. unfold Money.subtract, DEFAULT_ZERO.
    cbn [Money.fromMinor Money.currency Money.minor].
    now rewrite currency_eqb_refl.
Qed.

Lemma getProfit_is_unitProfit_times_units_witness :
  getProfit (set_cos unsorted [hosting]) "2025-02"
  = Val (Money.fromMinor ((2900 - 30000) * 20) PHP).
Proof.
  rewrite (getProfit_is_unitProfit_times_units (set_cos unsorted [hosting])
             "2025-02" eq_refl).
  reflexivity.
Defined.

Lemma getRevenue_currency :
  forall s m rev,
    getRevenue s m = Val rev ->
    Money.currency rev = Money.currency (amount (rate s)).
Proof.
  intros s m rev H. unfold getRevenue in H.
  destruct (negb _); [discriminate|].
  destruct (findMonth s m); inversion H; reflexivity.
Qed.

Lemma subtract_opt_in_currency :
  forall s (a : Money.t) (o : option Money.t),
    Money.currency a = Money.currency (amount (rate s)) ->
    inRateCurrency s o ->
    subtract_opt a o
    = Val (Money.fromMinor (Money.minor a - minorOrZero o)
             (Money.currency (amount (rate s)))).
Proof.
  intros s [n c] [x|] Ha Ho; cbn in Ha, Ho |- *.
  - unfold Money.subtract. cbn. rewrite Ha, Ho, currency_eqb_refl. reflexivity.
  - subst c. unfold Money.fromMinor. do 2 f_equal. lia.
Qed.

(** Property X17. [getNetProfit] is the revenue of the month less the
    discounts, returns, allowances, operating expenses and taxes that are
    given (each in the currency of the rate), and nothing else: the cost of
    subscription does not enter, so the result is the same whatever the COS
    items are. [getNetIncome] is the same function. *)
Theorem net_profit_leaves_the_costs_out :
  forall s m rev opex taxes discounts returns allowances,
    getRevenue s m = Val rev ->
    inRateCurrency s opex -> inRateCurrency s taxes ->
    inRateCurrency s discounts -> inRateCurrency s returns ->
    inRateCurrency s allowances ->
    getNetProfit s m opex taxes discounts returns allowances
    = Val (Money.fromMinor
             (Money.minor rev - minorOrZero discounts - minorOrZero returns
              - minorOrZero allowances - minorOrZero opex - minorOrZero taxes)
             (Money.currency (amount (rate s))))
    /\ getNetIncome s m opex taxes discounts returns allowances
       = getNetProfit s m opex taxes discounts returns allowances
    /\ forall items,
         getNetProfit (set_cos s items) m opex taxes discounts returns
           allowances
         = getNetProfit s m opex taxes discounts returns allowances.
Proof.
  intros s m rev opex taxes discounts returns allowances R Ho Ht Hd Hr Ha.
  pose proof (getRevenue_currency s m rev R) as Cr.
  assert (V : isValidYYYYMM m = true).
  { destruct (isValidYYYYMM m) eqn:E; [reflexivity|].
    unfold getRevenue in R. rewrite E in R. discriminate. }
  split; [|split].
  - unfold getNetProfit, getNetRevenue. rewrite V, R. cbn [negb bind].
    repeat match goal with
           | |- context [subtract_opt ?a ?o] =>
               rewrite (subtract_opt_in_currency s a o)
                 by (assumption || reflexivity);
               cbn [bind]
           end.
    reflexivity.
  - unfold getNetIncome. now rewrite V.
  - intros items. reflexivity.
Qed.

Lemma net_profit_leaves_the_costs_out_witness :
  getNetProfit unsorted "2025-02" (Some (Money.fromMinor 10000 PHP)) None
    (Some (Money.fromMinor 500 PHP)) None None
  = Val (Money.fromMinor (58000 - 500 - 0 - 0 - 10000 - 0) PHP).
Proof.
  apply (proj1 (net_profit_leaves_the_costs_out unsorted "2025-02"
                  (Money.fromMinor 58000 PHP)
                  (Some (Money.fromMinor 10000 PHP)) None
                  (Some (Money.fromMinor 500 PHP)) None None
                  eq_refl eq_refl I eq_refl I I)).
Defined.

(** Property X18. Without a month (or with the empty string) [getMRR] reads
    the month of the clock: in the years 1000 to 9999 it is [getRevenue] of
    the key of the current UTC month, it does not throw, and it answers the
    rate times the effective units of the first entry of that month, or zero
    when the plan has none. *)
Theorem getMRR_reads_the_month_of_the_clock :
  forall now s,
    plainYear (clockYear now) -> 0 <= clockMonth now <= 11 ->
    let k := monthKey (clockYear now) (clockMonth now + 1) in
    getMRR now s None = getRevenue s k
    /\ getMRR now s (Some "") = getRevenue s k
    /\ getRevenue s k
       = Val match findMonth s k with
             | Some c => Money.multiply (amount (rate s)) (effectiveUnits c)
             | None => DEFAULT_ZERO s
             end.
Proof.
  intros now s Hy Hm k. split; [reflexivity|]. split; [reflexivity|].
  unfold getRevenue.
  assert (V : isValidYYYYMM k = true).
  { apply isValidYYYYMM_monthKey; [exact Hy|]. unfold calendarMonth. lia. }
  rewrite V. cbn [negb]. destruct (findMonth s k); reflexivity.
Qed.

Lemma getMRR_reads_the_month_of_the_clock_witness :
  getMRR noon unsorted None = getRevenue unsorted "2026-11"
  /\ getMRR noon unsorted (Some "") = getRevenue unsorted "2026-11"
  /\ getRevenue unsorted "2026-11" = Val (Money.fromMinor 0 PHP).
Proof.
  apply (getMRR_reads_the_month_of_the_clock noon unsorted).
  - unfold plainYear. cbn. lia.
  - cbn. lia.
Defined.

(** ** forecastRevenue *)

Lemma sumZ_app :
  forall l l', sumZ (l ++ l') = sumZ l + sumZ l'.
Proof. induction l as [|x l IH]; intros l'; cbn; [reflexivity|]. rewrite IH. lia. Qed.

Lemma sumZ_perm :
  forall l l', Permutation l l' -> sumZ l = sumZ l'.
Proof. induction 1; cbn; lia. Qed.

Lemma upfrom_app :
  forall n m i,
    upfrom i (n + m) = (upfrom i n ++ upfrom (i + Z.of_nat n) m)%list.
Proof.
  induction n as [|n IH]; intros m i.
  - cbn. now rewrite Z.add_0_r.
  - cbn [Nat.add upfrom app]. f_equal. rewrite IH. do 2 f_equal. lia.
Qed.

Lemma upfrom_shift :
  forall n i d, upfrom (i + d) n = map (fun j => j + d) (upfrom i n).
Proof.
  induction n as [|n IH]; intros i d; cbn; [reflexivity|].
  f_equal. rewrite <- IH. f_equal. lia.
Qed.

Lemma sum_one_cycle :
  forall (g : Z -> Z) n k,
    0 < n ->
    sumZ (map (fun j => g (j mod n)) (upfrom (k * n) (Z.to_nat n)))
    = sumZ (map g (upfrom 0 (Z.to_nat n))).
Proof.
  intros g n k Hn.
  replace (k * n) with (0 + k * n) by lia.
  rewrite upfrom_shift, map_map. f_equal.
  apply map_ext_in. intros j Hj. apply in_upfrom in Hj.
  rewrite Z.mod_add by lia. rewrite Z.mod_small by lia. reflexivity.
Qed.

Lemma sum_cycles :
  forall (g : Z -> Z) n (k : nat),
    0 < n ->
    sumZ (map (fun j => g (j mod n)) (upfrom 0 (k * Z.to_nat n)))
    = Z.of_nat k * sumZ (map g (upfrom 0 (Z.to_nat n))).
Proof.
  intros g n k Hn. induction k as [|k IH]; [reflexivity|].
  rewrite Nat.mul_succ_l, upfrom_app, map_app, sumZ_app, IH.
  replace (0 + Z.of_nat (k * Z.to_nat n)) with (Z.of_nat k * n) by lia.
  rewrite sum_one_cycle by exact Hn. lia.
Qed.

Lemma sum_over_positions :
  forall (l : list MonthlyCapacity) first (k : nat),
    (k <= List.length l)%nat ->
    sumZ (map (fun j => effectiveUnits (nth (Z.to_nat j) l first))
              (upfrom 0 k))
    = sumZ (map effectiveUnits (firstn k l)).
Proof.
  intros l first k Hk.
  rewrite <- (nth_over_upfrom _ first l k Hk), map_map. reflexivity.
Qed.

Lemma forecast_from_closed :
  forall s l first,
    l <> [] ->
    forall fuel i acc,
      0 <= i ->
      Money.currency acc = Money.currency (amount (rate s)) ->
      forecast_from s l first fuel i acc
      = Val (Money.fromMinor
               (Money.minor acc
                + Money.minor (amount (rate s))
                  * sumZ (map (fun j =>
                                 effectiveUnits
                                   (nth (Z.to_nat (j mod Z.of_nat (List.length l)))
                                        l first))
                              (upfrom i fuel)))
               (Money.currency (amount (rate s)))).
Proof.
  intros s l first Hl.
  assert (Hn : 0 < Z.of_nat (List.length l)).
  { destruct l; [congruence|]. cbn [List.length]. lia. }
  induction fuel as [|fuel IH]; intros i acc Hi Hc.
  - cbn [forecast_from upfrom map sumZ]. destruct acc as [n c]. cbn in Hc |- *.
    subst c. unfold Money.fromMinor. do 2 f_equal. lia.
  - cbn [forecast_from upfrom map sumZ].
    rewrite Z.rem_mod_nonneg by lia.
    unfold Money.add at 1.
    cbn [Money.multiply Money.fromMinor Money.currency Money.minor].
    rewrite Hc, currency_eqb_refl. cbn [bind].
    rewrite IH by (try lia; reflexivity).
    cbn [Money.fromMinor Money.minor]. unfold Money.fromMinor.
    do 2 f_equal. unfold effectiveUnits at 2. lia.
Qed.

Lemma sortByMonth_length :
  forall l, List.length (sortByMonth l) = List.length l.
Proof. intros l. apply Permutation_length, sortByMonth_perm. Qed.

Lemma sortByMonth_units :
  forall l,
    sumZ (map effectiveUnits (sortByMonth l)) = sumZ (map effectiveUnits l).
Proof.
  intros l. apply sumZ_perm, Permutation_map, sortByMonth_perm.
Qed.

(** Property X19. [forecastRevenue] walks the plan in the order of its
    months and starts again at the first when the plan is used up. For a
    plan with at least one entry: over no more months than the plan has (its
    months written with digits and hyphens), the forecast is the rate times
    the effective units of the earliest of them; over [k] times the length
    of the plan it is [k] times the gross revenue; so [getARR()], which
    forecasts 12 months, is the gross revenue of a plan of twelve entries. *)
Theorem forecastRevenue_repeats_the_plan :
  forall s p,
    capacityPlan (metadata s) = Some p -> p <> [] ->
    (forall n : Q,
        plainMonths p ->
        isInteger n = true -> (0 < n)%Q ->
        Qfloor n <= Z.of_nat (List.length p) ->
        forecastRevenue s n
        = Val (Money.multiply (amount (rate s))
                 (sumZ (map effectiveUnits
                          (firstn (Z.to_nat (Qfloor n)) (sortByMonth p))))))
    /\ (forall (n : Q) (k : Z),
           isInteger n = true -> (0 < n)%Q ->
           Qfloor n = k * Z.of_nat (List.length p) ->
           forecastRevenue s n
           = Val (Money.multiply (amount (rate s)) (k * totalCapacity s)))
    /\ (List.length p = 12%nat -> getARR s None = computeGrossRevenue s).
Proof.
  intros s p Hp Hne.
  assert (Hs : sortByMonth p <> []).
  { intros E. apply (f_equal (@List.length _)) in E.
    rewrite sortByMonth_length in E. destruct p; [congruence|discriminate]. }
  assert (Hlen : 0 < Z.of_nat (List.length p)).
  { destruct p; [congruence|]. cbn [List.length]. lia. }
  assert (F : forall n : Q,
             isInteger n = true -> (0 < n)%Q ->
             forecastRevenue s n
             = Val (Money.multiply (amount (rate s))
                      (sumZ (map (fun j =>
                                    effectiveUnits
                                      (nth (Z.to_nat
                                              (j mod Z.of_nat (List.length p)))
                                           (sortByMonth p)
                                           (hd (entry "" 0 None) p)))
                                 (upfrom 0 (Z.to_nat (Qfloor n))))))).
  { intros n Hi Hpos. unfold forecastRevenue.
    assert (G : negb (isInteger n) || Qle_bool n 0 = false)
      by (apply positive_integer_guard; auto).
    rewrite G, Hp. destruct p as [|first rest]; [congruence|].
    rewrite (forecast_from_closed s _ first Hs) by (try lia; reflexivity).
    rewrite sortByMonth_length. cbn [hd DEFAULT_ZERO Money.fromMinor
      Money.minor]. unfold Money.multiply, Money.fromMinor. reflexivity. }
  assert (T : totalCapacity s = sumZ (map effectiveUnits p)).
  { rewrite totalCapacity_sum. unfold planOrEmpty. now rewrite Hp. }
  assert (K : forall (n : Q) (k : Z),
             isInteger n = true -> (0 < n)%Q ->
             Qfloor n = k * Z.of_nat (List.length p) ->
             forecastRevenue s n
             = Val (Money.multiply (amount (rate s)) (k * totalCapacity s))).
  { intros n k Hi Hpos Hk. rewrite (F n Hi Hpos). do 2 f_equal.
    assert (Hk0 : 0 <= k).
    { assert (0 <= Qfloor n).
      { change 0 with (Qfloor 0). apply Qfloor_resp_le.
        now apply Qlt_le_weak. }
      nia. }
    replace (Z.to_nat (Qfloor n))
      with (Z.to_nat k * Z.to_nat (Z.of_nat (List.length p)))%nat
      by (rewrite Hk; lia).
    rewrite (sum_cycles
               (fun j => effectiveUnits
                           (nth (Z.to_nat j) (sortByMonth p)
                                (hd (entry "" 0 None) p)))
               (Z.of_nat (List.length p)) (Z.to_nat k) Hlen).
    rewrite Nat2Z.id.
    rewrite (sum_over_positions (sortByMonth p) _ (List.length p))
      by (rewrite sortByMonth_length; lia).
    rewrite <- (sortByMonth_length p) at 1. rewrite firstn_all.
    rewrite sortByMonth_units, T, Z2Nat.id by lia. reflexivity. }
  split; [|split; [exact K|]].
  - intros n _ Hi Hpos Hshort. rewrite (F n Hi Hpos). do 2 f_equal.
    rewrite <- (sum_over_positions (sortByMonth p) (hd (entry "" 0 None) p))
      by (rewrite sortByMonth_length; lia).
    f_equal. apply map_ext_in. intros j Hj. apply in_upfrom in Hj.
    rewrite Z.mod_small by lia. reflexivity.
  - intros H12. unfold getARR.
    rewrite (K 12%Q 1) by (try reflexivity; rewrite H12; reflexivity).
    now rewrite computeGrossRevenue_closed, Z.mul_1_l.
Qed.

Lemma forecastRevenue_repeats_the_plan_witness :
  forecastRevenue unsorted 4
  = Val (Money.multiply (amount (rate unsorted)) (2 * totalCapacity unsorted)).
Proof.
  apply (proj1 (proj2 (forecastRevenue_repeats_the_plan unsorted
                         [entry "2025-02" 20 None; entry "2025-01" 10 None]
                         eq_refl ltac:(discriminate)))
           4%Q 2 eq_refl eq_refl eq_refl).
Defined.

(** ** Capacity plan: extremes *)

Lemma fold_max_supply :
  forall (rest : list MonthlyCapacity) (first : MonthlyCapacity),
    let best :=
      fold_left
        (fun max current =>
           if (capacity current + match adjustment current with
                                  | Some a => a
                                  | None => 0
                                  end)
              >? (capacity max + match adjustment max with
                                 | Some a => a
                                 | None => 0
                                 end)
           then current else max)
        rest first in
    In best (first :: rest)
    /\ Forall (fun c => effectiveUnits c <= effectiveUnits best) (first :: rest)
    /\ exists before after,
        first :: rest = (before ++ best :: after)%list
        /\ Forall (fun c => effectiveUnits c < effectiveUnits best) before.
Proof.
  induction rest as [|x rest IH]; intros first best.
  - subst best. cbn. repeat split; auto.
    + constructor; [lia|constructor].
    + exists [], []. split; [reflexivity|constructor].
  - subst best. cbn [fold_left].
    fold (effectiveUnits x). fold (effectiveUnits first).
    destruct (Z.gtb_spec (effectiveUnits x) (effectiveUnits first)) as [G|G].
    + specialize (IH x). cbv zeta in IH.
      destruct IH as [I [A [before [after [E B]]]]].
      pose proof (Forall_inv A) as Hx. cbv beta in Hx.
      split; [right; exact I|]. split.
      * constructor; [lia|exact A].
      * exists (first :: before), after. split.
        -- cbn [app]. f_equal. exact E.
        -- constructor; [lia|exact B].
    + specialize (IH first). cbv zeta in IH.
      destruct IH as [I [A [before [after [E B]]]]].
      pose proof (Forall_inv A) as Hf. cbv beta in Hf.
      pose proof (Forall_inv_tail A) as At.
      split.
      * destruct I as [I|I]; [left; exact I|right; right; exact I].
      * split.
        -- constructor; [exact Hf|]. constructor; [lia|exact At].
        -- destruct before as [|b before].
           ++ exists [], (x :: after). cbn in E |- *.
              injection E as E1 E2. rewrite <- E1, E2.
              split; [reflexivity|constructor].
           ++ cbn in E. injection E as E1 E2. subst b.
              exists (first :: x :: before), after. split.
              ** cbn [app]. do 2 f_equal. exact E2.
              ** pose proof (Forall_inv B) as Hb. cbv beta in Hb.
                 pose proof (Forall_inv_tail B) as Bt.
                 constructor; [exact Hb|].
                 constructor; [lia|exact Bt].
Qed.

Lemma fold_min_supply :
  forall (rest : list MonthlyCapacity) (first : MonthlyCapacity),
    let best :=
      fold_left
        (fun min current =>
           if (capacity current + match adjustment current with
                                  | Some a => a
                                  | None => 0
                                  end)
              <? (capacity min + match adjustment min with
                                 | Some a => a
                                 | None => 0
                                 end)
           then current else min)
        rest first in
    In best (first :: rest)
    /\ Forall (fun c => effectiveUnits best <= effectiveUnits c) (first :: rest)
    /\ exists before after,
        first :: rest = (before ++ best :: after)%list
        /\ Forall (fun c => effectiveUnits best < effectiveUnits c) before.
Proof.
  induction rest as [|x rest IH]; intros first best.
  - subst best. cbn. repeat split; auto.
    + constructor; [lia|constructor].
    + exists [], []. split; [reflexivity|constructor].
  - subst best. cbn [fold_left].
    fold (effectiveUnits x). fold (effectiveUnits first).
    destruct (Z.ltb_spec (effectiveUnits x) (effectiveUnits first)) as [G|G].
    + specialize (IH x). cbv zeta in IH.
      destruct IH as [I [A [before [after [E B]]]]].
      pose proof (Forall_inv A) as Hx. cbv beta in Hx.
      split; [right; exact I|]. split.
      * constructor; [lia|exact A].
      * exists (first :: before), after. split.
        -- cbn [app]. f_equal. exact E.
        -- constructor; [lia|exact B].
    + specialize (IH first). cbv zeta in IH.
      destruct IH as [I [A [before [after [E B]]]]].
      pose proof (Forall_inv A) as Hf. cbv beta in Hf.
      pose proof (Forall_inv_tail A) as At.
      split.
      * destruct I as [I|I]; [left; exact I|right; right; exact I].
      * split.
        -- constructor; [exact Hf|]. constructor; [lia|exact At].
        -- destruct before as [|b before].
           ++ exists [], (x :: after). cbn in E |- *.
              injection E as E1 E2. rewrite <- E1, E2.
              split; [reflexivity|constructor].
           ++ cbn in E. injection E as E1 E2. subst b.
              exists (first :: x :: before), after. split.
              ** cbn [app]. do 2 f_equal. exact E2.
              ** pose proof (Forall_inv B) as Hb. cbv beta in Hb.
                 pose proof (Forall_inv_tail B) as Bt.
                 constructor; [exact Hb|].
                 constructor; [lia|exact Bt].
Qed.

(** Property X20. On a plan with at least one entry [maxSupplyMonth] and
    [minSupplyMonth] return entries of the plan; no entry has more effective
    units (capacity plus adjustment) than the first, none fewer than the
    second; and among entries with equal units each returns the one stored
    first. On an empty or missing plan both return [null]. *)
Theorem supply_extremes_are_entries_of_the_plan :
  forall s : MajikSubscription,
    (planOrEmpty s = [] -> maxSupplyMonth s = None /\ minSupplyMonth s = None)
    /\ (planOrEmpty s <> [] ->
        exists hi lo,
          maxSupplyMonth s = Some hi /\ minSupplyMonth s = Some lo
          /\ In hi (planOrEmpty s) /\ In lo (planOrEmpty s)
          /\ Forall (fun c => effectiveUnits lo <= effectiveUnits c
                              /\ effectiveUnits c <= effectiveUnits hi)
                    (planOrEmpty s)
          /\ (exists before after,
                 planOrEmpty s = (before ++ hi :: after)%list
                 /\ Forall (fun c => effectiveUnits c < effectiveUnits hi)
                           before)
          /\ (exists before after,
                 planOrEmpty s = (before ++ lo :: after)%list
                 /\ Forall (fun c => effectiveUnits lo < effectiveUnits c)
                           before)).
Proof.
  intros s. unfold maxSupplyMonth, minSupplyMonth. split.
  - intros ->. auto.
  - intros Hne. destruct (planOrEmpty s) as [|first rest]; [congruence|].
    destruct (fold_max_supply rest first) as [Ih [Ah Dh]].
    destruct (fold_min_supply rest first) as [Il [Al Dl]].
    eexists. eexists.
    split; [reflexivity|]. split; [reflexivity|].
    split; [exact Ih|]. split; [exact Il|].
    split; [|split; [exact Dh|exact Dl]].
    rewrite Forall_forall in Ah, Al |- *.
    intros c Hc. split; [apply (Al c Hc)|apply (Ah c Hc)].
Qed.

Lemma supply_extremes_are_entries_of_the_plan_witness :
  exists hi lo,
    maxSupplyMonth unsorted = Some hi /\ minSupplyMonth unsorted = Some lo
    /\ In hi (planOrEmpty unsorted) /\ In lo (planOrEmpty unsorted)
    /\ Forall (fun c => effectiveUnits lo <= effectiveUnits c
                        /\ effectiveUnits c <= effectiveUnits hi)
              (planOrEmpty unsorted)
    /\ (exists before after,
           planOrEmpty unsorted = (before ++ hi :: after)%list
           /\ Forall (fun c => effectiveUnits c < effectiveUnits hi) before)
    /\ (exists before after,
           planOrEmpty unsorted = (before ++ lo :: after)%list
           /\ Forall (fun c => effectiveUnits lo < effectiveUnits c) before).
Proof.
  apply (proj2 (supply_extremes_are_entries_of_the_plan unsorted)).
  discriminate.
Defined.

(** ** The order of month strings *)

Lemma compare_lt_trans :
  forall a b c,
    String.compare a b = Lt -> String.compare b c = Lt ->
    String.compare a c = Lt.
Proof.
  induction a as [|x a IH]; intros [|y b] [|z c] H1 H2; cbn in *;
    try discriminate; try reflexivity.
  unfold Ascii.compare in *.
  destruct (N.compare_spec (N_of_ascii x) (N_of_ascii y)) as [E1|L1|G1];
    try discriminate H1;
    destruct (N.compare_spec (N_of_ascii y) (N_of_ascii z)) as [E2|L2|G2];
    try discriminate H2;
    destruct (N.compare_spec (N_of_ascii x) (N_of_ascii z)) as [E3|L3|G3];
    try lia; try reflexivity.
  eapply IH; eassumption.
Qed.

Lemma ltb_irrefl : forall a, String.ltb a a = false.
Proof.
  intros a. unfold String.ltb.
  pose proof (String.compare_antisym a a) as H.
  destruct (String.compare a a); try reflexivity; discriminate.
Qed.

Lemma ltb_asym : forall a b, String.ltb a b = true -> String.ltb b a = false.
Proof.
  intros a b. unfold String.ltb. rewrite (String.compare_antisym b a).
  destruct (String.compare a b); cbn; congruence.
Qed.

(** [a <= b] and [b <= c] give [a <= c], where [x <= y] is "not [y < x]". *)
Lemma not_ltb_trans :
  forall a b c,
    String.ltb b a = false -> String.ltb c b = false -> String.ltb c a = false.
Proof.
  intros a b c H1 H2. unfold String.ltb in *.
  destruct (String.compare c a) eqn:Eca; try reflexivity.
  destruct (String.compare b a) eqn:Eba; try discriminate.
  - apply String.compare_eq_iff in Eba. subst b. now rewrite Eca in H2.
  - assert (Eab : String.compare a b = Lt)
      by (rewrite String.compare_antisym, Eba; reflexivity).
    now rewrite (compare_lt_trans c a b Eca Eab) in H2.
Qed.

Lemma not_ltb_antisym :
  forall a b, String.ltb a b = false -> String.ltb b a = false -> a = b.
Proof.
  intros a b H1 H2. unfold String.ltb in *.
  rewrite (String.compare_antisym b a) in H2.
  destruct (String.compare a b) eqn:E; try discriminate.
  now apply String.compare_eq_iff.
Qed.

Lemma fold_best_month :
  forall lt : string -> string -> bool,
    (forall a, lt a a = false) ->
    (forall a b, lt a b = true -> lt b a = false) ->
    (forall a b c, lt b a = false -> lt c b = false -> lt c a = false) ->
    forall (l : list MonthlyCapacity) (acc : string),
      let r := fold_left
                 (fun best current =>
                    if lt (month current) best then month current else best)
                 l acc in
      (r = acc \/ In r (months_of l))
      /\ lt acc r = false
      /\ Forall (fun c => lt (month c) r = false) l.
Proof.
  intros lt Hrefl Hasym Htrans.
  induction l as [|c l IH]; intros acc r.
  - subst r. cbn. auto.
  - subst r. cbn [fold_left].
    specialize (IH (if lt (month c) acc then month c else acc)).
    cbv zeta in IH. destruct IH as [I [L A]].
    set (r := fold_left _ l _) in *.
    destruct (lt (month c) acc) eqn:E.
    + split; [right; destruct I as [I|I]; [left; now rewrite I|right; exact I]|].
      split.
      * apply (Htrans r (month c) acc); [exact L|]. now apply Hasym.
      * constructor; [exact L|exact A].
    + split; [destruct I as [I|I]; [left; exact I|right; right; exact I]|].
      split; [exact L|].
      constructor; [|exact A].
      apply (Htrans r acc (month c)); [exact L|exact E].
Qed.

Lemma insert_by_month_ascending :
  forall x l,
    ascending (months_of l) -> ascending (months_of (insert_by_month x l)).
Proof.
  unfold ascending. intros x. induction l as [|y l IH]; intros H.
  - cbn. constructor; constructor.
  - cbn [insert_by_month]. unfold month_leb.
    inversion H as [|? ? Hl Hy]; subst.
    destruct (String.ltb (month y) (month x)) eqn:E; cbn [negb].
    + cbn [months_of map]. constructor; [now apply IH|].
      change (Forall (fun b => String.ltb b (month y) = false)
                (months_of (insert_by_month x l))).
      assert (P : Permutation (months_of (insert_by_month x l))
                    (months_of (x :: l)))
        by (apply Permutation_map, insert_by_month_perm).
      eapply Permutation_Forall; [symmetry; exact P|].
      cbn. constructor; [|exact Hy]. now apply ltb_asym.
    + cbn [months_of map]. constructor; [exact H|].
      constructor; [exact E|].
      rewrite Forall_forall in Hy |- *. intros m Hm.
      apply (not_ltb_trans (month x) (month y) m); [exact E|now apply Hy].
Qed.

Lemma sortByMonth_ascending :
  forall l, ascending (months_of (sortByMonth l)).
Proof.
  induction l as [|x l IH]; cbn.
  - constructor.
  - now apply insert_by_month_ascending.
Qed.

Lemma earliestCapacityMonth_spec :
  forall s first rest,
    capacityPlan (metadata s) = Some (first :: rest) ->
    exists lo,
      earliestCapacityMonth s = Some lo
      /\ In lo (months_of (first :: rest))
      /\ Forall (fun c => String.ltb (month c) lo = false) (first :: rest).
Proof.
  intros s first rest H.
  unfold earliestCapacityMonth, hasCapacity, planOrEmpty. rewrite H.
  cbn [negb].
  destruct (fold_best_month String.ltb ltb_irrefl ltb_asym not_ltb_trans
              (first :: rest) (month first)) as [I [_ A]].
  eexists. split; [reflexivity|]. split; [|exact A].
  destruct I as [E|I]; [rewrite E; left; reflexivity|exact I].
Qed.

Lemma latestCapacityMonth_spec :
  forall s first rest,
    capacityPlan (metadata s) = Some (first :: rest) ->
    exists hi,
      latestCapacityMonth s = Some hi
      /\ In hi (months_of (first :: rest))
      /\ Forall (fun c => JS.str_gt (month c) hi = false) (first :: rest).
Proof.
  intros s first rest H.
  unfold latestCapacityMonth, hasCapacity, planOrEmpty. rewrite H.
  cbn [negb].
  destruct (fold_best_month JS.str_gt
              (fun a => ltb_irrefl a)
              (fun a b => ltb_asym b a)
              (fun a b c H1 H2 => not_ltb_trans c b a H2 H1)
              (first :: rest) (month first)) as [I [_ A]].
  eexists. split; [reflexivity|]. split; [|exact A].
  destruct I as [E|I]; [rewrite E; left; reflexivity|exact I].
Qed.

(** Property X21. On a plan with at least one entry [earliestCapacityMonth]
    and [latestCapacityMonth] return months of the plan; no month of the
    plan is before the first or after the second in the order of strings
    (which for well-formed keys is the order of the calendar); and, the
    months being written with digits and hyphens, the earliest month is the
    month of the first entry of the plan sorted by month, where [applyTrial]
    and [forecastRevenue] start. Without an entry both return [null]. *)
Theorem capacity_month_range :
  forall s : MajikSubscription,
    (hasCapacity s = false ->
     earliestCapacityMonth s = None /\ latestCapacityMonth s = None)
    /\ (hasCapacity s = true ->
        exists lo hi,
          earliestCapacityMonth s = Some lo /\ latestCapacityMonth s = Some hi
          /\ In lo (months_of (planOrEmpty s))
          /\ In hi (months_of (planOrEmpty s))
          /\ Forall (fun m => String.ltb m lo = false /\ JS.str_gt m hi = false)
                    (months_of (planOrEmpty s))
          /\ (plainMonths (planOrEmpty s) ->
              option_map month (hd_error (sortByMonth (planOrEmpty s)))
              = Some lo)).
Proof.
  intros s. split.
  - unfold earliestCapacityMonth, latestCapacityMonth. intros ->. auto.
  - intros Hc.
    assert (Hp : exists first rest,
               capacityPlan (metadata s) = Some (first :: rest)).
    { unfold hasCapacity in Hc.
      destruct (capacityPlan (metadata s)) as [[|first rest]|];
        try discriminate Hc. eauto. }
    destruct Hp as [first [rest Hp]].
    destruct (earliestCapacityMonth_spec s first rest Hp) as [lo [El [Inlo Al]]].
    destruct (latestCapacityMonth_spec s first rest Hp) as [hi [Eh [Inhi Ah]]].
    unfold planOrEmpty. rewrite Hp.
    exists lo, hi. split; [exact El|]. split; [exact Eh|].
    split; [exact Inlo|]. split; [exact Inhi|]. split.
    + rewrite Forall_forall in Al, Ah |- *. intros m Hm.
      unfold months_of in Hm. apply in_map_iff in Hm.
      destruct Hm as [c [<- Hin]]. split; [now apply Al|now apply Ah].
    + intros _.
      pose proof (sortByMonth_ascending (first :: rest)) as S.
      pose proof (sortByMonth_perm (first :: rest)) as P.
      destruct (sortByMonth (first :: rest)) as [|h t] eqn:Es.
      * apply Permutation_nil in P. discriminate P.
      * cbn [hd_error option_map]. f_equal.
        apply not_ltb_antisym.
        -- rewrite Forall_forall in Al.
           assert (Hh : In h (first :: rest))
             by (apply (Permutation_in h P); left; reflexivity).
           exact (Al h Hh).
        -- unfold ascending in S. cbn [months_of map] in S.
           inversion S as [|? ? _ Hall]; subst.
           assert (Hlo : In lo (months_of (h :: t))).
           { unfold months_of.
             apply (Permutation_in lo
                      (Permutation_map month (Permutation_sym P))).
             exact Inlo. }
           destruct Hlo as [<-|Hlo]; [apply ltb_irrefl|].
           rewrite Forall_forall in Hall. now apply Hall.
Qed.

Lemma capacity_month_range_witness :
  exists lo hi,
    earliestCapacityMonth unsorted = Some lo
    /\ latestCapacityMonth unsorted = Some hi
    /\ In lo (months_of (planOrEmpty unsorted))
    /\ In hi (months_of (planOrEmpty unsorted))
    /\ Forall (fun m => String.ltb m lo = false /\ JS.str_gt m hi = false)
              (months_of (planOrEmpty unsorted))
    /\ (plainMonths (planOrEmpty unsorted) ->
        option_map month (hd_error (sortByMonth (planOrEmpty unsorted)))
        = Some lo).
Proof.
  apply (proj2 (capacity_month_range unsorted)). reflexivity.
Defined.

(** ** applyTrial, on a plan *)

Lemma trial_first_split :
  forall n l,
    trial_first n l = (map given_away (firstn n l) ++ skipn n l)%list.
Proof.
  induction n as [|n IH]; intros [|c l]; try reflexivity.
  cbn [trial_first firstn skipn map app]. now rewrite IH.
Qed.

Lemma given_away_units :
  forall c, effectiveUnits (given_away c) = adjustmentOrZero c.
Proof.
  intros c. unfold effectiveUnits, given_away, adjustmentOrZero. cbn. lia.
Qed.

Lemma units_as_capacity_and_adjustment :
  forall l,
    sumZ (map effectiveUnits l)
    = sumZ (map capacity l) + sumZ (map adjustmentOrZero l).
Proof.
  induction l as [|c l IH]; cbn [map sumZ]; [reflexivity|].
  rewrite IH. unfold effectiveUnits, adjustmentOrZero. lia.
Qed.

(** Property X22. [applyTrial] on a plan with one entry per month (so that
    no entry object sits in two slots) whose months are written with digits
    and hyphens, for a positive integer [months]: the plan is sorted by
    month (the same entries, in ascending order of their month strings, no
    two alike) and the first [months] entries of the sorted plan, or all of
    them if there are fewer, get the adjustment "old adjustment, or 0,
    minus capacity"; the other entries and every month and capacity stay,
    and the plan still has one entry per month. The effective units of a
    trial month are then its old adjustment (zero when it had none), and
    the total of the plan goes down by the capacities of the trial
    months. *)
Theorem applyTrial_gives_the_first_months_away :
  forall now months s p,
    capacityPlan (metadata s) = Some p ->
    uniqueMonths s ->
    plainMonths p ->
    isInteger months = true -> (0 < months)%Q ->
    let n := Z.to_nat (Qfloor months) in
    let sorted := sortByMonth p in
    let newPlan := (map given_away (firstn n sorted) ++ skipn n sorted)%list in
    applyTrial now months s
    = Return (markFinanceDirty (updateTimestamp now
                (set_plan s (Some newPlan))))
    /\ Permutation sorted p
    /\ ascending (months_of sorted)
    /\ NoDup (months_of sorted)
    /\ months_of newPlan = months_of sorted
    /\ map capacity newPlan = map capacity sorted
    /\ (forall c, effectiveUnits (given_away c) = adjustmentOrZero c)
    /\ sumZ (map effectiveUnits newPlan)
       = totalCapacity s - sumZ (map capacity (firstn n sorted)).
Proof.
  intros now months s p Hp Hu _ Hi Hpos n sorted newPlan.
  assert (G : negb (isInteger months) || Qle_bool months 0 = false)
    by (apply positive_integer_guard; auto).
  split; [|split; [|split; [|split; [|split; [|split; [|split]]]]]].
  - unfold applyTrial. rewrite G, Hp.
    fold sorted. fold n. now rewrite trial_first_split.
  - apply sortByMonth_perm.
  - apply sortByMonth_ascending.
  - unfold uniqueMonths, planOrEmpty in Hu. rewrite Hp in Hu.
    apply (Permutation_NoDup (l := months_of p)); [|exact Hu].
    unfold months_of. apply Permutation_map, Permutation_sym.
    apply sortByMonth_perm.
  - unfold newPlan. rewrite <- trial_first_split.
    apply months_of_trial_first.
  - unfold newPlan. rewrite map_app, map_map.
    change (fun x => capacity (given_away x)) with capacity.
    rewrite <- map_app. now rewrite firstn_skipn.
  - apply given_away_units.
  - unfold newPlan. rewrite map_app, sumZ_app, map_map.
    rewrite (map_ext _ _ given_away_units).
    rewrite totalCapacity_sum. unfold planOrEmpty. rewrite Hp.
    rewrite <- (sortByMonth_units p). fold sorted.
    rewrite <- (firstn_skipn n sorted) at 3.
    rewrite map_app, sumZ_app.
    rewrite (units_as_capacity_and_adjustment (firstn n sorted)). lia.
Qed.

Lemma applyTrial_gives_the_first_months_away_witness :
  uniqueMonths unsorted
  /\ applyTrial later 1 unsorted
     = Return (markFinanceDirty (updateTimestamp later
                 (set_plan unsorted
                    (Some [entry "2025-01" 10 (Some (-10));
                           entry "2025-02" 20 None])))).
Proof.
  assert (P : plainMonths [entry "2025-02" 20 None; entry "2025-01" 10 None])
    by (repeat constructor).
  assert (U : uniqueMonths unsorted).
  { unfold uniqueMonths. cbn. repeat constructor; cbn; intuition discriminate. }
  split; [exact U|].
  apply (proj1 (applyTrial_gives_the_first_months_away later 1 unsorted
                  [entry "2025-02" 20 None; entry "2025-01" 10 None]
                  eq_refl U P eq_refl eq_refl)).
Defined.

(** ** recomputeCapacityPeriod and normalizeCapacityUnits *)

(** What [recomputeCapacityPeriod] refuses, in the order it
    checks, in either mode and leaving the object as it was: a bound that
    fails [isValidYYYYMM]; then an object without a plan entry; then, for
    two well-formed keys of the years 1000 to 9999, a start month after the
    end month. *)
Lemma recomputeCapacityPeriod_refusals :
  forall env now mode s,
    (forall a b,
        isValidYYYYMM a = false \/ isValidYYYYMM b = false ->
        recomputeCapacityPeriod env now a b mode s
        = Throw "Invalid YYYYMM period" s)
    /\ (forall a b,
           isValidYYYYMM a = true -> isValidYYYYMM b = true ->
           hasCapacity s = false ->
           recomputeCapacityPeriod env now a b mode s
           = Throw "No existing capacity plan to recompute" s)
    /\ (forall ys ms ye me,
           plainYear ys -> calendarMonth ms ->
           plainYear ye -> calendarMonth me ->
           hasCapacity s = true ->
           monthIndex ye me < monthIndex ys ms ->
           recomputeCapacityPeriod env now (monthKey ys ms) (monthKey ye me)
             mode s
           = Throw "Start month must be <= end month" s).
Proof.
  intros env now mode s. split; [|split].
  - intros a b [H|H]; unfold recomputeCapacityPeriod; rewrite H;
      cbn [negb orb]; [reflexivity|now rewrite orb_true_r].
  - intros a b Ha Hb Hc. unfold recomputeCapacityPeriod.
    now rewrite Ha, Hb, Hc.
  - intros ys ms ye me Hys Hms Hye Hme Hc Hlt.
    unfold recomputeCapacityPeriod.
    rewrite !isValidYYYYMM_monthKey, Hc, str_gt_monthKey by assumption.
    cbn [negb orb].
    destruct (Z.ltb_spec (monthIndex ye me) (monthIndex ys ms)); [reflexivity|lia].
Qed.


(** Property X23. [normalizeCapacityUnits] with an amount that is not
    negative: on a plan of two or more entries every capacity becomes the
    amount while the months and the adjustments stay, so the total is the
    amount times the number of entries plus the adjustments; a plan of
    exactly one entry is returned untouched, whatever its capacity; without
    an entry the call throws. *)
Theorem normalizeCapacityUnits_effect :
  forall now amount0 s,
    0 <= amount0 ->
    (forall a b rest,
        capacityPlan (metadata s) = Some (a :: b :: rest) ->
        exists s',
          normalizeCapacityUnits now amount0 s = Return s'
          /\ months_of (planOrEmpty s') = months_of (planOrEmpty s)
          /\ map adjustment (planOrEmpty s') = map adjustment (planOrEmpty s)
          /\ Forall (fun c => capacity c = amount0) (planOrEmpty s')
          /\ totalCapacity s'
             = amount0 * Z.of_nat (List.length (planOrEmpty s))
               + sumZ (map adjustmentOrZero (planOrEmpty s))
          /\ financeDirty s' = true)
    /\ (forall a,
           capacityPlan (metadata s) = Some [a] ->
           normalizeCapacityUnits now amount0 s = Return s)
    /\ (hasCapacity s = false ->
        normalizeCapacityUnits now amount0 s = Throw "Supply plan is empty" s).
Proof.
  intros now amount0 s Ha.
  assert (G : (amount0 <? 0) = false) by (apply Z.ltb_ge; exact Ha).
  split; [|split].
  - intros a b rest Hp. unfold normalizeCapacityUnits. rewrite G, Hp.
    eexists. split; [reflexivity|].
    unfold planOrEmpty. rewrite Hp.
    cbn [metadata markFinanceDirty updateTimestamp set_last_update set_dirty
         set_plan with_metadata with_capacityPlan capacityPlan financeDirty].
    set (l := a :: b :: rest).
    split; [|split; [|split; [|split; [|reflexivity]]]].
    + unfold months_of. rewrite map_map. reflexivity.
    + rewrite map_map. reflexivity.
    + apply Forall_forall. intros c Hc. apply in_map_iff in Hc.
      destruct Hc as [c0 [<- _]]. reflexivity.
    + rewrite totalCapacity_sum. unfold planOrEmpty.
      cbn [metadata markFinanceDirty updateTimestamp set_last_update set_dirty
           set_plan with_metadata with_capacityPlan capacityPlan].
      fold l. rewrite units_as_capacity_and_adjustment, !map_map.
      cbn [capacity]. f_equal.
      clear. induction l as [|c l IH]; cbn [map sumZ List.length]; [lia|].
      rewrite IH. lia.
  - intros a Hp. unfold normalizeCapacityUnits. now rewrite G, Hp.
  - intros Hc. unfold normalizeCapacityUnits, hasCapacity in *. rewrite G.
    destruct (capacityPlan (metadata s)) as [[|a l]|];
      try discriminate Hc; reflexivity.
Qed.

Lemma normalizeCapacityUnits_effect_witness :
  exists s',
    normalizeCapacityUnits later 7 unsorted = Return s'
    /\ months_of (planOrEmpty s') = months_of (planOrEmpty unsorted)
    /\ map adjustment (planOrEmpty s') = map adjustment (planOrEmpty unsorted)
    /\ Forall (fun c => capacity c = 7) (planOrEmpty s')
    /\ totalCapacity s'
       = 7 * Z.of_nat (List.length (planOrEmpty unsorted))
         + sumZ (map adjustmentOrZero (planOrEmpty unsorted))
    /\ financeDirty s' = true.
Proof.
  assert (P : 0 <= 7) by lia.
  apply (proj1 (normalizeCapacityUnits_effect later 7 unsorted P)
           (entry "2025-02" 20 None) (entry "2025-01" 10 None) []).
  reflexivity.
Defined.

(** ** Adding, changing and removing one month *)

Lemma findIndex_snoc :
  forall (A : Type) (p : A -> bool) (l : list A) (x : A),
    existsb p l = false -> p x = true ->
    findIndex p (l ++ [x]) = Some (List.length l).
Proof.
  intros A p. induction l as [|y l IH]; intros x H Hx; cbn in *.
  - now rewrite Hx.
  - apply orb_false_elim in H. destruct H as [Hy H].
    rewrite Hy, (IH x H Hx). reflexivity.
Qed.

Lemma find_snoc :
  forall (A : Type) (p : A -> bool) (l : list A) (x : A),
    existsb p l = false -> p x = true -> find p (l ++ [x]) = Some x.
Proof.
  intros A p. induction l as [|y l IH]; intros x H Hx; cbn in *.
  - now rewrite Hx.
  - apply orb_false_elim in H. destruct H as [Hy H].
    rewrite Hy. now apply IH.
Qed.

Lemma remove_at_snoc :
  forall (A : Type) (l : list A) (x : A),
    remove_at (List.length l) (l ++ [x]) = l.
Proof.
  intros A. induction l as [|y l IH]; intros x; cbn; [reflexivity|].
  now rewrite IH.
Qed.

Lemma not_in_months :
  forall (l : list MonthlyCapacity) m,
    ~ In m (months_of l) ->
    existsb (fun c => String.eqb (month c) m) l = false.
Proof.
  intros l m H.
  destruct (existsb _ l) eqn:E; [|reflexivity].
  apply existsb_month in E. contradiction.
Qed.

Lemma plan_after_set :
  forall now s p,
    planOrEmpty (markFinanceDirty (updateTimestamp now (set_plan s (Some p))))
    = p.
Proof. reflexivity. Qed.

Lemma plan_of_defaulted :
  forall s, planOrEmpty (set_plan s (Some (planOrEmpty s))) = planOrEmpty s.
Proof. reflexivity. Qed.

(** Property X24. [addCapacity] of a month the plan does not have, then
    [removeCapacity] of it: the first call appends the entry, so the revenue
    of the month is the rate times units plus adjustment and the total goes
    up by as much; the second call gives back the entries there were, in
    their order. *)
Theorem addCapacity_then_removeCapacity :
  forall now now' m units adj s,
    isValidYYYYMM m = true ->
    ~ In m (months_of (planOrEmpty s)) ->
    let added := {| month := m; capacity := units; adjustment := adj |} in
    exists s1 s2,
      addCapacity now m units adj s = Return s1
      /\ planOrEmpty s1 = (planOrEmpty s ++ [added])%list
      /\ totalCapacity s1 = totalCapacity s + effectiveUnits added
      /\ getRevenue s1 m
         = Val (Money.multiply (amount (rate s)) (effectiveUnits added))
      /\ removeCapacity now' m s1 = Return s2
      /\ planOrEmpty s2 = planOrEmpty s
      /\ totalCapacity s2 = totalCapacity s.
Proof.
  intros now now' m units adj s V N added.
  pose proof (not_in_months _ _ N) as E.
  assert (Hm : String.eqb (month added) m = true) by apply String.eqb_refl.
  assert (A : addCapacity now m units adj s
              = Return (markFinanceDirty (updateTimestamp now
                  (set_plan (set_plan s (Some (planOrEmpty s)))
                     (Some (planOrEmpty s ++ [added])%list))))).
  { unfold addCapacity. rewrite V. cbn [negb].
    rewrite plan_of_defaulted, E. reflexivity. }
  eexists. eexists. split; [exact A|].
  rewrite plan_after_set.
  split; [reflexivity|]. split.
  { rewrite !totalCapacity_sum, plan_after_set, map_app, sumZ_app.
    cbn [map sumZ]. lia. }
  split.
  { unfold getRevenue. rewrite V. cbn [negb]. unfold findMonth.
    rewrite plan_after_set, (find_snoc _ _ _ added E Hm). reflexivity. }
  split.
  { unfold removeCapacity. rewrite V. cbn [negb].
    rewrite plan_after_set, (findIndex_snoc _ _ _ added E Hm), remove_at_snoc.
    reflexivity. }
  split; [reflexivity|].
  apply totalCapacity_depends. reflexivity.
Qed.

Lemma addCapacity_then_removeCapacity_witness :
  exists s1 s2,
    addCapacity noon "2025-03" 30 (Some (-5)) unsorted = Return s1
    /\ planOrEmpty s1
       = (planOrEmpty unsorted ++ [entry "2025-03" 30 (Some (-5))])%list
    /\ totalCapacity s1
       = totalCapacity unsorted
         + effectiveUnits (entry "2025-03" 30 (Some (-5)))
    /\ getRevenue s1 "2025-03"
       = Val (Money.multiply (amount (rate unsorted))
                (effectiveUnits (entry "2025-03" 30 (Some (-5)))))
    /\ removeCapacity later "2025-03" s1 = Return s2
    /\ planOrEmpty s2 = planOrEmpty unsorted
    /\ totalCapacity s2 = totalCapacity unsorted.
Proof.
  apply (addCapacity_then_removeCapacity noon later "2025-03" 30 (Some (-5))
           unsorted).
  - reflexivity.
  - cbn. intuition discriminate.
Defined.

Lemma findIndex_of_find :
  forall (A : Type) (p : A -> bool) (l : list A) (c : A),
    find p l = Some c ->
    exists i,
      findIndex p l = Some i /\ p c = true /\ forall d, nth i l d = c.
Proof.
  intros A p. induction l as [|y l IH]; intros c H; [discriminate|].
  cbn in H |- *. destruct (p y) eqn:E.
  - inversion H; subst. exists O. auto.
  - destruct (IH c H) as [i [Hi [Hp Hn]]]. exists (S i).
    rewrite Hi. auto.
Qed.

Lemma findIndex_none_of_find :
  forall (A : Type) (p : A -> bool) (l : list A),
    find p l = None -> findIndex p l = None.
Proof.
  intros A p. induction l as [|y l IH]; intros H; [reflexivity|].
  cbn in H |- *. destruct (p y); [discriminate|]. now rewrite IH.
Qed.

Lemma find_after_store :
  forall (l : list MonthlyCapacity) m i x,
    findIndex (fun c => String.eqb (month c) m) l = Some i ->
    month x = m ->
    forall m',
      find (fun c => String.eqb (month c) m') (store i x l)
      = if String.eqb m m' then Some x
        else find (fun c => String.eqb (month c) m') l.
Proof.
  induction l as [|y l IH]; intros m i x H Hx m'; [discriminate|].
  cbn [findIndex] in H.
  destruct (String.eqb_spec (month y) m) as [Ey|Ey].
  - inversion H; subst i. cbn [store find]. rewrite Hx.
    destruct (String.eqb_spec m m') as [E|E]; [reflexivity|].
    destruct (String.eqb_spec (month y) m'); [congruence|reflexivity].
  - destruct (findIndex _ l) as [j|] eqn:Ej; [|discriminate].
    inversion H; subst i. cbn [store find].
    rewrite (IH m j x Ej Hx m').
    destruct (String.eqb_spec (month y) m') as [E|E]; [|reflexivity].
    destruct (String.eqb_spec m m'); [congruence|reflexivity].
Qed.

Lemma sum_after_store :
  forall (A : Type) (p : A -> bool) (f : A -> Z) (l : list A) i x d,
    findIndex p l = Some i ->
    sumZ (map f (store i x l)) = sumZ (map f l) - f (nth i l d) + f x.
Proof.
  intros A p f. induction l as [|y l IH]; intros i x d H; [discriminate|].
  cbn [findIndex] in H. destruct (p y).
  - inversion H; subst i. cbn. lia.
  - destruct (findIndex p l) as [j|] eqn:Ej; [|discriminate].
    inversion H; subst i. cbn [store map sumZ nth].
    rewrite (IH j x d eq_refl). lia.
Qed.

(** Property X25. On a plan with one entry per month (so that no entry
    object sits in two slots), [updateCapacityUnits] and
    [updateCapacityAdjustment] of a month that passes [isValidYYYYMM] change
    the entry of that month and nothing else: that entry gets the new
    capacity (or the new adjustment, which may be none), every other month
    reads as before, the months keep their order, so that the plan still
    has one entry per month, and the total moves by the difference. When
    the plan has no such month both throw and leave the object as it
    was. *)
Theorem capacity_updates_touch_one_month :
  forall now m s,
    isValidYYYYMM m = true ->
    uniqueMonths s ->
    (forall c units,
        findMonth s m = Some c ->
        let changed := {| month := month c; capacity := units;
                          adjustment := adjustment c |} in
        exists s',
          updateCapacityUnits now m units s = Return s'
          /\ findMonth s' m = Some changed
          /\ (forall m', m' <> m -> findMonth s' m' = findMonth s m')
          /\ months_of (planOrEmpty s') = months_of (planOrEmpty s)
          /\ uniqueMonths s'
          /\ totalCapacity s' = totalCapacity s + (units - capacity c))
    /\ (forall c adj,
           findMonth s m = Some c ->
           let changed := {| month := month c; capacity := capacity c;
                             adjustment := adj |} in
           exists s',
             updateCapacityAdjustment now m adj s = Return s'
             /\ findMonth s' m = Some changed
             /\ (forall m', m' <> m -> findMonth s' m' = findMonth s m')
             /\ months_of (planOrEmpty s') = months_of (planOrEmpty s)
             /\ uniqueMonths s'
             /\ totalCapacity s'
                = totalCapacity s
                  + (adjustmentOrZero changed - adjustmentOrZero c))
    /\ (findMonth s m = None ->
        forall units adj,
          updateCapacityUnits now m units s
          = Throw ("Month " ++ m ++ " not found") s
          /\ updateCapacityAdjustment now m adj s
             = Throw ("Month " ++ m ++ " not found") s).
Proof.
  intros now m s V U. split; [|split].
  - intros c units F changed. unfold findMonth in F.
    destruct (findIndex_of_find _ _ _ _ F) as [i [Hi [Hc Hn]]].
    apply String.eqb_eq in Hc.
    exists (markFinanceDirty (updateTimestamp now
              (set_plan s (Some (store i changed (planOrEmpty s)))))).
    split.
    { unfold updateCapacityUnits. rewrite V, Hi. cbn [negb].
      rewrite Hn. reflexivity. }
    assert (Hm : months_of (store i changed (planOrEmpty s))
                 = months_of (planOrEmpty s))
      by (apply (months_of_store _ i changed c); now rewrite Hn).
    unfold findMonth, uniqueMonths. rewrite plan_after_set.
    split; [|split; [|split; [|split]]].
    + rewrite (find_after_store _ m i changed Hi Hc m).
      now rewrite String.eqb_refl.
    + intros m' Hm'. rewrite (find_after_store _ m i changed Hi Hc m').
      destruct (String.eqb_spec m m'); [congruence|reflexivity].
    + exact Hm.
    + rewrite Hm. exact U.
    + rewrite !totalCapacity_sum, plan_after_set.
      rewrite (sum_after_store _ _ effectiveUnits _ i changed c Hi), Hn.
      unfold effectiveUnits, changed. cbn. lia.
  - intros c adj F changed. unfold findMonth in F.
    destruct (findIndex_of_find _ _ _ _ F) as [i [Hi [Hc Hn]]].
    apply String.eqb_eq in Hc.
    exists (markFinanceDirty (updateTimestamp now
              (set_plan s (Some (store i changed (planOrEmpty s)))))).
    split.
    { unfold updateCapacityAdjustment. rewrite V, Hi. cbn [negb].
      rewrite Hn. reflexivity. }
    assert (Hm : months_of (store i changed (planOrEmpty s))
                 = months_of (planOrEmpty s))
      by (apply (months_of_store _ i changed c); now rewrite Hn).
    unfold findMonth, uniqueMonths. rewrite plan_after_set.
    split; [|split; [|split; [|split]]].
    + rewrite (find_after_store _ m i changed Hi Hc m).
      now rewrite String.eqb_refl.
    + intros m' Hm'. rewrite (find_after_store _ m i changed Hi Hc m').
      destruct (String.eqb_spec m m'); [congruence|reflexivity].
    + exact Hm.
    + rewrite Hm. exact U.
    + rewrite !totalCapacity_sum, plan_after_set.
      rewrite (sum_after_store _ _ effectiveUnits _ i changed c Hi), Hn.
      unfold effectiveUnits, adjustmentOrZero, changed. cbn. lia.
  - intros F units adj. unfold findMonth in F.
    apply findIndex_none_of_find in F.
    unfold updateCapacityUnits, updateCapacityAdjustment.
    rewrite V, F. auto.
Qed.

Lemma capacity_updates_touch_one_month_witness :
  uniqueMonths unsorted
  /\ exists s',
      updateCapacityUnits later "2025-01" 15 unsorted = Return s'
      /\ findMonth s' "2025-01" = Some (entry "2025-01" 15 None)
      /\ (forall m', m' <> "2025-01" -> findMonth s' m' = findMonth unsorted m')
      /\ months_of (planOrEmpty s') = months_of (planOrEmpty unsorted)
      /\ uniqueMonths s'
      /\ totalCapacity s' = totalCapacity unsorted + (15 - 10).
Proof.
  assert (U : uniqueMonths unsorted).
  { unfold uniqueMonths. cbn. repeat constructor; cbn; intuition discriminate. }
  split; [exact U|].
  apply (proj1 (capacity_updates_touch_one_month later "2025-01" unsorted
                  eq_refl U)
           (entry "2025-01" 10 None) 15).
  reflexivity.
Defined.

(** ** The COS list *)

Lemma fold_left_snoc :
  forall (A B : Type) (f : B -> A -> B) (l : list A) (x : A) (b : B),
    fold_left f (l ++ [x]) b = f (fold_left f l b) x.
Proof. intros A B f l x b. now rewrite fold_left_app. Qed.

Lemma not_in_ids :
  forall (l : list (COSItem Money.t)) i,
    ~ In i (map cos_id l) ->
    existsb (fun c => String.eqb (cos_id c) i) l = false.
Proof.
  intros l i H. destruct (existsb _ l) eqn:E; [|reflexivity].
  apply existsb_exists in E. destruct E as [c [Hc He]].
  apply String.eqb_eq in He. exfalso. apply H. rewrite <- He.
  now apply in_map.
Qed.

Lemma assertCurrency_passes :
  forall s x,
    Money.currency x = Money.currency (amount (rate s)) ->
    assertCurrency s x = Val tt.
Proof.
  intros s x H. unfold assertCurrency. now rewrite H, currency_eqb_refl.
Qed.

Lemma assertCurrency_passed :
  forall s x u,
    assertCurrency s x = Val u ->
    Money.currency x = Money.currency (amount (rate s)).
Proof.
  intros s x u H. unfold assertCurrency in H.
  destruct (Money.currency_eqb _ _) eqn:E; [|discriminate].
  now apply currency_eqb_eq.
Qed.

(** Property X26. [addCOS] with a name of ASCII characters that is not
    blank, a positive quantity (1 when none is given) and a unit cost in
    the currency of the rate appends an item whose subtotal is unit cost
    times quantity, so the cost per unit goes up by exactly that;
    [removeCOS] of the identifier it was given, when no older item bears
    the same identifier, gives back the list there was. *)
Theorem addCOS_then_removeCOS :
  forall now now' genUID name0 unitCost0 quantity0 unit0 s,
    asciiText name0 = true ->
    is_blank name0 = false ->
    let q := match quantity0 with Some q => q | None => 1 end in
    0 < q ->
    Money.currency unitCost0 = Money.currency (amount (rate s)) ->
    let newId := autogenerateID genUID "mjksubcost" in
    ~ In newId (map cos_id (cos (metadata s))) ->
    exists s1 s2,
      addCOS now genUID name0 unitCost0 quantity0 unit0 s = Return s1
      /\ unitCost_total s1
         = (u <- unitCost_total s ;;
            Money.add u (Money.multiply unitCost0 q))
      /\ removeCOS now' newId s1 = Return s2
      /\ cos (metadata s2) = cos (metadata s)
      /\ unitCost_total s2 = unitCost_total s.
Proof.
  intros now now' genUID name0 unitCost0 quantity0 unit0 s _ Hn q Hq Hc newId N.
  pose proof (not_in_ids _ _ N) as E.
  set (newItem := {| cos_id := newId; item := name0; unitCost := unitCost0;
                     quantity := q; subtotal := Money.multiply unitCost0 q;
                     cos_unit := unit0 |}).
  assert (Hid : String.eqb (cos_id newItem) newId = true)
    by apply String.eqb_refl.
  assert (A : addCOS now genUID name0 unitCost0 quantity0 unit0 s
              = Return (markFinanceDirty (updateTimestamp now
                  (set_cos s (cos (metadata s) ++ [newItem])%list)))).
  { unfold addCOS. fold q. rewrite Hn.
    destruct (Z.leb_spec q 0); [lia|].
    now rewrite (assertCurrency_passes s unitCost0 Hc). }
  eexists. eexists. split; [exact A|]. split.
  { unfold unitCost_total.
    change (cos (metadata (markFinanceDirty (updateTimestamp now
              (set_cos s (cos (metadata s) ++ [newItem])%list)))))
      with (cos (metadata s) ++ [newItem])%list.
    rewrite fold_left_snoc. reflexivity. }
  split.
  { unfold removeCOS.
    change (cos (metadata (markFinanceDirty (updateTimestamp now
              (set_cos s (cos (metadata s) ++ [newItem])%list)))))
      with (cos (metadata s) ++ [newItem])%list.
    rewrite (findIndex_snoc _ _ _ newItem E Hid), remove_at_snoc.
    reflexivity. }
  split; reflexivity.
Qed.

Lemma addCOS_then_removeCOS_witness :
  exists s1 s2,
    addCOS noon "Q1w2E3r4" "Support" (Money.fromMinor 5000 PHP) (Some 3) None
      withHosting = Return s1
    /\ unitCost_total s1
       = (u <- unitCost_total withHosting ;;
          Money.add u (Money.multiply (Money.fromMinor 5000 PHP) 3))
    /\ removeCOS later "mjksubcost-Q1w2E3r4" s1 = Return s2
    /\ cos (metadata s2) = cos (metadata withHosting)
    /\ unitCost_total s2 = unitCost_total withHosting.
Proof.
  apply (addCOS_then_removeCOS noon later "Q1w2E3r4" "Support"
           (Money.fromMinor 5000 PHP) (Some 3) None withHosting).
  - reflexivity.
  - reflexivity.
  - lia.
  - reflexivity.
  - cbn. intuition discriminate.
Defined.

Lemma Forall_store :
  forall (A : Type) (P : A -> Prop) (l : list A) i x,
    Forall P l -> P x -> Forall P (store i x l).
Proof.
  intros A P. induction l as [|y l IH]; intros i x H Hx; destruct i; cbn;
    try constructor; try assumption.
  - now inversion H.
  - now inversion H.
  - apply IH; [now inversion H|assumption].
Qed.

Lemma Forall_remove_at :
  forall (A : Type) (P : A -> Prop) (l : list A) i,
    Forall P l -> Forall P (remove_at i l).
Proof.
  intros A P l i H. rewrite Forall_forall in H |- *.
  intros x Hx. apply H. now apply (remove_at_incl _ _ i).
Qed.

Lemma Forall_nth_or_default :
  forall (A : Type) (P : A -> Prop) (l : list A) i d,
    Forall P l -> P d -> P (nth i l d).
Proof.
  intros A P. induction l as [|y l IH]; intros i d H Hd; destruct i; cbn;
    try assumption.
  - now inversion H.
  - apply IH; [now inversion H|assumption].
Qed.

Lemma cosConsistent_transfer :
  forall s s',
    cosConsistent s ->
    cos (metadata s') = cos (metadata s) ->
    Money.currency (amount (rate s')) = Money.currency (amount (rate s)) ->
    cosConsistent s'.
Proof.
  unfold cosConsistent. intros s s' H Hc Hr. now rewrite Hc, Hr.
Qed.

Lemma store_store :
  forall (A : Type) (l : list A) i (x y : A),
    store i x (store i y l) = store i x l.
Proof.
  intros A. induction l as [|z l IH]; intros i x y; destruct i; cbn;
    try reflexivity.
  now rewrite IH.
Qed.

Lemma updateCOS_consistent :
  forall now i u s s',
    cosConsistent s -> updateCOS now i u s = Return s' -> cosConsistent s'.
Proof.
  intros now i u s s' H R. unfold updateCOS in R.
  destruct (findIndex _ _) as [k|]; [|discriminate].
  cbv zeta in R.
  set (d := {| cos_id := i; item := ""; unitCost := DEFAULT_ZERO s;
               quantity := 0; subtotal := DEFAULT_ZERO s;
               cos_unit := None |}) in *.
  assert (Hold : Money.currency (unitCost (nth k (cos (metadata s)) d))
                 = Money.currency (amount (rate s))).
  { apply (Forall_nth_or_default _
             (fun c => Money.currency (unitCost c)
                       = Money.currency (amount (rate s)))).
    - unfold cosConsistent in H. rewrite Forall_forall in H |- *.
      intros c Hc. now apply H.
    - reflexivity. }
  destruct (u_quantity u) as [q|]; [destruct (q <=? 0); [discriminate|]|];
    (destruct (u_unitCost u) as [uc|];
     [destruct (assertCurrency _ uc) as [t|] eqn:Ea; cbn [bind] in R;
      [apply assertCurrency_passed in Ea|discriminate]|]);
    inversion R; subst s'; clear R;
    unfold cosConsistent;
    cbn [metadata cos set_cos with_metadata with_cos markFinanceDirty
         updateTimestamp set_last_update set_dirty];
    rewrite store_store; (apply Forall_store; [exact H|]);
    (split; [reflexivity|]); first [exact Ea | exact Hold].
Qed.

Lemma Forall_snoc :
  forall (A : Type) (P : A -> Prop) (l : list A) x,
    Forall P l -> P x -> Forall P (l ++ [x]).
Proof.
  intros A P l x H Hx. apply Forall_app. split; [exact H|].
  constructor; [exact Hx|constructor].
Qed.

(** Property X27. Every COS item priced in the currency of the rate with a
    subtotal of unit cost times quantity: what [initialize] starts with (no
    item), and what every call that returns keeps, [setRate] (which may
    change the currency) and [setCOS] (which stores the subtotals it is
    given) apart. Only a returning call counts: [updateCOS] can throw after
    it has changed the quantity. *)
Theorem cos_items_stay_consistent :
  forall env now genUID c s s',
    cosConsistent s ->
    (forall r, c <> SetRate r) ->
    (forall l, c <> SetCOS l) ->
    exec env now genUID c s = Return s' ->
    cosConsistent s'.
Proof.
  intros env now genUID c s s' H Hr Hl R.
  destruct c; cbn [exec] in R;
    try (exfalso; eapply Hr; reflexivity);
    try (exfalso; eapply Hl; reflexivity);
    try (now apply (updateCOS_consistent _ _ _ _ _ H R)).
  all: try (revert R; unfold_method; split_outcome; intros R;
            try discriminate R; inversion R; subst s'; clear R;
            first [ exact H
                  | apply (cosConsistent_transfer s); [exact H|reflexivity..]
                  ]).
  - (* addCOS *)
    unfold addCOS in R.
    destruct (is_blank name0); [discriminate|].
    destruct (_ <=? 0); [discriminate|].
    destruct (assertCurrency s unitCost0) as [t|] eqn:Ea; [|discriminate].
    apply assertCurrency_passed in Ea.
    inversion R; subst s'. unfold cosConsistent.
    cbn [metadata cos set_cos with_metadata with_cos markFinanceDirty
         updateTimestamp set_last_update set_dirty].
    apply Forall_snoc; [exact H|]. split; [reflexivity|exact Ea].
  - (* pushCOS *)
    unfold pushCOS in R.
    destruct (String.eqb _ _); [discriminate|].
    destruct (is_blank _); [discriminate|].
    destruct (_ <=? 0); [discriminate|].
    destruct (assertCurrency s (unitCost item0)) as [t|] eqn:Ea;
      [|discriminate].
    apply assertCurrency_passed in Ea.
    inversion R; subst s'. unfold cosConsistent.
    cbn [metadata cos set_cos with_metadata with_cos markFinanceDirty
         updateTimestamp set_last_update set_dirty].
    apply Forall_snoc; [exact H|]. split; [reflexivity|exact Ea].
  - (* removeCOS *)
    unfold removeCOS in R.
    destruct (findIndex _ _) as [k|]; [|discriminate].
    inversion R; subst s'. unfold cosConsistent.
    cbn [metadata cos set_cos with_metadata with_cos markFinanceDirty
         updateTimestamp set_last_update set_dirty].
    now apply Forall_remove_at.
  - (* clearCostBreakdown *)
    unfold clearCostBreakdown in R. inversion R; subst s'.
    unfold cosConsistent. cbn. constructor.
Qed.

Lemma hosting_is_consistent : cosConsistent withHosting.
Proof. unfold cosConsistent. cbn. repeat constructor. Qed.

Lemma cos_items_stay_consistent_witness :
  cosConsistent
    (final (updateCOS later "mjksubcost-Zp9G7K2a"
              {| u_quantity := Some 5; u_unitCost := None; u_unit := None;
                 u_item := None |} withHosting)).
Proof.
  apply (cos_items_stay_consistent envUTC later ""
           (UpdateCOS "mjksubcost-Zp9G7K2a"
              {| u_quantity := Some 5; u_unitCost := None; u_unit := None;
                 u_item := None |}) withHosting).
  - exact hosting_is_consistent.
  - discriminate.
  - discriminate.
  - reflexivity.
Defined.

(** Property X28. With every COS item priced in the currency of the rate and
    every subtotal its unit cost times its quantity, nothing in the finance
    engine throws: the cost per unit is the sum of unit cost times quantity,
    the profit per unit the rate less that, and the gross cost and gross
    profit are these two times the total effective units. Where the cache
    is marked stale, or holds the snapshot of the fields as they are, the
    cached getters answer exactly those amounts. *)
Theorem consistent_cos_keeps_the_getters_defined :
  forall s : MajikSubscription,
    cosConsistent s ->
    let perUnit :=
      sumZ (map (fun c => Money.minor (unitCost c) * quantity c)
                (cos (metadata s))) in
    let price := Money.minor (amount (rate s)) in
    let cur := Money.currency (amount (rate s)) in
    unitCost_total s = Val (Money.fromMinor perUnit cur)
    /\ unitProfit s = Val (Money.fromMinor (price - perUnit) cur)
    /\ computeGrossCOS s = Val (Money.fromMinor (perUnit * totalCapacity s) cur)
    /\ computeGrossProfit s
       = Val (Money.fromMinor ((price - perUnit) * totalCapacity s) cur)
    /\ (cacheCoherent s ->
        answer (grossRevenue s)
        = Val (Money.fromMinor (price * totalCapacity s) cur)
        /\ answer (grossCost s)
           = Val (Money.fromMinor (perUnit * totalCapacity s) cur)
        /\ answer (grossProfit s)
           = Val (Money.fromMinor ((price - perUnit) * totalCapacity s) cur)).
Proof.
  intros s H perUnit price cur.
  assert (U : unitCost_total s = Val (Money.fromMinor perUnit cur)).
  { rewrite unitCost_total_as_sum, money_sum_same_currency.
    - cbn [DEFAULT_ZERO Money.minor Money.currency Money.fromMinor].
      rewrite map_map. unfold perUnit, cur. rewrite Z.add_0_l.
      do 3 f_equal. apply map_ext_in. intros c Hc. unfold cosConsistent in H.
      rewrite Forall_forall in H. destruct (H c Hc) as [-> _]. reflexivity.
    - apply Forall_forall. intros x Hx. apply in_map_iff in Hx.
      destruct Hx as [c [<- Hc]]. unfold cosConsistent in H.
      rewrite Forall_forall in H. destruct (H c Hc) as [-> Hcur].
      exact Hcur. }
  assert (C : computeGrossCOS s
              = Val (Money.fromMinor (perUnit * totalCapacity s) cur))
    by (rewrite computeGrossCOS_closed, U; reflexivity).
  assert (P : computeGrossProfit s
              = Val (Money.fromMinor ((price - perUnit) * totalCapacity s) cur)).
  { unfold computeGrossProfit. rewrite computeGrossRevenue_closed, C.
    cbn [bind]. unfold Money.subtract.
    cbn [Money.multiply Money.fromMinor Money.currency Money.minor].
    fold cur. rewrite currency_eqb_refl. unfold Money.fromMinor.
    do 2 f_equal. unfold price. ring. }
  split; [exact U|]. split; [|split; [exact C|split; [exact P|]]].
  - unfold unitProfit. rewrite U. cbn [bind]. unfold Money.subtract.
    cbn [Money.fromMinor Money.currency Money.minor]. fold cur.
    now rewrite currency_eqb_refl.
  - intros R.
    unfold grossRevenue, grossCost, grossProfit.
    rewrite !cached_answer by exact R.
    pose proof (financeSnapshot_fields s) as F. rewrite C in F.
    destruct F as [f [Hf [Hr [Hc [Hp _]]]]].
    rewrite Hf. cbn [bind]. cbv beta. rewrite Hc.
    rewrite P in Hp. rewrite computeGrossRevenue_closed in Hr.
    inversion Hr as [Hr']. inversion Hp as [Hp'].
    repeat split.
Qed.

Lemma consistent_cos_keeps_the_getters_defined_witness :
  cosConsistent hostedPlanRead
  /\ financeDirty hostedPlanRead = false
  /\ unitCost_total hostedPlanRead = Val (Money.fromMinor 30000 PHP)
  /\ unitProfit hostedPlanRead = Val (Money.fromMinor (2900 - 30000) PHP)
  /\ answer (grossRevenue hostedPlanRead)
     = Val (Money.fromMinor (2900 * 30) PHP)
  /\ answer (grossCost hostedPlanRead)
     = Val (Money.fromMinor (30000 * 30) PHP)
  /\ answer (grossProfit hostedPlanRead)
     = Val (Money.fromMinor ((2900 - 30000) * 30) PHP).
Proof.
  assert (K : cosConsistent hostedPlanRead)
    by (unfold cosConsistent; cbn; repeat constructor).
  assert (Co : cacheCoherent hostedPlanRead) by (intros _; reflexivity).
  destruct (consistent_cos_keeps_the_getters_defined hostedPlanRead K)
    as [U [P [_ [_ G]]]].
  destruct (G Co) as [G1 [G2 G3]].
  split; [exact K|]. split; [reflexivity|].
  split; [exact U|]. split; [exact P|].
  split; [exact G1|]. split; [exact G2|exact G3].
Defined.

(** ** A new subscription *)

(** Property X29. [initialize] with a name and a category (["Other"] when
    none is given) of ASCII characters. What it returns: an active
    subscription under the given name and rate, with the identifier
    [mjksub-] and the random part, no COS item, no capacity plan and a cache
    marked stale; its totals, its monthly figures and its forecast are zero
    in the currency of the rate. It throws exactly when the name or the
    category is blank. *)
Theorem initialize_starts_from_zero :
  forall env now u1 u2 n t r c d k,
    asciiText n = true ->
    asciiText (match c with Some c0 => c0 | None => "Other" end) = true ->
    let zero := Money.fromMinor 0 (Money.currency (amount r)) in
    ((exists msg, initialize now u1 u2 n t r c d k = Err msg)
     <-> is_blank n = true
         \/ is_blank (match c with Some c0 => c0 | None => "Other" end) = true)
    /\ forall s,
         initialize now u1 u2 n t r c d k = Val s ->
         name s = n /\ rate s = r /\ status s = ACTIVE
         /\ id s = autogenerateID u1 "mjksub"
         /\ hasCostBreakdown s = false /\ hasCapacity s = false
         /\ cosConsistent s
         /\ totalCapacity s = 0
         /\ answer (grossRevenue s) = Val zero
         /\ answer (grossCost s) = Val zero
         /\ answer (grossProfit s) = Val zero
         /\ forecastRevenue s 12 = Val zero
         /\ maxSupplyMonth s = None /\ earliestCapacityMonth s = None
         /\ (forall m, isValidYYYYMM m = true ->
                       getRevenue s m = Val zero /\ getProfit s m = Val zero)
         /\ reachable env s.
Proof.
  intros env now u1 u2 n t r c d k _ _ zero. unfold initialize. split.
  - destruct (is_blank n); [split; eauto|].
    destruct (is_blank _); [split; eauto|].
    split; [intros [msg H]; discriminate|intros [H|H]; discriminate].
  - intros s H.
    destruct (is_blank n) eqn:Bn; [discriminate|].
    match type of H with
    | (if ?b then _ else _) = _ => destruct b; [discriminate|]
    end.
    destruct n as [|a n']; [discriminate Bn|].
    inversion H as [Hs]. clear H.
    set (s0 := new_MajikSubscription _ _ _ _ _ _ _ _ _ _) in *.
    assert (Rv : computeGrossRevenue s0 = Val zero) by reflexivity.
    assert (Cv : computeGrossCOS s0 = Val zero) by reflexivity.
    assert (Pv : computeGrossProfit s0 = Val zero).
    { unfold computeGrossProfit. rewrite Rv, Cv. cbn [bind].
      unfold Money.subtract, zero.
      cbn [Money.currency Money.fromMinor Money.minor].
      now rewrite currency_eqb_refl. }
    assert (Co : cacheCoherent s0) by (apply coherent_when_dirty; reflexivity).
    pose proof (financeSnapshot_fields s0) as F. rewrite Cv in F.
    destruct F as [f [Hf [Hr [Hc [Hp _]]]]].
    rewrite Rv in Hr. rewrite Pv in Hp.
    inversion Hr as [Hr']. inversion Hp as [Hp']. clear Hr Hp.
    assert (G : forall pick, answer (cached pick s0) = Val (pick f)).
    { intros pick. rewrite (cached_answer pick s0 Co), Hf. reflexivity. }
    subst s. unfold grossRevenue, grossCost, grossProfit. rewrite !G.
    rewrite <- Hr', <- Hp', Hc.
    repeat split; try reflexivity.
    + constructor.
    + unfold getRevenue. rewrite H. reflexivity.
    + unfold getProfit, getRevenue, getCOS. rewrite H. cbn [negb].
      change (findMonth s0 m) with (@None MonthlyCapacity). cbn [bind].
      unfold Money.subtract, DEFAULT_ZERO.
      cbn [Money.currency Money.fromMinor Money.minor].
      now rewrite currency_eqb_refl.
    + apply reach_new.
Qed.

Lemma initialize_starts_from_zero_witness :
  asciiText "Pro Plan" = true /\ asciiText "Other" = true
  /\ name proPlan = "Pro Plan" /\ rate proPlan = proRate
  /\ status proPlan = ACTIVE
  /\ id proPlan = autogenerateID "G7K2aZp9" "mjksub"
  /\ answer (grossRevenue proPlan) = Val (Money.fromMinor 0 PHP)
  /\ ((exists msg,
         initialize noon "G7K2aZp9" "X4tF9z" "  " None proRate None None None
         = Err msg)
      <-> is_blank "  " = true \/ is_blank "Other" = true).
Proof.
  split; [reflexivity|]. split; [reflexivity|].
  destruct (proj2 (initialize_starts_from_zero envUTC noon "G7K2aZp9"
                     "X4tF9z" "Pro Plan" None proRate None None None
                     eq_refl eq_refl)
              proPlan eq_refl) as [A [B [C [D [_ [_ [_ [_ [E _]]]]]]]]].
  repeat (split; [assumption|]).
  exact (proj1 (initialize_starts_from_zero envUTC noon "G7K2aZp9"
                  "X4tF9z" "  " None proRate None None None
                  eq_refl eq_refl)).
Defined.

(** ** Instances *)

Lemma throw_leaves_unchanged_witness :
  exec envUTC later "Zp9G7K2a" (RemoveCapacity "2025-03") unsorted
  = Throw "Month 2025-03 not found" unsorted.
Proof.
  assert (E : exists s',
             exec envUTC later "Zp9G7K2a" (RemoveCapacity "2025-03") unsorted
             = Throw "Month 2025-03 not found" s')
    by (eexists; reflexivity).
  destruct E as [s' E]. rewrite E. f_equal.
  apply (throw_leaves_unchanged envUTC later "Zp9G7K2a"
           (RemoveCapacity "2025-03") unsorted "Month 2025-03 not found" s').
  - discriminate.
  - exact E.
Defined.

Lemma hostedPlanRead_is_coherent :
  financeDirty hostedPlanRead = false /\ cacheCoherent hostedPlanRead.
Proof. split; [reflexivity|]. intros _. reflexivity. Qed.

Lemma gross_getters_witness :
  financeDirty hostedPlanRead = false
  /\ answer (grossRevenue hostedPlanRead)
     = (_ <- computeGrossCOS hostedPlanRead ;;
        computeGrossRevenue hostedPlanRead)
  /\ answer (grossCost hostedPlanRead) = computeGrossCOS hostedPlanRead
  /\ answer (grossProfit hostedPlanRead) = computeGrossProfit hostedPlanRead
  /\ answer (netRevenue hostedPlanRead) = answer (grossRevenue hostedPlanRead)
  /\ answer (netProfit hostedPlanRead) = answer (grossProfit hostedPlanRead).
Proof.
  split; [reflexivity|].
  exact (gross_getters hostedPlanRead (proj2 hostedPlanRead_is_coherent)).
Defined.

Lemma recompute_distribute_spreads_witness :
  recomputeCapacityPeriod envUTC later (monthKey 2025 1) (monthKey 2025 4)
    (Some DISTRIBUTE) unsorted
  = Return (markFinanceDirty (updateTimestamp later
      (set_plan unsorted
         (Some (consecutive (monthIndex 2025 1) 4
                  (fun j => (even_share 30 4 j, None))))))).
Proof.
  assert (Y : plainYear 2025) by (unfold plainYear; lia).
  assert (M1 : calendarMonth 1) by (unfold calendarMonth; lia).
  assert (M4 : calendarMonth 4) by (unfold calendarMonth; lia).
  assert (L : monthIndex 2025 1 <= monthIndex 2025 4)
    by (unfold monthIndex; lia).
  assert (T : 0 <= totalCapacity unsorted) by (cbn; lia).
  exact (proj1 (recompute_distribute_spreads envUTC later unsorted
                  2025 1 2025 4 Y M1 Y M4 L eq_refl T)).
Defined.

Lemma generate_plan_east_of_UTC_witness :
  exactGrowth 100 1 (Qfloor 3)
  /\ generateCapacityPlan envUTC later 3 100 (Some 1%Q)
       (Some (SDString "2025-01")) proPlan
     = Return (markFinanceDirty (updateTimestamp later
         (set_plan proPlan
            (Some [entry "2025-01" 100 None; entry "2025-02" 200 None;
                   entry "2025-03" 400 None])))).
Proof.
  assert (Y : plainYear 2025) by (unfold plainYear; lia).
  assert (A : (0 <= 100)%Q) by discriminate.
  assert (G : (0 <= 1)%Q) by discriminate.
  assert (X : exactGrowth 100 1 (Qfloor 3)).
  { right. exists 100, 1. repeat split. cbn. lia. }
  assert (M : 0 <= 0 <= 11) by lia.
  assert (E : 2025 * 12 + 0 + Qfloor 3 - 1 <= 9999 * 12 + 11)
    by (cbn; lia).
  split; [exact X|].
  exact (proj1 (generate_plan_east_of_UTC envUTC later 3 100 1
                  (Some (SDString "2025-01")) proPlan 2025 0
                  eq_refl eq_refl eq_refl A G X eq_refl Y M E)).
Defined.

(** ** A rate in another currency *)

Lemma currency_eqb_neq :
  forall a b, a <> b -> Money.currency_eqb a b = false.
Proof.
  intros a b H. destruct (Money.currency_eqb a b) eqn:E; [|reflexivity].
  apply currency_eqb_eq in E. contradiction.
Qed.

Lemma money_sum_mismatch :
  forall (l : list Money.t) (seed x : Money.t),
    In x l -> Money.currency x <> Money.currency seed ->
    money_sum seed l = Err Money.mismatch.
Proof.
  unfold money_sum.
  induction l as [|y l IH]; intros seed x I N; [destruct I|].
  cbn [fold_left bind]. unfold Money.add at 2.
  destruct (Money.currency_eqb (Money.currency seed) (Money.currency y)) eqn:E.
  - apply currency_eqb_eq in E.
    destruct I as [->|I]; [congruence|].
    apply (IH _ x I). exact N.
  - apply (fold_left_Err _ _ Money.add).
Qed.

(** Property X30. [setRate] accepts a rate in any currency and leaves the
    COS list as it is. When the subtotal of some COS item is in another
    currency than the new rate, the cost per unit cannot be added up any
    more: [unitCost] and [unitProfit] throw, and so does every cached
    getter, the gross revenue included, since one recomputation fills the
    whole snapshot; [getCOS] and [getProfit] throw for every month of the
    plan. [getRevenue] still answers, in the new rate. *)
Theorem setRate_to_another_currency_breaks_the_getters :
  forall now r s c0,
    In c0 (cos (metadata s)) ->
    Money.currency (subtotal c0) <> Money.currency (amount r) ->
    exists s',
      setRate now r s = Return s'
      /\ rate s' = r
      /\ cos (metadata s') = cos (metadata s)
      /\ planOrEmpty s' = planOrEmpty s
      /\ exists msg,
          unitCost_total s' = Err msg
          /\ unitProfit s' = Err msg
          /\ Forall (fun getter => answer (getter s') = Err msg) cachedGetters
          /\ (forall m c,
                 isValidYYYYMM m = true -> findMonth s m = Some c ->
                 getCOS s' m = Err msg /\ getProfit s' m = Err msg
                 /\ getRevenue s' m
                    = Val (Money.multiply (amount r) (effectiveUnits c))).
Proof.
  intros now r s c0 Hin Hne.
  eexists. split; [reflexivity|].
  set (s' := markFinanceDirty (updateTimestamp now (set_rate s r))).
  assert (U : unitCost_total s' = Err Money.mismatch).
  { rewrite unitCost_total_as_sum.
    apply (money_sum_mismatch _ _ (subtotal c0)).
    - change (cos (metadata s')) with (cos (metadata s)). now apply in_map.
    - exact Hne. }
  assert (C : computeGrossCOS s' = Err Money.mismatch)
    by (unfold computeGrossCOS; rewrite U; reflexivity).
  assert (F : financeSnapshot s' = Err Money.mismatch).
  { pose proof (financeSnapshot_fields s') as K. now rewrite C in K. }
  assert (G : forall pick, answer (cached pick s') = Err Money.mismatch).
  { intros pick. unfold cached, recomputeFinance.
    change (financeDirty s') with true. cbn [negb]. now rewrite F. }
  split; [reflexivity|]. split; [reflexivity|]. split; [reflexivity|].
  exists Money.mismatch.
  split; [exact U|]. split; [|split].
  - unfold unitProfit. now rewrite U.
  - unfold cachedGetters, grossRevenue, grossCost, grossProfit, netRevenue,
      netProfit.
    repeat constructor; apply G.
  - intros m c V Fm.
    assert (Fm' : findMonth s' m = Some c) by exact Fm.
    assert (R : getRevenue s' m
                = Val (Money.multiply (amount r) (effectiveUnits c))).
    { unfold getRevenue. rewrite V, Fm'. reflexivity. }
    assert (K : getCOS s' m = Err Money.mismatch).
    { unfold getCOS. rewrite V, Fm', U. reflexivity. }
    split; [exact K|]. split; [|exact R].
    unfold getProfit. rewrite V, R, K. reflexivity.
Qed.

Lemma setRate_to_another_currency_breaks_the_getters_witness :
  exists s',
    setRate later {| amount := Money.fromMinor 1900 USD; rate_unit := PER_USER;
                     billingCycle := MONTHLY |} withHosting = Return s'
    /\ exists msg, unitCost_total s' = Err msg.
Proof.
  assert (I : In hosting (cos (metadata withHosting)))
    by (left; reflexivity).
  destruct (setRate_to_another_currency_breaks_the_getters later
              {| amount := Money.fromMinor 1900 USD; rate_unit := PER_USER;
                 billingCycle := MONTHLY |}
              withHosting hosting I)
    as [s' [R [_ [_ [_ [msg [U _]]]]]]].
  - discriminate.
  - exists s'. split; [exact R|]. exists msg. exact U.
Defined.
